(* ===== verification/_CoqProject ===== *)
-Q . S2P
Prelude.v
JsNumber.v
JsValue.v
Vector3.v
Shape.v
Sphere.v
Scene.v
CameraBasis.v
Intersector.v
Tracer.v
TraceRel.v
Render.v
Scenarios.v
Page.v
Canvas.v
Legacy.v
Bundle.v
Harmony.v
Styles.v
