(* ===== verification/Prelude.v ===== *)
(** * A verification of seaneshbaugh/ray-tracer-demo

    The program is a Whitted-style ray tracer in JavaScript that draws
    spheres on a canvas.  [src/src/vector.js] is a three-component
    [Vector] class; [src/src/shape.js] an abstract [Shape];
    [src/src/sphere.js] the [Sphere] primitive (constructor with
    defaults and validation, [intersection], [normal]);
    [src/src/main.js] the tracer: [intersectScene] finds the nearest hit,
    [isLightVisible] casts shadow rays, [surface] shades a hit (Lambert
    term over visible lights, a reflected ray traced recursively,
    ambient term), [trace] recurses on the depth up to 3, and [render]
    loops over the pixels and stores bytes into the canvas image.
    Control flows render -> trace -> intersectScene -> surface ->
    (isLightVisible -> intersectScene, trace at depth + 1).  The page
    starts it: the script calls [onReady] with a callback that sizes the
    canvas, reads its image data, builds the scene and calls [render],
    which ends with [putImageData].

    ** Files, in dependency order

    - [Prelude] (this file): the [raytrace] hint databases, generic fold
      lemmas, and the [Result] type with its [let!] notation for code
      that may throw.
    - [JsNumber]: the class [JsNum] of the number operations the code
      uses (+, -, *, /, Math.sqrt, <, truthiness for [x || 0]), with
      two instances: IEEE binary64 on Rocq's primitive floats (what the
      program computes) and exact reals [R] (the ideal the spec's laws
      speak of); facts on floats: [x || 0] never yields NaN or -0,
      [<] is a strict order on non-NaN floats (through a lexicographic
      key on SpecFloat values), [+] and [*] commute.
    - [JsValue]: the primitive JavaScript values a constructor argument
      can be, with ToNumber (the host's string conversion a parameter),
      truthiness and [x || d].
    - [Vector3]: [Vector] and its methods [new] (the constructor, which
      stores [x || 0]), [add], [add3], [crossProduct], [dotProduct],
      [length], [normalize], [reflectThrough], [scale], [subtract],
      [UP], [ZERO], [WHITE], generic in [JsNum].
    - [Shape]: rays [{ point, vector }], the class [Shape] of what the
      tracer needs from an object, and [pointAtTime].
    - [Sphere]: the [Sphere] record, its constructor
      [Sphere.constructor] on JavaScript values and its specialization
      [Sphere.new] at numbers, returning [Ok] or the [Error] it throws, [intersection], [normal],
      and the [Shape] instance.
    - [Scene]: camera and scene records.
    - [CameraBasis]: the first three lines of [render] ([eyeVector],
      [right], [up]) as [cameraBasis], generic in [JsNum].
    - [Intersector]: [intersectScene] (a [fold_left] of [closest_step]
      from [(Infinity, None)]) and [isLightVisible], for any [Shape].
    - [Tracer]: [contribution], [lambert_step], [lambertAmount], [surface] (taking the
      recursive call as an argument) and [trace], defined with Equations
      by well-founded recursion on [remaining depth = 4 - depth], so it
      is total; [undefined] is [None].
    - [TraceRel]: [traces], a big-step relation for the depth
      recursion of [trace] (past the limit, miss, matte hit, mirror hit
      after the nested call), counting the calls.
    - [Render]: the camera [frame], [pixelRay], [pixelIndex],
      [writePixel] (four stores into the [Uint8ClampedArray], modelled as
      stdpp list inserts, which ignore out-of-range indices as typed
      arrays do, with the host's ToUint8Clamp), [renderPixel], [render]
      (the two nested loops).  [Math.tan] is a section parameter.
    - [Scenarios]: the demo scene of [main.js] and the spec's concrete
      tests, evaluated with [vm_compute] on doubles.
    - [Page]: [onReady] and the host's document readiness as a step
      relation [Document.step] (loading, interactive with
      [DOMContentLoaded] running its listeners, complete, timers).
    - [Canvas]: the host canvas ([getImageData], the [width]/[height]
      resets, [putImageData]) and the callback [completed] of [onReady],
      with [renderCanvas], [render] followed by its [putImageData].
    - [Bundle]: the webpack runtime of [src/dist/bundle.js]: the module
      cache [installedModules] as a [gmap], [__webpack_require__] as
      [webpack_require] with fuel, and the bundle's module table.
    - [Harmony]: the runtime's interop helpers [.o], [.d], [.r], [.n]
      and [.t] on a heap of JavaScript objects ([gmap] from locations
      to objects of own properties, with the closures the helpers
      create), property reads through getters with fuel.
    - [Styles]: the stylesheet loaders the bundle runs for [main.css]:
      the css-loader's list ([toString], [i]) in [CssLoader], and in
      [StyleLoader] the style-loader's registry [stylesInDom] (a [gmap]
      of reference-counted entries), the [<style>] elements of the
      head, [addStyles] and the [update] closure it returns.
    - [Legacy]: the older single-file copy [src/application.js]: its free
      functions [sphereIntersection] and [sphereNormal] as a second
      [Shape] instance over object-literal spheres, its tracer functions
      as the tracer's definitions at that instance, its scene literal,
      its [onReady'] and callback [completed'], and its [Vector] class
      ([Legacy.Vector'], the same text as [vector.js]).

    ** What is proved

    - Intersector: [intersectScene] returns the first nearest hit, ties
      going to the first object in scene order, and [(Infinity, null)]
      exactly when nothing is hit; the shadow test is characterised
      exactly (occlusion by any object met at a distance <= -0.005 along
      a ray that points away from the light).
    - Tracer: [trace] is undefined exactly past depth 3 and returns a
      colour at depths 0..3 (its [null.normal] branch is unreachable);
      its behaviour on a miss and on a hit; [surface] does not recurse
      without [specular] and ignores lights without [lambert]; the
      lights loop computes the sum, in order, of the positive
      contributions of the visible lights, with no clamping.
    - Page and Canvas: a callback registered while the document loads
      runs exactly once, one registered later never runs ([onReady]
      tests for "completed", which [readyState] never is); on a canvas
      of non-zero layout size the callback leaves it showing, byte for
      byte, the rendered demo scene; on a zero size it throws
      [IndexSizeError]; whole bytes round-trip through the store.
    - Bundle: every require keeps the cache well formed;
      require terminates on any table with fuel above the number of
      uncached modules; a require that throws leaves a half-initialised
      module that later requires hand out silently.
    - Harmony: [.n]'s getter reads, when read, the [default] of an ES
      module and the whole CommonJS module otherwise (a live binding
      for a module [.r] marked); [.d] defines an export once; [.t]
      builds a marked namespace with [default] and a getter per
      enumerable key of the value.
    - Styles: loading a list with new ids and releasing it gives the
      registry and the head back exactly; loading and [update] keep the
      registry well formed; releasing twice throws [TypeError]; [i]
      skips only ids the list had before the call.
    - TraceRel: [trace] refines the relation, and the relation is
      functional (it relates only [trace]'s result).
    - Render: row-major pixel layout within the buffer, no overlap
      between pixels, [render] never throws, writes every pixel's traced
      colour and alpha 255, and overwrites the whole buffer.
    - CameraBasis: at [R], when the view direction is not vertical, the
      camera frame is orthonormal, [right] is horizontal and [up] is on
      the side of the world's [UP].
    - Sphere: constructor contract (errors, accepted radii, defaults
      that replace an explicit 0), on every primitive JavaScript value
      (it fails exactly when [Number(radius)] is NaN or [<= 0], so
      [true] and ["2"] are accepted and the default radius is dead), and
      [Sphere.new] is that constructor at numbers; in exact arithmetic, the intersection
      distance is a point of the sphere and the nearer root, a miss means
      the line misses, and the reflected ray of the tracer re-enters
      the sphere at distance 0.
    - Vector: canonical components, [normalize] of any zero vector is
      [ZERO], the real laws (orthogonality of the cross product, unit
      [normalize], commutativity, [a - (a - b) = b]) and which of them
      hold on doubles.
    - Scenarios: the demo scene's constructed coefficients, and the
      spec's tests (ties, a mirror, small renders) evaluated on doubles,
      which serve as the witnesses of the general theorems.
    - Legacy: no theorem of its own; its tracer functions are the
      tracer's definitions at the literal instance, so the tracer's
      theorems, stated for every [Shape] instance, hold of them.

    ** Choices

    - Numbers: [float] is binary64 with NaN, infinities and signed zeros,
      as JavaScript numbers are; comparisons are the IEEE ones.  Exact
      statements (unit directions, points on spheres) are made at [R],
      where the same generic definitions run.
    - Recursion: the depth bound 3 of the source gives at most 4 nested
      [trace] calls; no fuel is needed.
    - Fuel: [webpack_require] takes fuel, and [require_total] shows
      that one more than the number of uncached modules always
      suffices; [Harmony.get] takes fuel because a getter may read
      through another getter (a cycle of getters loops in JavaScript
      too), and its theorems hold at every fuel.
    - Canvas sizes and loop counters are [nat] converted to floats
      exactly (they are far below 2^53).

    ** Not modelled

    [document.getElementById] and [getContext] (they only locate the
    canvas); the browser's compositing of the bitmap; in
    [src/dist/bundle.js], the exposures [.m], [.c], [.p], [.s] (plain
    assignments no module reads), the style-loader paths this bundle
    does not take (listed in [Styles]) and [urls.js], and the Babel
    output of [src/src] inside the bundle, which is modelled from
    [src/src].  The host's [Math.tan] and string conversion are
    parameters; the byte conversion of the canvas array is the HTML
    ToUint8Clamp, written out in [Render].

    ** Future work

    Floating-point error bounds relating the double and real instances
    of [Vector] on bounded inputs (the decimal and rounding lemmas they
    need are not in the libraries at hand); objects as numeric
    constructor arguments (ToPrimitive through [valueOf]/[toString]). *)

From Stdlib Require Import List Lia Bool Relations.
Import ListNotations.

Create HintDb raytrace.
Create Rewrite HintDb raytrace.

(** Generic fold invariant: a property kept by every step of a
    [fold_left] holds of its result. *)
Lemma fold_left_invariant {A B} (P : A -> Prop) (f : A -> B -> A) (l : list B) (a : A) :
  P a -> (forall acc b, In b l -> P acc -> P (f acc b)) -> P (fold_left f l a).
Proof.
  revert a. induction l as [|b l IH]; intros a Ha Hstep; cbn; [exact Ha|].
  apply IH; [apply Hstep; [left|]; auto|].
  intros acc b' Hin. apply Hstep. right. exact Hin.
Qed.

(** Result of an operation that may throw: [Ok] value or [Error]. *)
Inductive Result (A E : Type) : Type :=
| Ok : A -> Result A E
| Error : E -> Result A E.
Arguments Ok {A E} _.
Arguments Error {A E} _.

Lemma fold_left_map_fusion {A B C} (f : A -> C -> A) (g : B -> C) (l : list B) (a : A) :
  fold_left f (map g l) a = fold_left (fun acc b => f acc (g b)) l a.
Proof. revert a. induction l as [|b l IH]; intros a; cbn; auto. Qed.

(** A nested loop [for x of l] [for y of l'] is one loop over
    [list_prod l l'], in the same order. *)
Lemma fold_left_list_prod {A B C} (f : C -> A -> B -> C) (l : list A) (l' : list B) (c : C) :
  fold_left (fun acc a => fold_left (fun acc b => f acc a b) l' acc) l c =
  fold_left (fun acc p => f acc (fst p) (snd p)) (list_prod l l') c.
Proof.
  revert c. induction l as [|a l IH]; intros c; cbn; [reflexivity|].
  rewrite fold_left_app, fold_left_map_fusion. apply IH.
Qed.

(** Sequencing of operations that may throw. *)
Definition result_bind {A B E} (r : Result A E) (k : A -> Result B E) : Result B E :=
  match r with Ok a => k a | Error e => Error e end.

Declare Scope result_scope.
Delimit Scope result_scope with result.
Notation "'let!' x ':=' r 'in' k" := (result_bind r (fun x => k))
  (at level 200, x name, r at level 100, k at level 200) : result_scope.

(** The error of an operation seen through a wider error type. *)
Definition result_map_error {A E F} (f : E -> F) (r : Result A E) : Result A F :=
  match r with Ok a => Ok a | Error e => Error (f e) end.

(** A property kept by every step holds along every run of a step
    relation: rule induction on [clos_refl_trans_1n]. *)
Lemma star_invariant {A} (R : A -> A -> Prop) (P : A -> Prop) (x y : A) :
  (forall a b, R a b -> P a -> P b) -> clos_refl_trans_1n A R x y -> P x -> P y.
Proof. intros Hstep Hxy. induction Hxy; eauto. Qed.
