(* ===== verification/JsNumber.v ===== *)
(** * JsNumber: the JavaScript number operations the ray tracer uses

    Every arithmetic operation of [src/src/vector.js] and
    [src/src/sphere.js] is written against the class [JsNum] below:
    the four operations, [Math.sqrt], [<], and JavaScript truthiness,
    which the code uses through [x || 0].  Two instances are given:

    - [float_JsNum]: IEEE-754 binary64, the numbers the program really
      computes with, on Rocq's primitive floats (executable by
      [vm_compute]);
    - [R_JsNum]: exact real arithmetic, the ideal the spec's vector and
      geometry laws are stated in.

    The file also holds the facts about primitive floats the other
    components need: truthiness and [|| 0], the strict order [<?] as a
    lexicographic order on SpecFloat keys (transitive, irreflexive),
    and commutativity of [+] and [*]. *)

From Stdlib Require Import Bool ZArith Lia Floats Reals Lra.
From S2P Require Import Prelude.

Local Set Warnings "-inexact-float".

Class JsNum (S : Type) := {
  js_zero : S;
  js_one : S;
  js_two : S;
  js_add : S -> S -> S;
  js_sub : S -> S -> S;
  js_mul : S -> S -> S;
  js_div : S -> S -> S;
  js_sqrt : S -> S;            (** [Math.sqrt] *)
  js_ltb : S -> S -> bool;     (** [a < b] *)
  js_truthy : S -> bool        (** [ToBoolean] on a number *)
}.

Declare Scope js_scope.
Delimit Scope js_scope with js.
Notation "0" := js_zero : js_scope.
Notation "1" := js_one : js_scope.
Notation "2" := js_two : js_scope.
Infix "+" := js_add : js_scope.
Infix "-" := js_sub : js_scope.
Infix "*" := js_mul : js_scope.
Infix "/" := js_div : js_scope.
Infix "<?" := js_ltb (at level 70) : js_scope.

(** [v || 0] on a number [v]: the value itself when truthy, else [0]. *)
Definition or0 {S} `{JsNum S} (v : S) : S :=
  if js_truthy v then v else js_zero.

(** ** IEEE doubles *)

Local Open Scope float_scope.

(** [ToBoolean] of a number is false exactly on [+0], [-0] and [NaN]. *)
Definition truthy (f : float) : bool :=
  negb (PrimFloat.is_nan f || PrimFloat.is_zero f).

#[export] Instance float_JsNum : JsNum float := {|
  js_zero := 0; js_one := 1; js_two := 2;
  js_add := PrimFloat.add; js_sub := PrimFloat.sub;
  js_mul := PrimFloat.mul; js_div := PrimFloat.div;
  js_sqrt := PrimFloat.sqrt; js_ltb := PrimFloat.ltb;
  js_truthy := truthy |}.

(** A number a JavaScript [Vector] component can hold after [|| 0]:
    neither [NaN] nor [-0]. *)
Definition canonical (f : float) : bool :=
  negb (PrimFloat.is_nan f) && negb (PrimFloat.is_zero f && PrimFloat.get_sign f).

(** ** Reals *)

Local Close Scope float_scope.
Local Open Scope R_scope.

Definition Rtruthy (r : R) : bool := if Req_dec_T r 0 then false else true.
Definition Rltb (a b : R) : bool := if Rlt_dec a b then true else false.

#[export] Instance R_JsNum : JsNum R := {|
  js_zero := 0; js_one := 1; js_two := 2;
  js_add := Rplus; js_sub := Rminus; js_mul := Rmult; js_div := Rdiv;
  js_sqrt := sqrt; js_ltb := Rltb; js_truthy := Rtruthy |}.

Local Close Scope R_scope.

(** ** Lemmas on floats *)

Section FloatFacts.
Local Open Scope float_scope.

Lemma or0_float (f : float) : or0 f = if truthy f then f else 0.
Proof. reflexivity. Qed.

Lemma truthy_true (f : float) :
  truthy f = true -> PrimFloat.is_nan f = false /\ PrimFloat.is_zero f = false.
Proof. unfold truthy. rewrite negb_true_iff. apply orb_false_iff. Qed.

Lemma or0_canonical (f : float) : canonical (or0 f) = true.
Proof.
  rewrite or0_float. destruct (truthy f) eqn:T; [|reflexivity].
  apply truthy_true in T as [Hn Hz]. unfold canonical. rewrite Hn, Hz. reflexivity.
Qed.

Lemma canonical_or0 (f : float) : canonical f = true -> or0 f = f.
Proof.
  intros Hc. rewrite or0_float. destruct (truthy f) eqn:T; [reflexivity|].
  unfold canonical in Hc. apply andb_true_iff in Hc as [Hn Hs].
  apply negb_true_iff in Hn. unfold truthy in T. rewrite Hn in T. cbn in T.
  assert (Hz : exists s, Prim2SF f = S754_zero s).
  { unfold PrimFloat.is_zero in T. apply negb_false_iff in T.
    rewrite eqb_spec in T. change (Prim2SF 0) with (S754_zero false) in T.
    destruct (Prim2SF f) as [[]|[]| |[] m e]; cbn in T; try discriminate; eauto. }
  destruct Hz as [[] Hz].
  - assert (f = (-0)%float) as -> by (apply Prim2SF_inj; rewrite Hz; reflexivity).
    discriminate Hs.
  - apply Prim2SF_inj. rewrite Hz. reflexivity.
Qed.

Lemma SFadd_comm prec emax a b : SFadd prec emax a b = SFadd prec emax b a.
Proof.
  destruct a as [sa|sa| |sa ma ea], b as [sb|sb| |sb mb eb]; cbn; try reflexivity;
    try (destruct sa, sb; reflexivity).
  rewrite Z.min_comm, Z.add_comm. reflexivity.
Qed.

Lemma SFmul_comm prec emax a b : SFmul prec emax a b = SFmul prec emax b a.
Proof.
  destruct a as [sa|sa| |sa ma ea], b as [sb|sb| |sb mb eb]; cbn; try reflexivity;
    try (destruct sa, sb; reflexivity).
  rewrite Pos.mul_comm, Z.add_comm, Bool.xorb_comm. reflexivity.
Qed.

Lemma fadd_comm (a b : float) : a + b = b + a.
Proof. apply Prim2SF_inj. rewrite !add_spec. apply SFadd_comm. Qed.

Lemma fmul_comm (a b : float) : a * b = b * a.
Proof. apply Prim2SF_inj. rewrite !mul_spec. apply SFmul_comm. Qed.

(** The strict order of non-NaN floats is the lexicographic order on
    the keys below: class (-inf, negative, zero, positive, +inf), then
    exponent, then mantissa, both negated for negative numbers. *)
Definition fkey (f : spec_float) : Z * Z * Z :=
  match f with
  | S754_infinity true => (0, 0, 0)%Z
  | S754_finite true m e => (1, - e, - Zpos m)%Z
  | S754_zero _ => (2, 0, 0)%Z
  | S754_finite false m e => (3, e, Zpos m)%Z
  | S754_infinity false => (4, 0, 0)%Z
  | S754_nan => (0, 0, 0)%Z
  end.

Definition klt (a b : Z * Z * Z) : Prop :=
  let '(a1, a2, a3) := a in
  let '(b1, b2, b3) := b in
  (a1 < b1 \/ (a1 = b1 /\ (a2 < b2 \/ (a2 = b2 /\ a3 < b3))))%Z.

Definition sf_nan (f : spec_float) : bool :=
  match f with S754_nan => true | _ => false end.

Lemma SFcompare_Lt a b : sf_nan a = false -> sf_nan b = false ->
  SFcompare a b = Some Lt <-> klt (fkey a) (fkey b).
Proof.
  destruct a as [sa|sa| |sa ma ea], b as [sb|sb| |sb mb eb]; try discriminate;
    intros _ _; try destruct sa; try destruct sb; cbn.
  all: rewrite ?Pos.compare_cont_spec; unfold Pos.switch_Eq.
  all: try (destruct (Z.compare_spec ea eb); destruct (Pos.compare_spec ma mb);
            subst; cbn).
  all: split; intros; first [reflexivity | discriminate | lia].
Qed.

Lemma ltb_key (a b : float) :
  (a <? b) = true <->
  sf_nan (Prim2SF a) = false /\ sf_nan (Prim2SF b) = false /\
  klt (fkey (Prim2SF a)) (fkey (Prim2SF b)).
Proof.
  rewrite ltb_spec. unfold SFltb.
  destruct (sf_nan (Prim2SF a)) eqn:Ha.
  { destruct (Prim2SF a); try discriminate. cbn. intuition discriminate. }
  destruct (sf_nan (Prim2SF b)) eqn:Hb.
  { destruct (Prim2SF b); try discriminate.
    destruct (Prim2SF a); cbn; intuition discriminate. }
  rewrite <- (SFcompare_Lt _ _ Ha Hb).
  destruct (SFcompare (Prim2SF a) (Prim2SF b)) as [[]|]; intuition congruence.
Qed.

Lemma SFcompare_Gt a b : sf_nan a = false -> sf_nan b = false ->
  SFcompare a b = Some Gt <-> klt (fkey b) (fkey a).
Proof.
  destruct a as [sa|sa| |sa ma ea], b as [sb|sb| |sb mb eb]; try discriminate;
    intros _ _; try destruct sa; try destruct sb; cbn.
  all: rewrite ?Pos.compare_cont_spec; unfold Pos.switch_Eq.
  all: try (destruct (Z.compare_spec ea eb); destruct (Pos.compare_spec ma mb);
            subst; cbn).
  all: split; intros; first [reflexivity | discriminate | lia].
Qed.

(** For numbers that are not NaN, [a <= b] is false only when [b < a]. *)
Lemma fleb_false (a b : float) :
  PrimFloat.is_nan a = false -> PrimFloat.is_nan b = false ->
  (a <=? b) = false -> (b <? a) = true.
Proof.
  intros Ha Hb. unfold PrimFloat.is_nan in *. rewrite eqb_spec in Ha, Hb.
  assert (Na : sf_nan (Prim2SF a) = false)
    by (destruct (Prim2SF a); try reflexivity; discriminate).
  assert (Nb : sf_nan (Prim2SF b) = false)
    by (destruct (Prim2SF b); try reflexivity; discriminate).
  rewrite leb_spec. unfold SFleb. intros Hle. apply ltb_key. repeat split; auto.
  apply (SFcompare_Gt _ _ Na Nb).
  destruct (SFcompare (Prim2SF a) (Prim2SF b)) as [[]|] eqn:E; try discriminate;
    [reflexivity|].
  destruct (Prim2SF a), (Prim2SF b); discriminate.
Qed.

Definition kle (a b : Z * Z * Z) : Prop := klt a b \/ a = b.

Lemma SFcompare_Eq a b : sf_nan a = false -> sf_nan b = false ->
  SFcompare a b = Some Eq <-> fkey a = fkey b.
Proof.
  destruct a as [sa|sa| |sa ma ea], b as [sb|sb| |sb mb eb]; try discriminate;
    intros _ _; try destruct sa; try destruct sb; cbn.
  all: rewrite ?Pos.compare_cont_spec; unfold Pos.switch_Eq.
  all: try (destruct (Z.compare_spec ea eb); destruct (Pos.compare_spec ma mb);
            subst; cbn).
  all: split; intros Hc; first [reflexivity | discriminate | injection Hc; lia | lia].
Qed.

Lemma leb_key (a b : float) :
  (a <=? b) = true <->
  sf_nan (Prim2SF a) = false /\ sf_nan (Prim2SF b) = false /\
  kle (fkey (Prim2SF a)) (fkey (Prim2SF b)).
Proof.
  rewrite leb_spec. unfold SFleb, kle.
  destruct (sf_nan (Prim2SF a)) eqn:Ha.
  { destruct (Prim2SF a); try discriminate. cbn. intuition discriminate. }
  destruct (sf_nan (Prim2SF b)) eqn:Hb.
  { destruct (Prim2SF b); try discriminate.
    destruct (Prim2SF a); cbn; intuition discriminate. }
  rewrite <- (SFcompare_Lt _ _ Ha Hb), <- (SFcompare_Eq _ _ Ha Hb).
  destruct (SFcompare (Prim2SF a) (Prim2SF b)) as [[]|]; intuition congruence.
Qed.

Lemma klt_trans a b c : klt a b -> klt b c -> klt a c.
Proof. destruct a as [[? ?] ?], b as [[? ?] ?], c as [[? ?] ?]; cbn; lia. Qed.

Lemma klt_irrefl a : ~ klt a a.
Proof. destruct a as [[? ?] ?]; cbn; lia. Qed.

Lemma fltb_trans (a b c : float) : (a <? b) = true -> (b <? c) = true -> (a <? c) = true.
Proof.
  rewrite !ltb_key. intros (? & ? & ?) (? & ? & ?). eauto using klt_trans.
Qed.

Lemma fltb_irrefl (a : float) : (a <? a) = false.
Proof.
  destruct (a <? a) eqn:E; [|reflexivity].
  apply ltb_key in E as (_ & _ & E). now apply klt_irrefl in E.
Qed.

Lemma fltb_asym (a b : float) : (a <? b) = true -> (b <? a) = false.
Proof.
  intros H. destruct (b <? a) eqn:E; [|reflexivity].
  rewrite <- (fltb_irrefl a). symmetry. eauto using fltb_trans.
Qed.

Lemma kle_klt_trans a b c : kle a b -> klt b c -> klt a c.
Proof. intros [H| ->]; [eauto using klt_trans|auto]. Qed.

Lemma fleb_ltb_trans (a b c : float) :
  (a <=? b) = true -> (b <? c) = true -> (a <? c) = true.
Proof.
  rewrite leb_key, !ltb_key. intros (? & ? & ?) (? & ? & ?). eauto using kle_klt_trans.
Qed.

Lemma fltb_not_leb (a b : float) : (a <? b) = true -> (b <=? a) = false.
Proof.
  intros H. destruct (b <=? a) eqn:E; [|reflexivity].
  pose proof (fleb_ltb_trans b a b E H) as Hb. now rewrite fltb_irrefl in Hb.
Qed.

Lemma fltb_leb_trans (a b c : float) :
  (a <? b) = true -> (b <=? c) = true -> (a <? c) = true.
Proof.
  rewrite leb_key, !ltb_key. intros (? & ? & H1) (? & ? & [H2| <-]); repeat split; auto.
  eauto using klt_trans.
Qed.

Lemma fltb_eqb_false (a b : float) : (a <? b) = true -> (a =? b) = false.
Proof.
  rewrite ltb_key. intros (Ha & Hb & Hk). rewrite eqb_spec. unfold SFeqb.
  destruct (SFcompare (Prim2SF a) (Prim2SF b)) as [[]|] eqn:E; try reflexivity.
  apply (SFcompare_Eq _ _ Ha Hb) in E. rewrite E in Hk. now apply klt_irrefl in Hk.
Qed.

(** For a [b] that is not NaN, [a < b] fails only when [b <= a] or [a]
    is NaN. *)
Lemma fltb_false (a b : float) :
  PrimFloat.is_nan b = false -> (a <? b) = false ->
  PrimFloat.is_nan a = true \/ (b <=? a) = true.
Proof.
  intros Hb Hlt. destruct (PrimFloat.is_nan a) eqn:Ha; [left; reflexivity|right].
  destruct (b <=? a) eqn:E; [reflexivity|].
  rewrite (fleb_false _ _ Hb Ha E) in Hlt. discriminate.
Qed.

Lemma SFeqb_refl (f : spec_float) : sf_nan f = false -> SFeqb f f = true.
Proof.
  destruct f as [[]|[]| |[] m e]; cbn; try discriminate; intros _;
    rewrite ?Z.compare_refl, ?Pos.compare_cont_refl; reflexivity.
Qed.

Lemma fltb_not_nan (a b : float) :
  (a <? b) = true -> PrimFloat.is_nan a = false /\ PrimFloat.is_nan b = false.
Proof.
  rewrite ltb_key. intros (Ha & Hb & _). unfold PrimFloat.is_nan. rewrite !eqb_spec.
  now rewrite !SFeqb_refl.
Qed.

(** A number that is neither NaN nor [<= 0] is positive and truthy. *)
Lemma truthy_of_not_le0 (f : float) :
  PrimFloat.is_nan f = false -> (f <=? 0) = false -> (0 <? f) = true /\ truthy f = true.
Proof.
  intros Hn Hle. assert (Hlt : (0 <? f) = true) by (apply fleb_false; auto).
  split; [exact Hlt|]. unfold truthy.
  destruct (PrimFloat.is_zero f) eqn:Hz; [|rewrite Hn; reflexivity].
  exfalso. unfold PrimFloat.is_zero in Hz. rewrite eqb_spec in Hz.
  rewrite ltb_spec in Hlt. change (Prim2SF 0) with (S754_zero false) in *.
  destruct (Prim2SF f) as [[]|[]| |[] m e]; discriminate.
Qed.

End FloatFacts.

(** ** Lemmas on reals *)

Lemma or0_R (r : R) : or0 r = r.
Proof.
  unfold or0; cbn. unfold Rtruthy. destruct (Req_dec_T r 0); congruence.
Qed.

Lemma Rltb_true (a b : R) : Rltb a b = true <-> (a < b)%R.
Proof. unfold Rltb. destruct (Rlt_dec a b); intuition discriminate. Qed.

Lemma Rltb_false (a b : R) : Rltb a b = false <-> (b <= a)%R.
Proof. unfold Rltb. destruct (Rlt_dec a b); split; intros; try lra; auto. Qed.

#[export] Hint Resolve or0_canonical fltb_irrefl : raytrace.
#[export] Hint Rewrite or0_R : raytrace.
