(* ===== verification/JsValue.v ===== *)
(** * JsValue: the JavaScript values a constructor argument can be

    [new Sphere(point, radius, color, specular, lambert, ambient)] is
    plain JavaScript: nothing checks that [radius] and the coefficients
    are numbers.  The constructor reads them through [x || d] (the
    truthiness of any value), [Number(x)], [isNaN(x)] and [x <= 0], which
    convert with ECMAScript's ToNumber.  [value] holds the primitive
    values ([undefined], [null], booleans, numbers, strings); objects as
    numeric arguments (whose ToNumber calls [valueOf] or [toString]) are
    not modelled.  StringToNumber (the grammar of numeric strings with
    correctly rounded decimal conversion) is the host's and is a
    parameter [stringToNumber]; the theorems that need it assume only
    [Number("") = 0]. *)

From Stdlib Require Import Bool String Floats.
From S2P Require Import Prelude JsNumber.

Inductive value :=
| Undefined
| Null
| Bool (b : bool)
| Num (f : float)
| Str (s : string).

Section ToNumber.
Variable stringToNumber : string -> float.

(** ToNumber: [undefined] is NaN, [null] and [false] are +0, [true] is 1. *)
Definition toNumber (v : value) : float :=
  match v with
  | Undefined => PrimFloat.nan
  | Null => 0%float
  | Bool true => 1%float
  | Bool false => 0%float
  | Num f => f
  | Str s => stringToNumber s
  end.

End ToNumber.

(** ToBoolean: [undefined], [null], [false], [0], [-0], [NaN] and [""]
    are falsy. *)
Definition truthy_value (v : value) : bool :=
  match v with
  | Undefined | Null => false
  | Bool b => b
  | Num f => truthy f
  | Str s => negb (String.eqb s "")
  end.

(** [v || d] *)
Definition or_value (v d : value) : value := if truthy_value v then v else d.

(** An optional number argument as a value: a missing one is [undefined]. *)
Definition of_option (o : option float) : value :=
  match o with Some f => Num f | None => Undefined end.

(** A value that converts to a number neither NaN nor [<= 0] is truthy,
    since the empty string converts to 0. *)
Lemma truthy_value_of_positive (stringToNumber : string -> float) (v : value) :
  stringToNumber ""%string = 0%float ->
  PrimFloat.is_nan (toNumber stringToNumber v) = false ->
  (toNumber stringToNumber v <=? 0)%float = false -> truthy_value v = true.
Proof.
  intros Hempty Hn Hle. destruct v as [| |[]|f|s']; cbn in *; try discriminate; try reflexivity.
  - now apply truthy_of_not_le0.
  - destruct (String.eqb_spec s' ""); [subst; now rewrite Hempty in Hle|reflexivity].
Qed.
