(* ===== verification/Shape.v ===== *)
(** * Shape: rays and the capability every scene object offers

    [src/src/shape.js] declares an abstract base class [Shape] whose only
    code is a constructor that refuses direct instantiation.  The tracer
    in [src/src/main.js] uses an object through six members:
    [object.intersection(ray)], [object.normal(position)] and the
    material fields [color], [specular], [lambert], [ambient].  The class
    [Shape] below states that capability; [Sphere] is its only instance,
    and the intersector and tracer are written and proved against the
    class, so a new primitive only needs a new instance.
    [Shape_constructor] is the constructor of [shape.js], with
    [new.target] as its argument.  The ray is the object literal
    [{ point, vector }] built in [main.js]. *)

From S2P Require Import Prelude JsNumber Vector3.

Module Ray.
(** [{ point, vector }]: origin and direction of a ray. *)
Record t (S : Type) := mk { point : Vector S; vector : Vector S }.
Arguments mk {S} _ _.
Arguments point {S} _.
Arguments vector {S} _.
End Ray.

Class Shape (S : Type) (T : Type) := {
  intersection : T -> Ray.t S -> option S;   (** [undefined] when missed *)
  normal : T -> Vector S -> Vector S;
  color : T -> Vector S;
  specular : T -> S;
  lambert : T -> S;
  ambient : T -> S
}.

(** [ray.point.add(ray.vector.scale(distance))]: the point of a ray at a
    distance, as [trace] computes the hit point. *)
Definition pointAtTime {S} `{JsNum S} (ray : Ray.t S) (distance : S) : Vector S :=
  Vector.add (Ray.point ray) (Vector.scale (Ray.vector ray) distance).

(** The class a [new] expression names, which is [new.target] in the
    constructors it runs: [Shape] itself or its subclass [Sphere]. *)
Inductive ShapeClass := ShapeClass_Shape | ShapeClass_Sphere.

(** [TypeError("Cannot construct Shape instances directly.")] *)
Inductive ShapeError := CannotConstructShape.

(** [Shape]'s constructor: [new Shape()] throws, and the [super()] call
    of a subclass's constructor returns. *)
Definition Shape_constructor (newTarget : ShapeClass) : Result unit ShapeError :=
  match newTarget with
  | ShapeClass_Shape => Error CannotConstructShape
  | ShapeClass_Sphere => Ok tt
  end.

(** The [super()] that [Sphere]'s constructor starts with never throws,
    so [Sphere.new] leaves it out. *)
Lemma Shape_constructor_sphere : Shape_constructor ShapeClass_Sphere = Ok tt.
Proof. reflexivity. Qed.
