(* ===== verification/Sphere.v ===== *)
(** * Sphere: the class [Sphere] of [src/src/sphere.js]

    [Sphere.t] holds the six fields the constructor stores;
    [Sphere.constructor] is the constructor on primitive JavaScript
    values, with [Number(a || b)] defaults and its two [throw]s as
    [Error] results, and [Sphere.new] the same constructor at numbers
    (or [undefined]), as the program calls it;
    [Sphere.intersection] and [Sphere.normal] are the two methods, generic
    in the number type.  [Sphere_Shape] makes a sphere a [Shape].

    Theorems: a constructed sphere always has a positive radius and
    truthy [specular], [lambert] and [ambient] (an explicit [0] is
    replaced by the default), the constructor accepts an infinite
    radius, [Sphere.new] is [Sphere.constructor] at numbers, and on any
    value the constructor fails exactly when [Number(radius)] is NaN or
    [<= 0]; in exact arithmetic, the distance [intersection] returns
    lies on the sphere and is the nearer root, [undefined] means the
    ray's line misses the sphere, and a ray reflected with
    [reflectThrough] at a front-facing hit point meets the same sphere
    again at distance 0. *)

From Stdlib Require Import Bool ZArith Lia Floats Reals Lra String.
From S2P Require Import Prelude JsNumber JsValue Vector3 Shape.

Local Set Warnings "-inexact-float".

(** [v || d] for an optional number argument ([None] is [undefined]). *)
Definition or_default (v : option float) (d : float) : float :=
  match v with Some f => if truthy f then f else d | None => d end.

(** [o || new Vector()] for an optional vector argument. *)
Definition or_new_vector (o : option (Vector float)) : Vector float :=
  match o with Some v => v | None => Vector.new 0%float 0%float 0%float end.

Module Sphere.

Record t (S : Type) := mk {
  point : Vector S; radius : S; color : Vector S;
  specular : S; lambert : S; ambient : S }.
Arguments mk {S} _ _ _ _ _ _.
Arguments point {S} _.
Arguments radius {S} _.
Arguments color {S} _.
Arguments specular {S} _.
Arguments lambert {S} _.
Arguments ambient {S} _.

Inductive error := RadiusNotANumber | RadiusNotPositive.

(** [isNaN(radius)]: [undefined] converts to [NaN]. *)
Definition isNaN_arg (v : option float) : bool :=
  match v with Some f => PrimFloat.is_nan f | None => true end.

(** [radius <= 0]: [undefined] converts to [NaN], never [<= 0]. *)
Definition le0_arg (v : option float) : bool :=
  match v with Some f => (f <=? 0)%float | None => false end.

(** [constructor(point, radius, color, specular, lambert, ambient)] *)
Definition new (point : option (Vector float)) (radius : option float)
    (color : option (Vector float)) (specular lambert ambient : option float)
    : Result (t float) error :=
  let s := mk (or_new_vector point) (or_default radius 1)
              (or_new_vector color) (or_default specular 0.2)
              (or_default lambert 0.7) (or_default ambient 0.1) in
  if isNaN_arg radius then Error RadiusNotANumber
  else if le0_arg radius then Error RadiusNotPositive
  else Ok s.

(** The same constructor on any primitive JavaScript values:
    [this.radius = Number(radius || 1)] and the coefficients alike,
    [isNaN(radius)] and [radius <= 0] through ToNumber.  [new] above is
    this constructor at numbers and [undefined]. *)
Definition constructor (stringToNumber : string -> float) (point : option (Vector float))
    (radius : value) (color : option (Vector float)) (specular lambert ambient : value)
    : Result (t float) error :=
  let number := toNumber stringToNumber in
  let s := mk (or_new_vector point) (number (or_value radius (Num 1)))
              (or_new_vector color) (number (or_value specular (Num 0.2)))
              (number (or_value lambert (Num 0.7))) (number (or_value ambient (Num 0.1))) in
  if PrimFloat.is_nan (number radius) then Error RadiusNotANumber
  else if (number radius <=? 0)%float then Error RadiusNotPositive
  else Ok s.

Section Methods.
Context {S : Type} `{JsNum S}.
Local Open Scope js_scope.

Definition intersection (s : t S) (ray : Ray.t S) : option S :=
  let eyeToCenter := Vector.subtract (point s) (Ray.point ray) in
  let v := Vector.dotProduct eyeToCenter (Ray.vector ray) in
  let eyeToObjectCenter := Vector.dotProduct eyeToCenter eyeToCenter in
  let discriminant := radius s * radius s - eyeToObjectCenter + v * v in
  if discriminant <? 0 then None else Some (v - js_sqrt discriminant).

Definition normal (s : t S) (position : Vector S) : Vector S :=
  Vector.normalize (Vector.subtract position (point s)).

End Methods.
End Sphere.

#[export] Instance Sphere_Shape {S} `{JsNum S} : Shape S (Sphere.t S) := {|
  intersection := Sphere.intersection;
  normal := Sphere.normal;
  color := Sphere.color;
  specular := Sphere.specular;
  lambert := Sphere.lambert;
  ambient := Sphere.ambient |}.

(** ** Constructor *)

Lemma or_default_truthy (v : option float) (d : float) :
  truthy d = true -> truthy (or_default v d) = true.
Proof. destruct v as [f|]; cbn; [destruct (truthy f) eqn:E|]; auto. Qed.

(** The constructor succeeds exactly when [radius] is a number greater
    than 0; the sphere then has that radius. *)
Lemma new_ok_radius p r c sp l a s :
  Sphere.new p r c sp l a = Ok s ->
  exists r', r = Some r' /\ (0 <? r')%float = true /\ Sphere.radius s = r'.
Proof.
  unfold Sphere.new. destruct r as [r|]; cbn; [|discriminate].
  destruct (PrimFloat.is_nan r) eqn:Hn; [discriminate|].
  destruct (r <=? 0)%float eqn:Hle; [discriminate|]. intros Hs; injection Hs as <-.
  exists r. destruct (truthy_of_not_le0 r Hn Hle) as [Hlt Ht].
  repeat split; auto. cbn. now rewrite Ht.
Qed.

(** C22: A sphere built by the constructor has a radius greater than 0
    and truthy [specular], [lambert] and [ambient] coefficients: an
    explicit coefficient of 0 is replaced by the default (0.2, 0.7, 0.1),
    so no constructed sphere lacks a specular, diffuse or ambient term. *)
Theorem new_wf p r c sp l a s :
  Sphere.new p r c sp l a = Ok s ->
  (0 <? Sphere.radius s)%float = true /\ truthy (Sphere.specular s) = true /\
  truthy (Sphere.lambert s) = true /\ truthy (Sphere.ambient s) = true.
Proof.
  intros Hs. destruct (new_ok_radius _ _ _ _ _ _ _ Hs) as (r' & -> & Hlt & Hr).
  rewrite Hr. split; [exact Hlt|].
  unfold Sphere.new in Hs. destruct (Sphere.isNaN_arg (Some r')), (Sphere.le0_arg (Some r'));
    try discriminate. injection Hs as <-. cbn.
  repeat split; apply or_default_truthy; reflexivity.
Qed.

Example new_wf_witness :
  exists s, Sphere.new None (Some 2%float) None (Some 0%float) None None = Ok s /\
  (0 <? Sphere.radius s)%float = true /\ truthy (Sphere.specular s) = true /\
  truthy (Sphere.lambert s) = true /\ truthy (Sphere.ambient s) = true.
Proof.
  eexists. split; [reflexivity|]. apply (new_wf None (Some 2%float) None (Some 0%float) None None).
  reflexivity.
Defined.

(** C23: The constructor returns a sphere exactly when the radius
    argument is a number greater than 0; [undefined] or [NaN] throw
    "Radius must be a number", a radius [<= 0] throws "Radius must be
    greater than 0".  An infinite radius is accepted. *)
Theorem new_result p r c sp l a :
  match Sphere.new p r c sp l a with
  | Ok s => exists r', r = Some r' /\ (0 <? r')%float = true /\ Sphere.radius s = r'
  | Error Sphere.RadiusNotANumber => Sphere.isNaN_arg r = true
  | Error Sphere.RadiusNotPositive => Sphere.isNaN_arg r = false /\ Sphere.le0_arg r = true
  end.
Proof.
  destruct (Sphere.new p r c sp l a) as [s|[]] eqn:E.
  - exact (new_ok_radius _ _ _ _ _ _ _ E).
  - unfold Sphere.new in E. destruct (Sphere.isNaN_arg r); [reflexivity|].
    destruct (Sphere.le0_arg r); discriminate.
  - unfold Sphere.new in E. destruct (Sphere.isNaN_arg r); [discriminate|].
    destruct (Sphere.le0_arg r); [auto|discriminate].
Qed.

(** [x || d] then [Number] of an optional number is [or_default]. *)
Lemma toNumber_or_option (stringToNumber : string -> float) (o : option float) (d : float) :
  toNumber stringToNumber (or_value (of_option o) (Num d)) = or_default o d.
Proof. destruct o as [f|]; cbn; [unfold or_value; cbn; destruct (truthy f)|]; reflexivity. Qed.

(** The constructor at numbers is the constructor at JavaScript
    values: passing numbers, or leaving arguments [undefined], gives the
    same sphere or the same error, whatever the host's string
    conversion. *)
Theorem new_is_constructor (stringToNumber : string -> float) p r c sp l a :
  Sphere.new p r c sp l a =
  Sphere.constructor stringToNumber p (of_option r) c (of_option sp) (of_option l) (of_option a).
Proof.
  unfold Sphere.new, Sphere.constructor. rewrite !toNumber_or_option.
  destruct r as [r|]; reflexivity.
Qed.

(** C24: On any primitive JavaScript values the constructor throws
    "Radius must be a number" exactly when [Number(radius)] is NaN,
    throws "Radius must be greater than 0" exactly when it is [<= 0],
    and otherwise returns a sphere whose radius is [Number(radius)] > 0,
    given only that [Number("")] is 0.  So [true] is accepted as radius
    1, ["2"] as radius 2, and [null], [false] and [""] are rejected as
    not positive rather than as not numbers. *)
Theorem constructor_result (stringToNumber : string -> float) p r c sp l a :
  stringToNumber ""%string = 0%float ->
  match Sphere.constructor stringToNumber p r c sp l a with
  | Ok s => Sphere.radius s = toNumber stringToNumber r /\
            (0 <? toNumber stringToNumber r)%float = true
  | Error Sphere.RadiusNotANumber => PrimFloat.is_nan (toNumber stringToNumber r) = true
  | Error Sphere.RadiusNotPositive =>
      PrimFloat.is_nan (toNumber stringToNumber r) = false /\
      (toNumber stringToNumber r <=? 0)%float = true
  end.
Proof.
  intros Hempty. unfold Sphere.constructor.
  destruct (PrimFloat.is_nan (toNumber stringToNumber r)) eqn:Hn; [reflexivity|].
  destruct (toNumber stringToNumber r <=? 0)%float eqn:Hle; [auto|].
  cbn. unfold or_value. rewrite (truthy_value_of_positive stringToNumber r Hempty Hn Hle).
  split; [reflexivity|]. now apply truthy_of_not_le0.
Qed.

(** ** Intersection at floats *)

Section FloatIntersection.
Local Open Scope float_scope.

Definition unit_sphere : Sphere.t float :=
  Sphere.mk (Vector.new 0 0 0) 1 Vector.WHITE 0.2 0.7 0.1.

(** The spec's intersection tests at IEEE doubles: the ray from
    [(0,0,10)] along [(0,0,-1)] meets the unit sphere at the origin at
    distance exactly 9, and the ray along [(1,0,0)] misses it. *)
Theorem intersection_examples :
  Sphere.intersection unit_sphere (Ray.mk (Vector.new 0 0 10) (Vector.new 0 0 (-1))) = Some 9 /\
  Sphere.intersection unit_sphere (Ray.mk (Vector.new 0 0 10) (Vector.new 1 0 0)) = None.
Proof. split; vm_compute; reflexivity. Qed.

End FloatIntersection.

(** ** Intersection in exact arithmetic *)

Section RealIntersection.
Local Open Scope R_scope.

Definition on_sphere (s : Sphere.t R) (p : Vector R) : Prop :=
  Vector.dotProduct (Vector.subtract p (Sphere.point s)) (Vector.subtract p (Sphere.point s))
  = Sphere.radius s * Sphere.radius s.

(** The squared distance from the centre of the point at distance [t],
    as a polynomial in [t]. *)
Lemma pointAtTime_dist (s : Sphere.t R) (ray : Ray.t R) (t : R) :
  let e := Vector.subtract (Sphere.point s) (Ray.point ray) in
  let d := Ray.vector ray in
  Vector.dotProduct (Vector.subtract (pointAtTime ray t) (Sphere.point s))
                    (Vector.subtract (pointAtTime ray t) (Sphere.point s))
  = t * t * Vector.dotProduct d d - 2 * t * Vector.dotProduct e d + Vector.dotProduct e e.
Proof. unfold pointAtTime. cbv zeta. vec_R. ring. Qed.

(** [intersection] in terms of [v = e.d] and the discriminant. *)
Lemma intersection_R (s : Sphere.t R) (ray : Ray.t R) :
  let e := Vector.subtract (Sphere.point s) (Ray.point ray) in
  let v := Vector.dotProduct e (Ray.vector ray) in
  let disc := Sphere.radius s * Sphere.radius s - Vector.dotProduct e e + v * v in
  Sphere.intersection s ray = if Rltb disc 0 then None else Some (v - sqrt disc).
Proof. reflexivity. Qed.

Lemma on_sphere_iff (s : Sphere.t R) (ray : Ray.t R) (t : R) :
  let e := Vector.subtract (Sphere.point s) (Ray.point ray) in
  let v := Vector.dotProduct e (Ray.vector ray) in
  let disc := Sphere.radius s * Sphere.radius s - Vector.dotProduct e e + v * v in
  Vector.dotProduct (Ray.vector ray) (Ray.vector ray) = 1 ->
  (on_sphere s (pointAtTime ray t) <-> (t - v) * (t - v) = disc).
Proof.
  cbv zeta. intros Hd. unfold on_sphere. rewrite pointAtTime_dist. cbv zeta.
  rewrite Hd. split; intros; lra.
Qed.

(** C21: In exact arithmetic, for a unit direction, the distance
    [intersection] returns is a point of the sphere, and it is the
    nearer of the two: no point of the ray's line on the sphere lies at a
    smaller distance. *)
Theorem intersection_sound_R (s : Sphere.t R) (ray : Ray.t R) (t : R) :
  Vector.dotProduct (Ray.vector ray) (Ray.vector ray) = 1 ->
  Sphere.intersection s ray = Some t ->
  on_sphere s (pointAtTime ray t) /\
  (forall t', on_sphere s (pointAtTime ray t') -> t <= t').
Proof.
  intros Hd. rewrite intersection_R. cbv zeta.
  set (e := Vector.subtract (Sphere.point s) (Ray.point ray)).
  set (v := Vector.dotProduct e (Ray.vector ray)).
  set (disc := Sphere.radius s * Sphere.radius s - Vector.dotProduct e e + v * v).
  destruct (Rltb disc 0) eqn:Hlt; [discriminate|]. intros Ht; injection Ht as <-.
  apply Rltb_false in Hlt. pose proof (sqrt_sqrt disc Hlt) as Hs.
  pose proof (sqrt_pos disc) as Hp.
  split.
  - apply on_sphere_iff; [exact Hd|]. fold e v disc. clearbody e v disc. nra.
  - intros t' Ht'. apply on_sphere_iff in Ht'; [|exact Hd]. fold e v disc in Ht'.
    clearbody e v disc.
    assert (Hz : (t' - v + sqrt disc) * (t' - v - sqrt disc) = 0) by nra.
    apply Rmult_integral in Hz as [Hz|Hz]; lra.
Qed.

(** In exact arithmetic, for a unit direction, [intersection]
    returns [undefined] only when no point of the ray's line lies on the
    sphere. *)
Theorem intersection_none_R (s : Sphere.t R) (ray : Ray.t R) :
  Vector.dotProduct (Ray.vector ray) (Ray.vector ray) = 1 ->
  Sphere.intersection s ray = None ->
  forall t, ~ on_sphere s (pointAtTime ray t).
Proof.
  intros Hd. rewrite intersection_R. cbv zeta.
  set (e := Vector.subtract (Sphere.point s) (Ray.point ray)).
  set (v := Vector.dotProduct e (Ray.vector ray)).
  set (disc := Sphere.radius s * Sphere.radius s - Vector.dotProduct e e + v * v).
  destruct (Rltb disc 0) eqn:Hlt; [|discriminate]. intros _ t Ht.
  apply Rltb_true in Hlt. apply on_sphere_iff in Ht; [|exact Hd]. fold e v disc in Ht.
  pose proof (Rle_0_sqr (t - v)). unfold Rsqr in *. lra.
Qed.

Lemma normal_R (s : Sphere.t R) (P : Vector R) :
  0 < Sphere.radius s -> on_sphere s P ->
  Sphere.normal s P = Vector.scale (Vector.subtract P (Sphere.point s)) (1 / Sphere.radius s).
Proof.
  intros Hr Hon. unfold Sphere.normal, Vector.normalize, Vector.length. unfold on_sphere in Hon.
  cbn [js_sqrt js_div js_one R_JsNum]. rewrite Hon, sqrt_square by lra. reflexivity.
Qed.

Lemma toward_center_dot (s : Sphere.t R) (P q : Vector R) :
  0 < Sphere.radius s ->
  Vector.dotProduct (Vector.subtract (Sphere.point s) P) q =
  - Sphere.radius s *
    Vector.dotProduct q (Vector.scale (Vector.subtract P (Sphere.point s)) (1 / Sphere.radius s)).
Proof. intros Hr. vec_R. field. lra. Qed.

(** C20: In exact arithmetic, the reflected ray the tracer casts from a
    point of a sphere hit from outside (the incoming direction does not
    point along the outward normal) meets the same sphere again at
    distance 0: [reflectThrough] keeps the normal component, so the
    reflected direction points into the sphere. *)
Theorem reflected_ray_rehits_R (s : Sphere.t R) (P d : Vector R) :
  0 < Sphere.radius s -> on_sphere s P ->
  Vector.dotProduct d (Sphere.normal s P) <= 0 ->
  Sphere.intersection s (Ray.mk P (Vector.reflectThrough d (Sphere.normal s P))) = Some 0.
Proof.
  intros Hr Hon Hfront.
  assert (Hn : Vector.dotProduct (Sphere.normal s P) (Sphere.normal s P) = 1).
  { rewrite normal_R by auto. unfold on_sphere in Hon. rewrite scale_R, dot_R.
    rewrite dot_R in Hon. cbn [x y z].
    transitivity ((1 / Sphere.radius s) * (1 / Sphere.radius s) *
                  (Sphere.radius s * Sphere.radius s)); [rewrite <- Hon; ring|field; lra]. }
  assert (He : Vector.dotProduct (Vector.subtract (Sphere.point s) P)
                 (Vector.subtract (Sphere.point s) P) = Sphere.radius s * Sphere.radius s).
  { unfold on_sphere in Hon. rewrite <- Hon. vec_R. ring. }
  rewrite intersection_R. cbv zeta. cbn [Ray.point Ray.vector]. rewrite He.
  rewrite (toward_center_dot s P (Vector.reflectThrough d (Sphere.normal s P))) by exact Hr.
  rewrite <- normal_R by auto. rewrite reflect_dot_normal by exact Hn.
  set (v := - Sphere.radius s * Vector.dotProduct d (Sphere.normal s P)).
  assert (Hv : 0 <= v) by (unfold v; nra). clearbody v.
  replace (Sphere.radius s * Sphere.radius s - Sphere.radius s * Sphere.radius s + v * v)
    with (v * v) by ring.
  destruct (Rltb (v * v) 0) eqn:Hlt.
  - apply Rltb_true in Hlt. nra.
  - rewrite sqrt_square by exact Hv. f_equal. ring.
Qed.

Definition unit_sphere_R : Sphere.t R :=
  Sphere.mk (Vector.new 0 0 0) 1 (Vector.new 255 255 255) (1/5) (7/10) (1/10).

(** Evaluate [intersection] on [unit_sphere_R] whose discriminant is
    the given real [v]. *)
Ltac solve_disc v :=
  rewrite intersection_R; cbv zeta; cbn [Sphere.point Sphere.radius unit_sphere_R Ray.point Ray.vector];
  vec_R;
  match goal with |- context [Rltb ?a 0] => replace a with v by ring end;
  first [ replace (Rltb v 0) with false by (symmetry; apply Rltb_false; lra);
          rewrite sqrt_1; f_equal; ring
        | replace (Rltb v 0) with true by (symmetry; apply Rltb_true; lra);
          reflexivity ].

Lemma intersection_sound_R_witness :
  let ray := Ray.mk (Vector.new 0 0 10) (Vector.new 0 0 (-1)) in
  Vector.dotProduct (Ray.vector ray) (Ray.vector ray) = 1 /\
  Sphere.intersection unit_sphere_R ray = Some 9 /\
  on_sphere unit_sphere_R (pointAtTime ray 9) /\
  (forall t', on_sphere unit_sphere_R (pointAtTime ray t') -> 9 <= t').
Proof.
  intros ray. assert (Hd : Vector.dotProduct (Ray.vector ray) (Ray.vector ray) = 1)
    by (cbn [ray Ray.vector]; vec_R; ring).
  assert (Hi : Sphere.intersection unit_sphere_R ray = Some 9) by (unfold ray; solve_disc 1).
  split; [exact Hd|]. split; [exact Hi|]. exact (intersection_sound_R unit_sphere_R ray 9 Hd Hi).
Defined.

Lemma intersection_none_R_witness :
  let ray := Ray.mk (Vector.new 0 0 10) (Vector.new 1 0 0) in
  Vector.dotProduct (Ray.vector ray) (Ray.vector ray) = 1 /\
  Sphere.intersection unit_sphere_R ray = None /\
  forall t, ~ on_sphere unit_sphere_R (pointAtTime ray t).
Proof.
  intros ray. assert (Hd : Vector.dotProduct (Ray.vector ray) (Ray.vector ray) = 1)
    by (cbn [ray Ray.vector]; vec_R; ring).
  assert (Hi : Sphere.intersection unit_sphere_R ray = None) by (unfold ray; solve_disc (-99)).
  split; [exact Hd|]. split; [exact Hi|]. exact (intersection_none_R unit_sphere_R ray Hd Hi).
Defined.

Lemma reflected_ray_rehits_R_witness :
  let P := Vector.new 0 0 1 in
  let d := Vector.new 0 0 (-1) in
  0 < Sphere.radius unit_sphere_R /\ on_sphere unit_sphere_R P /\
  Vector.dotProduct d (Sphere.normal unit_sphere_R P) <= 0 /\
  Sphere.intersection unit_sphere_R
    (Ray.mk P (Vector.reflectThrough d (Sphere.normal unit_sphere_R P))) = Some 0.
Proof.
  intros P d.
  assert (Hr : 0 < Sphere.radius unit_sphere_R) by (cbn; lra).
  assert (Hon : on_sphere unit_sphere_R P) by (unfold on_sphere, P; cbn [Sphere.point Sphere.radius unit_sphere_R]; vec_R; ring).
  assert (Hf : Vector.dotProduct d (Sphere.normal unit_sphere_R P) <= 0).
  { rewrite normal_R by assumption. unfold d, P. cbn [Sphere.point Sphere.radius unit_sphere_R].
    vec_R. lra. }
  split; [exact Hr|]. split; [exact Hon|]. split; [exact Hf|].
  exact (reflected_ray_rehits_R unit_sphere_R P d Hr Hon Hf).
Defined.

End RealIntersection.
