(* ===== verification/Scene.v ===== *)
(** * Scene: the data [render] and [trace] read

    The scene object of [src/src/main.js] (built in the [onReady]
    callback) holds the canvas, its size, the 2-D context and image data,
    a camera, a list of light positions and a list of objects.  The
    tracer reads [camera], [lights] and [objects]; [render] also reads
    [width] and [height].  The DOM handles ([canvas], [context]) are not
    modelled; the image data is the pixel buffer of [Render]. *)

From Stdlib Require Import List Floats.
From S2P Require Import Prelude JsNumber Vector3 Shape.

Module Camera.
(** [camera: { point, fieldOfView, vector }]: eye position, field of
    view in degrees, and the point looked at. *)
Record t := mk { point : Vector float; fieldOfView : float; vector : Vector float }.
End Camera.

Module Scene.
(** The scene, over any type [T] of objects (a [Shape]). *)
Record t (T : Type) := mk {
  width : nat; height : nat; camera : Camera.t;
  lights : list (Vector float); objects : list T }.
Arguments mk {T} _ _ _ _ _.
Arguments width {T} _.
Arguments height {T} _.
Arguments camera {T} _.
Arguments lights {T} _.
Arguments objects {T} _.
End Scene.
