(* ===== verification/CameraBasis.v ===== *)
(** * CameraBasis: the camera frame of [render] in [src/src/main.js]

    The first three lines of [render] build the camera's orthonormal
    frame: [eyeVector] towards the point looked at, [right] across it and
    the world's [UP], and [up] across [right] and [eyeVector].  The
    definition is generic in the number type, so [Render] uses it at
    doubles and the theorem here proves, over the reals, that the frame
    is orthonormal, that [right] is horizontal and that [up] points to
    the world's [UP] side, whenever the view direction is not vertical. *)

From Stdlib Require Import Reals Lra.
From S2P Require Import Prelude JsNumber Vector3.

(** [eyeVector], [right] and [up] of [render]. *)
Definition cameraBasis {S} `{JsNum S} (point vector : Vector S)
    : Vector S * Vector S * Vector S :=
  let eyeVector := Vector.normalize (Vector.subtract vector point) in
  let right := Vector.normalize (Vector.crossProduct eyeVector Vector.UP) in
  let up := Vector.normalize (Vector.crossProduct right eyeVector) in
  (eyeVector, right, up).

Section CameraBasisR.
Local Open Scope R_scope.

Lemma cross_normalize_dot_self (a b : Vector R) :
  Vector.dotProduct (Vector.crossProduct (Vector.normalize a) b)
    (Vector.crossProduct (Vector.normalize a) b) =
  1 / sqrt (Vector.dotProduct a a) * (1 / sqrt (Vector.dotProduct a a)) *
  Vector.dotProduct (Vector.crossProduct a b) (Vector.crossProduct a b).
Proof.
  rewrite cross_normalize_l, dot_scale_l.
  rewrite (dot_comm_R (Vector.crossProduct a b)), dot_scale_l. ring.
Qed.

(** The frame of two unit, orthogonal vectors [r] and [e]:
    [normalize (r × e)] is a unit vector orthogonal to both. *)
Lemma unit_cross_frame (r e : Vector R) :
  Vector.dotProduct r r = 1 -> Vector.dotProduct e e = 1 -> Vector.dotProduct r e = 0 ->
  let u := Vector.normalize (Vector.crossProduct r e) in
  Vector.dotProduct u u = 1 /\ Vector.dotProduct e u = 0 /\ Vector.dotProduct r u = 0 /\
  Vector.dotProduct (Vector.crossProduct r e) (Vector.crossProduct r e) = 1.
Proof.
  intros Hr He Hre u.
  assert (Hc : Vector.dotProduct (Vector.crossProduct r e) (Vector.crossProduct r e) = 1)
    by (rewrite cross_dot_self, Hr, He, Hre; ring).
  subst u. rewrite normalize_dot_self by lra.
  rewrite !dot_normalize_r. autorewrite with raytrace. repeat split; ring || exact Hc.
Qed.

Lemma pos_of_nonzero_dot (v : Vector R) : Vector.dotProduct v v <> 0 -> 0 < Vector.dotProduct v v.
Proof. pose proof (dot_self_nonneg v). lra. Qed.

(** Over the reals, when the view direction [vector - point] is not
    vertical (its cross product with [UP] is non-zero), [render]'s
    [eyeVector], [right] and [up] are unit vectors, pairwise orthogonal,
    [right] is horizontal and [up] points to the side of the world's
    [UP]. *)
Theorem cameraBasis_orthonormal_R (point vector : Vector R) :
  let d := Vector.subtract vector point in
  Vector.dotProduct (Vector.crossProduct d Vector.UP) (Vector.crossProduct d Vector.UP) <> 0 ->
  let '(e, r, u) := cameraBasis point vector in
  Vector.dotProduct e e = 1 /\ Vector.dotProduct r r = 1 /\ Vector.dotProduct u u = 1 /\
  Vector.dotProduct e r = 0 /\ Vector.dotProduct e u = 0 /\ Vector.dotProduct r u = 0 /\
  Vector.dotProduct r Vector.UP = 0 /\ 0 < Vector.dotProduct u Vector.UP.
Proof.
  intros d Hc. unfold cameraBasis. cbv beta zeta iota. fold d. clearbody d.
  pose proof (cross_nonzero_l d Vector.UP Hc) as Hd.
  pose proof (inv_sqrt_pos _ Hd) as Hk. pose proof (pos_of_nonzero_dot _ Hc) as Hcc.
  set (e := Vector.normalize d).
  assert (He : Vector.dotProduct e e = 1) by (apply normalize_dot_self; lra).
  assert (Hc1 : 0 < Vector.dotProduct (Vector.crossProduct e Vector.UP) (Vector.crossProduct e Vector.UP))
    by (subst e; rewrite cross_normalize_dot_self; apply Rmult_lt_0_compat; nra).
  pose proof (inv_sqrt_pos _ Hc1) as Hk1.
  set (c1 := Vector.crossProduct e Vector.UP) in *.
  set (r := Vector.normalize c1).
  assert (Hr : Vector.dotProduct r r = 1) by (apply normalize_dot_self; lra).
  assert (Her : Vector.dotProduct e r = 0)
    by (subst r c1; rewrite dot_normalize_r; autorewrite with raytrace; ring).
  assert (HrU : Vector.dotProduct r Vector.UP = 0)
    by (subst r c1; rewrite dot_normalize_l; autorewrite with raytrace; ring).
  destruct (unit_cross_frame r e Hr He ltac:(rewrite dot_comm_R; exact Her))
    as (Hu & Heu & Hru & H1).
  repeat split; try assumption.
  rewrite dot_normalize_l, H1, sqrt_1. subst r. rewrite cross_normalize_l, dot_scale_l.
  subst c1. autorewrite with raytrace. nra.
Qed.

(** The camera of the demo scene of [main.js], at [(0, 1.8, 10)] looking
    at [(0, 3, 0)]. *)
Lemma cameraBasis_orthonormal_R_witness :
  (let d := Vector.subtract (Vector.new 0 3 0) (Vector.new 0 (18/10) 10) in
   Vector.dotProduct (Vector.crossProduct d Vector.UP) (Vector.crossProduct d Vector.UP) <> 0) /\
  (let '(e, r, u) := cameraBasis (Vector.new 0 (18/10) 10) (Vector.new 0 3 0) in
   Vector.dotProduct e e = 1 /\ Vector.dotProduct r r = 1 /\ Vector.dotProduct u u = 1 /\
   Vector.dotProduct e r = 0 /\ Vector.dotProduct e u = 0 /\ Vector.dotProduct r u = 0 /\
   Vector.dotProduct r Vector.UP = 0 /\ 0 < Vector.dotProduct u Vector.UP).
Proof.
  assert (Hv : let d := Vector.subtract (S := R) (Vector.new 0 3 0) (Vector.new 0 (18/10) 10) in
     Vector.dotProduct (Vector.crossProduct d Vector.UP) (Vector.crossProduct d Vector.UP) <> 0)
    by (cbv zeta; vec_R; lra).
  split; [exact Hv|]. exact (cameraBasis_orthonormal_R _ _ Hv).
Defined.

End CameraBasisR.
