(* ===== verification/Intersector.v ===== *)
(** * Intersector: [intersectScene] and [isLightVisible] of [src/src/main.js]

    [intersectScene] scans [scene.objects] in order with the pair
    [closest = [distance, object]], starting from [[Infinity, null]], and
    replaces it when an object's distance is defined and strictly
    smaller; it is a [fold_left] of [closest_step].  [isLightVisible]
    casts a ray from the point along [normalize(point - light)] and
    compares the nearest distance with [-0.005].  Both are written for
    any object type with a [Shape] instance.

    Theorems: the result is the first nearest hit (no object is strictly
    nearer, no earlier object is as near), and [[Infinity, null]] exactly
    when nothing is hit at a distance below [Infinity]; the shadow test
    holds exactly when no object meets the shadow ray at a distance at
    most [-0.005]. *)

From Stdlib Require Import List Lia Bool Floats.
From S2P Require Import Prelude JsNumber Vector3 Shape Scene.

Local Set Warnings "-inexact-float".

Section Intersector.
Context {T : Type} `{Shape float T}.

(** One iteration of the loop of [intersectScene]. *)
Definition closest_step (ray : Ray.t float) (closest : float * option T) (object : T)
    : float * option T :=
  match intersection object ray with
  | Some distance => if (distance <? fst closest)%float then (distance, Some object) else closest
  | None => closest
  end.

Definition intersectScene (ray : Ray.t float) (scene : Scene.t T) : float * option T :=
  fold_left (closest_step ray) (Scene.objects scene) (PrimFloat.infinity, None).

Definition isLightVisible (point : Vector float) (scene : Scene.t T) (light : Vector float)
    : bool :=
  let distanceAndObject :=
    intersectScene (Ray.mk point (Vector.normalize (Vector.subtract point light))) scene in
  (-0.005 <? fst distanceAndObject)%float.


Section Spec.
Variable ray : Ray.t float.

(** The first object of [l], at index [i], whose distance [d] no object
    of [l] beats and no earlier object equals. *)
Definition first_nearest (l : list T) (i : nat) (o : T) (d : float) : Prop :=
  nth_error l i = Some o /\ intersection o ray = Some d /\
  (forall j o' d', j < i -> nth_error l j = Some o' -> intersection o' ray = Some d' -> (d' <=? d)%float = false) /\
  (forall o' d', In o' l -> intersection o' ray = Some d' -> (d' <? d)%float = false).

(** What one run of the loop does from any [closest]: either it keeps
    [closest], no object being strictly nearer, or it ends on the first
    nearest object, strictly nearer than [closest]. *)
Lemma fold_closest (l : list T) (acc : float * option T) :
  (fold_left (closest_step ray) l acc = acc /\
   forall o d, In o l -> intersection o ray = Some d -> (d <? fst acc)%float = false) \/
  (exists i o d, first_nearest l i o d /\ (d <? fst acc)%float = true /\
     fold_left (closest_step ray) l acc = (d, Some o)).
Proof.
  revert acc. induction l as [|x l IH]; intros acc; cbn [fold_left].
  { left. split; [reflexivity|]. intros o d []. }
  assert (Hstep : closest_step ray acc x =
    match intersection x ray with
    | Some d => if (d <? fst acc)%float then (d, Some x) else acc
    | None => acc
    end) by reflexivity.
  rewrite Hstep.
  destruct (intersection x ray) as [dx|] eqn:Hx; [destruct (dx <? fst acc)%float eqn:Hlt|].
  - right. destruct (IH (dx, Some x)) as [[Hres Hall] | (i & o & d & (Hi & Ho & Hb & Hm) & Hd & Hres)];
      cbn [fst] in *.
    + exists 0, x, dx. repeat split; auto.
      * intros j o' d' Hj. lia.
      * intros o' d' [<-|Hin] Ho'; [rewrite Hx in Ho'; injection Ho' as <-;
          apply fltb_irrefl | eauto].
    + exists (S i), o, d. repeat split; eauto using fltb_trans.
      * intros [|j] o' d' Hj Hn Ho'; cbn in Hn.
        -- injection Hn as <-. rewrite Hx in Ho'. injection Ho' as <-. now apply fltb_not_leb.
        -- eapply Hb; eauto. lia.
      * intros o' d' [<-|Hin] Ho'; [|eauto]. rewrite Hx in Ho'. injection Ho' as <-.
        now apply fltb_asym.
  - destruct (IH acc) as [[Hres Hall] | (i & o & d & (Hi & Ho & Hb & Hm) & Hd & Hres)].
    + left. split; [exact Hres|]. intros o d [<-|Hin] Ho; [congruence|eauto].
    + right. exists (S i), o, d. repeat split; auto.
      * intros [|j] o' d' Hj Hn Ho'; cbn in Hn; [|eapply Hb; eauto; lia].
        injection Hn as <-. rewrite Hx in Ho'. injection Ho' as <-.
        destruct (dx <=? d)%float eqn:E; [|reflexivity].
        rewrite (fleb_ltb_trans _ _ _ E Hd) in Hlt. discriminate.
      * intros o' d' [<-|Hin] Ho'; [|eauto]. rewrite Hx in Ho'. injection Ho' as <-.
        destruct (dx <? d)%float eqn:E; [|reflexivity].
        rewrite (fltb_trans _ _ _ E Hd) in Hlt. discriminate.
  - destruct (IH acc) as [[Hres Hall] | (i & o & d & (Hi & Ho & Hb & Hm) & Hd & Hres)].
    + left. split; [exact Hres|]. intros o d [<-|Hin] Ho; [congruence|eauto].
    + right. exists (S i), o, d. repeat split; auto.
      * intros [|j] o' d' Hj Hn Ho'; cbn in Hn; [|eapply Hb; eauto; lia].
        injection Hn as <-. congruence.
      * intros o' d' [<-|Hin] Ho'; [congruence|eauto].
Qed.

End Spec.
End Intersector.

Section Theorems.
Context {T : Type} `{Shape float T}.

(** C1: [intersectScene] returns the first nearest hit: when it returns
    an object, that object is at some index [i] of [scene.objects], it
    meets the ray at the returned distance, which is below [Infinity],
    no object meets the ray strictly nearer, and no object before index
    [i] meets it at a distance [<=] the returned one (ties go to the
    first object in scene order).  When it returns [null], the distance
    is [Infinity] and no object meets the ray at a distance below
    [Infinity]. *)
Theorem intersectScene_first_nearest (ray : Ray.t float) (scene : Scene.t T) :
  match intersectScene ray scene with
  | (d, Some o) => (exists i, first_nearest ray (Scene.objects scene) i o d) /\
                   (d <? PrimFloat.infinity)%float = true
  | (d, None) => d = PrimFloat.infinity /\
                 forall o d', In o (Scene.objects scene) -> intersection o ray = Some d' ->
                              (d' <? PrimFloat.infinity)%float = false
  end.
Proof.
  unfold intersectScene.
  destruct (fold_closest ray (Scene.objects scene) (PrimFloat.infinity, None))
    as [[-> Hall] | (i & o & d & Hf & Hd & ->)]; eauto.
Qed.

(** Facts of the result used by the tracer: a miss is exactly the
    distance [Infinity], and a hit is an object of the scene. *)
Lemma intersectScene_result (ray : Ray.t float) (scene : Scene.t T) :
  let '(d, obj) := intersectScene ray scene in
  match obj with
  | None => d = PrimFloat.infinity
  | Some o => In o (Scene.objects scene) /\ intersection o ray = Some d /\
              (d <? PrimFloat.infinity)%float = true
  end.
Proof.
  unfold intersectScene.
  destruct (fold_closest ray (Scene.objects scene) (PrimFloat.infinity, None))
    as [[-> Hall] | (i & o & d & (Hi & Ho & _) & Hd & ->)]; [reflexivity|].
  repeat split; eauto using nth_error_In.
Qed.

(** C3: [isLightVisible point scene light] holds exactly when no object
    meets the ray from [point] along [normalize(point - light)] at a
    distance [<= -0.005] (a NaN distance never counts).  That ray points
    away from the light, so it is the objects met at a negative distance,
    behind the point, that shadow it. *)
Theorem isLightVisible_spec (point : Vector float) (scene : Scene.t T) (light : Vector float) :
  isLightVisible point scene light = true <->
  forall o d, In o (Scene.objects scene) ->
    intersection o (Ray.mk point (Vector.normalize (Vector.subtract point light))) = Some d ->
    (-0.005 <? d)%float = true \/ PrimFloat.is_nan d = true.
Proof.
  unfold isLightVisible, intersectScene.
  set (ray := Ray.mk point _).
  destruct (fold_closest ray (Scene.objects scene) (PrimFloat.infinity, None))
    as [[-> Hall] | (i & o & d & (Hi & Ho & _ & Hm) & Hd & ->)]; cbn [fst].
  - split; [|reflexivity]. intros _ o d Hin Hod.
    destruct (fltb_false d PrimFloat.infinity eq_refl (Hall o d Hin Hod)) as [Hn|Hle];
      [now right|left]. now apply (fltb_leb_trans _ PrimFloat.infinity).
  - split.
    + intros Hv o' d' Hin Hod.
      destruct (fltb_false d' d (proj1 (fltb_not_nan _ _ Hd)) (Hm o' d' Hin Hod))
        as [Hn|Hle]; [now right|left]. eauto using fltb_leb_trans.
    + intros Hall. destruct (Hall o d (nth_error_In _ _ Hi) Ho) as [Hv|Hn]; [exact Hv|].
      now rewrite (proj1 (fltb_not_nan _ _ Hd)) in Hn.
Qed.

End Theorems.
