(* ===== verification/Tracer.v ===== *)
(** * Tracer: [surface] and [trace] of [src/src/main.js]

    [trace(ray, scene, depth)] returns [undefined] past depth 3, white on
    a miss, and otherwise shades the hit with [surface], which sums the
    Lambert term over the visible lights, adds the colour of the
    reflected ray traced at [depth + 1] scaled by [specular], and adds
    the ambient term.  The two functions are mutually recursive in the
    source; here [surface] takes the recursive call as its argument
    [traceNext], and [trace] is defined by well-founded recursion on the
    remaining depth [4 - depth] (Equations), so it is total.  JavaScript's
    [undefined] is [None].

    Theorems: [trace] returns a colour at every depth up to 3 and
    [undefined] beyond, white on a miss, the colour [surface] computes
    on a hit; [surface] without [specular] does not trace; the Lambert
    sum is over visible lights with positive cosine only. *)

From Stdlib Require Import List Lia Bool Floats Arith.
From Equations Require Import Equations.
From S2P Require Import Prelude JsNumber Vector3 Shape Scene Intersector.

Local Set Warnings "-inexact-float".

Section Tracer.
Context {T : Type} `{Shape float T}.

(** [lightPoint.subtract(pointAtTime).normalize().dotProduct(normal)] *)
Definition contribution (pointAtTime normal lightPoint : Vector float) : float :=
  Vector.dotProduct (Vector.normalize (Vector.subtract lightPoint pointAtTime)) normal.

(** One iteration of the loop over [lights] in [surface]:
    [continue] when the light is hidden, add a positive contribution. *)
Definition lambert_step (scene : Scene.t T) (pointAtTime normal : Vector float)
    (lambertAmount : float) (lightPoint : Vector float) : float :=
  if negb (isLightVisible pointAtTime scene lightPoint) then lambertAmount
  else
    let contribution := contribution pointAtTime normal lightPoint in
    if (0 <? contribution)%float then (lambertAmount + contribution)%float
    else lambertAmount.

(** [lambertAmount] after the [if (object.lambert)] block. *)
Definition lambertAmount (scene : Scene.t T) (object : T) (pointAtTime normal : Vector float)
    : float :=
  if truthy (lambert object)
  then fold_left (lambert_step scene pointAtTime normal) (Scene.lights scene) 0%float
  else 0%float.

Definition surface (traceNext : Ray.t float -> option (Vector float))
    (ray : Ray.t float) (scene : Scene.t T) (object : T)
    (pointAtTime normal : Vector float) : Vector float :=
  let finalColor := Vector.ZERO in
  let lambertAmount := lambertAmount scene object pointAtTime normal in
  let finalColor :=
    if truthy (specular object) then
      let reflectedRay := Ray.mk pointAtTime (Vector.reflectThrough (Ray.vector ray) normal) in
      match traceNext reflectedRay with
      | Some reflectedColor => Vector.add finalColor (Vector.scale reflectedColor (specular object))
      | None => finalColor
      end
    else finalColor in
  Vector.add3 finalColor (Vector.scale (color object) (lambertAmount * lambert object)%float)
    (Vector.scale (color object) (ambient object)).

(** The measure of the recursion: depths still allowed. *)
Definition remaining (depth : nat) : nat := 4 - depth.

(** [trace].  The branch on a [null] object after a finite distance is
    the [TypeError] of [object.normal]; [intersectScene_result] shows it
    is never taken, and it returns [None]. *)
Equations? trace (scene : Scene.t T) (ray : Ray.t float) (depth : nat)
    : option (Vector float) by wf (remaining depth) lt :=
  trace scene ray depth with le_lt_dec depth 3 => {
    | right _ => None;
    | left _ =>
      let distanceAndObject := intersectScene ray scene in
      if (fst distanceAndObject =? PrimFloat.infinity)%float then Some Vector.WHITE
      else
        match snd distanceAndObject with
        | None => None
        | Some object =>
          let distance := fst distanceAndObject in
          let pointAtTime := pointAtTime ray distance in
          Some (surface (fun reflectedRay => trace scene reflectedRay (S depth))
                  ray scene object pointAtTime (normal object pointAtTime))
        end }.
Proof. unfold remaining. lia. Qed.

End Tracer.

Section TraceFacts.
Context {T : Type} `{Shape float T}.

(** The defining equation of [trace], as the source reads. *)
Lemma trace_eq (scene : Scene.t T) (ray : Ray.t float) (depth : nat) :
  trace scene ray depth =
  if le_lt_dec depth 3 then
    let distanceAndObject := intersectScene ray scene in
    if (fst distanceAndObject =? PrimFloat.infinity)%float then Some Vector.WHITE
    else
      match snd distanceAndObject with
      | None => None
      | Some object =>
        Some (surface (fun reflectedRay => trace scene reflectedRay (S depth)) ray scene object
                (pointAtTime ray (fst distanceAndObject))
                (normal object (pointAtTime ray (fst distanceAndObject))))
      end
  else None.
Proof. simp trace. destruct (le_lt_dec depth 3); reflexivity. Qed.

(** At depth at most 3 [trace] returns a colour: the [null] object after
    a finite distance never occurs. *)
Lemma trace_some (scene : Scene.t T) (ray : Ray.t float) (depth : nat) :
  depth <= 3 -> exists color, trace scene ray depth = Some color.
Proof.
  intros Hd. rewrite trace_eq. destruct (le_lt_dec depth 3) as [_|]; [|lia].
  pose proof (intersectScene_result ray scene) as Hr.
  destruct (intersectScene ray scene) as [d [o|]]; cbn [fst snd].
  - destruct Hr as (_ & _ & Hlt). rewrite (fltb_eqb_false _ _ Hlt). eexists; reflexivity.
  - rewrite Hr. eexists; reflexivity.
Qed.

(** A miss at depth at most 3 is white. *)
Lemma trace_miss (scene : Scene.t T) (ray : Ray.t float) (depth : nat) :
  depth <= 3 -> snd (intersectScene ray scene) = None -> trace scene ray depth = Some Vector.WHITE.
Proof.
  intros Hd Hn. pose proof (intersectScene_result ray scene) as Hr. rewrite trace_eq.
  destruct (le_lt_dec depth 3) as [_|]; [|lia].
  destruct (intersectScene ray scene) as [d [o|]]; cbn [fst snd] in *; [discriminate|].
  now rewrite Hr.
Qed.

(** A hit at depth at most 3 is shaded by [surface]. *)
Lemma trace_hit (scene : Scene.t T) (ray : Ray.t float) (depth : nat) (d : float) (o : T) :
  depth <= 3 -> intersectScene ray scene = (d, Some o) ->
  trace scene ray depth =
  Some (surface (fun r => trace scene r (S depth)) ray scene o
          (pointAtTime ray d) (normal o (pointAtTime ray d))).
Proof.
  intros Hd E. pose proof (intersectScene_result ray scene) as Hr. rewrite trace_eq.
  destruct (le_lt_dec depth 3) as [_|]; [|lia].
  rewrite E in *. cbn [fst snd]. destruct Hr as (_ & _ & Hlt).
  now rewrite (fltb_eqb_false _ _ Hlt).
Qed.

(** [surface] calls [traceNext] only on the reflected ray, and only
    when [specular] is truthy. *)
Lemma surface_ext (tn1 tn2 : Ray.t float -> option (Vector float)) (ray : Ray.t float)
    (scene : Scene.t T) (object : T) (p n : Vector float) :
  (truthy (specular object) = true ->
   tn1 (Ray.mk p (Vector.reflectThrough (Ray.vector ray) n)) =
   tn2 (Ray.mk p (Vector.reflectThrough (Ray.vector ray) n))) ->
  surface tn1 ray scene object p n = surface tn2 ray scene object p n.
Proof.
  intros Ht. unfold surface. destruct (truthy (specular object)); [|reflexivity].
  now rewrite Ht.
Qed.

(** C2: [trace] returns [undefined] exactly past depth 3: at every depth
    from 0 to 3 it returns a colour, whatever the scene and the ray. *)
Theorem trace_defined_iff (scene : Scene.t T) (ray : Ray.t float) (depth : nat) :
  trace scene ray depth = None <-> 3 < depth.
Proof.
  destruct (le_lt_dec depth 3) as [Hd|Hd].
  - destruct (trace_some scene ray depth Hd) as [c ->]. split; [discriminate|lia].
  - rewrite trace_eq. destruct (le_lt_dec depth 3); [lia|]. split; auto.
Qed.

(** [surface] traces the reflected ray only for an object with a
    truthy [specular]: otherwise its colour does not depend on the
    recursive call; and for an object whose [lambert] is falsy it does
    not depend on the lights. *)
Theorem surface_independence (tn1 tn2 : Ray.t float -> option (Vector float))
    (ray : Ray.t float) (scene : Scene.t T) (ls : list (Vector float)) (object : T)
    (p n : Vector float) :
  (truthy (specular object) = false ->
   surface tn1 ray scene object p n = surface tn2 ray scene object p n) /\
  (truthy (lambert object) = false ->
   surface tn1 ray scene object p n =
   surface tn1 ray (Scene.mk (Scene.width scene) (Scene.height scene) (Scene.camera scene)
                      ls (Scene.objects scene)) object p n).
Proof.
  split; intros Hf; unfold surface, lambertAmount; rewrite Hf; reflexivity.
Qed.

(** The Lambert sum as a specification: the contributions of the
    visible lights, in order, keeping the positive ones, summed from 0. *)
Definition lambert_spec (scene : Scene.t T) (pointAtTime normal : Vector float) : float :=
  fold_left PrimFloat.add
    (filter (fun c => (0 <? c)%float)
       (map (contribution pointAtTime normal)
          (filter (isLightVisible pointAtTime scene) (Scene.lights scene))))
    0%float.

Lemma fold_lambert_step (scene : Scene.t T) (p n : Vector float) (ls : list (Vector float))
    (acc : float) :
  fold_left (lambert_step scene p n) ls acc =
  fold_left PrimFloat.add
    (filter (fun c => (0 <? c)%float) (map (contribution p n) (filter (isLightVisible p scene) ls)))
    acc.
Proof.
  revert acc. induction ls as [|l ls IH]; intros acc; [reflexivity|].
  cbn [fold_left filter]. unfold lambert_step at 2.
  destruct (isLightVisible p scene l); cbn [negb map filter fold_left]; [|apply IH].
  destruct (0 <? contribution p n l)%float; apply IH.
Qed.

(** C29: The loop over the lights computes the Lambert specification:
    when [lambert] is truthy, [lambertAmount] is the sum, in light
    order, of the positive [contribution]s of the lights
    [isLightVisible] accepts; otherwise it is 0.  No clamping is done. *)
Theorem lambertAmount_spec (scene : Scene.t T) (object : T) (p n : Vector float) :
  lambertAmount scene object p n =
  if truthy (lambert object) then lambert_spec scene p n else 0%float.
Proof.
  unfold lambertAmount, lambert_spec. destruct (truthy (lambert object)); [|reflexivity].
  apply fold_lambert_step.
Qed.

End TraceFacts.
