(* ===== verification/TraceRel.v ===== *)
(** * TraceRel: the depth recursion of [trace] as a relation

    [traces scene ray depth result calls] is a big-step statement of
    [trace] in [src/src/main.js]: one rule per way a call ends (past the
    depth limit, on a miss, on a hit without a mirror, on a mirror hit
    after the nested call at [depth + 1]), and [calls] counts the calls
    to [trace] the derivation contains.  The theorems show that the
    Equations definition [Tracer.trace] refines the relation (its result
    is related, with some count), that the relation is functional (it
    relates only [trace]'s result). *)

From Stdlib Require Import List Lia Floats Arith.
From S2P Require Import Prelude JsNumber Vector3 Shape Scene Intersector Tracer.

Section TraceRel.
Context {T : Type} `{Shape float T}.
Variable scene : Scene.t T.

Inductive traces : Ray.t float -> nat -> option (Vector float) -> nat -> Prop :=
| traces_deep ray depth :
    3 < depth -> traces ray depth None 1
| traces_miss ray depth distance :
    depth <= 3 -> intersectScene ray scene = (distance, None) ->
    traces ray depth (Some Vector.WHITE) 1
| traces_matte ray depth distance object :
    depth <= 3 -> intersectScene ray scene = (distance, Some object) ->
    truthy (specular object) = false ->
    traces ray depth
      (Some (surface (fun _ => None) ray scene object (pointAtTime ray distance)
               (normal object (pointAtTime ray distance)))) 1
| traces_mirror ray depth distance object reflectedColor calls :
    depth <= 3 -> intersectScene ray scene = (distance, Some object) ->
    truthy (specular object) = true ->
    traces (Ray.mk (pointAtTime ray distance)
              (Vector.reflectThrough (Ray.vector ray) (normal object (pointAtTime ray distance))))
      (S depth) reflectedColor calls ->
    traces ray depth
      (Some (surface (fun _ => reflectedColor) ray scene object (pointAtTime ray distance)
               (normal object (pointAtTime ray distance)))) (S calls).

Lemma trace_deep (ray : Ray.t float) (depth : nat) : 3 < depth -> trace scene ray depth = None.
Proof. intros Hd. rewrite trace_eq. destruct (le_lt_dec depth 3); [lia|reflexivity]. Qed.

(** The refinement, by induction on the depths still allowed. *)
Lemma trace_refines_bounded (m : nat) :
  forall ray depth, 4 - depth <= m -> exists calls, traces ray depth (trace scene ray depth) calls.
Proof.
  induction m as [|m IH]; intros ray depth Hm.
  - exists 1. rewrite trace_deep by lia. apply traces_deep. lia.
  - destruct (le_lt_dec depth 3) as [Hd|Hd];
      [|exists 1; rewrite trace_deep by lia; now apply traces_deep].
    destruct (intersectScene ray scene) as [d [o|]] eqn:E.
    + rewrite (trace_hit scene ray depth d o Hd E).
      destruct (truthy (specular o)) eqn:Hs.
      * destruct (IH (Ray.mk (pointAtTime ray d)
                       (Vector.reflectThrough (Ray.vector ray) (normal o (pointAtTime ray d))))
                    (S depth) ltac:(lia)) as [calls Hc].
        exists (S calls). erewrite surface_ext; [eapply traces_mirror; eauto|].
        intros _. reflexivity.
      * exists 1. erewrite surface_ext; [eapply traces_matte; eauto|].
        rewrite Hs. discriminate.
    + exists 1. rewrite trace_miss by (rewrite ?E; auto). eapply traces_miss; eauto.
Qed.

End TraceRel.

Section TraceRelTheorems.
Context {T : Type} `{Shape float T}.

(** C4: [trace] implements the relation: for every scene, ray and
    depth, the result of [trace] is related to them, with some number
    of calls. *)
Theorem trace_refines (scene : Scene.t T) (ray : Ray.t float) (depth : nat) :
  exists calls, traces scene ray depth (trace scene ray depth) calls.
Proof. apply (trace_refines_bounded scene (4 - depth)). lia. Qed.

(** C5: The relation is functional: any result it relates to a ray and
    a depth is the one [trace] returns. *)
Theorem traces_functional (scene : Scene.t T) (ray : Ray.t float) (depth : nat)
    (result : option (Vector float)) (calls : nat) :
  traces scene ray depth result calls -> trace scene ray depth = result.
Proof.
  induction 1 as [ray depth Hd|ray depth d Hd E|ray depth d o Hd E Hs|ray depth d o rc c Hd E Hs _ IH].
  - now apply trace_deep.
  - apply trace_miss; [exact Hd|]. now rewrite E.
  - rewrite (trace_hit scene ray depth d o Hd E). f_equal.
    apply surface_ext. rewrite Hs. discriminate.
  - rewrite (trace_hit scene ray depth d o Hd E). f_equal.
    apply surface_ext. intros _. exact IH.
Qed.

End TraceRelTheorems.
