(* ===== verification/Render.v ===== *)
(** * Render: [render] of [src/src/main.js]

    [render(scene)] builds the camera frame ([eyeVector], [right], [up],
    the half extents from the field of view and the pixel steps), then
    for [x] from 0 to [width - 1] and, inside, [y] from 0 to
    [height - 1], traces the ray through pixel [(x, y)] at depth 0 and
    stores the colour's [x], [y], [z] and 255 at [index = x*4 +
    y*width*4] of [data.data].  [data.data] is the [Uint8ClampedArray]
    of the canvas image: storing a number converts it with the host's
    ToUint8Clamp ([toUint8Clamp]) and a store outside the array is
    ignored, which is what stdpp's list [insert] does.  [Math.tan] is the
    host's, a parameter [tan] of the section.  The [ray] object the source
    mutates between pixels is passed to [trace] only, which never keeps
    it, so a fresh ray per pixel is the same computation.

    Theorems: the pixel index is the row-major offset [4 * (y*width + x)],
    so the blocks of two pixels never overlap and all lie in a buffer of
    [width*height*4] bytes; [render] never fails, and after it every
    pixel's block holds its traced colour, converted, and alpha 255. *)

From stdpp Require Import base list.
From Stdlib Require Import ZArith Lia Floats Arith List.
From S2P Require Import Prelude JsNumber Vector3 Shape Scene CameraBasis Intersector Tracer.

Local Set Warnings "-inexact-float".

(** ** The host's ToUint8Clamp *)

(** Round [m * 2^e] (positive) to the nearest integer, ties to even. *)
Definition round_half_even (m : positive) (e : Z) : Z :=
  if (0 <=? e)%Z then Z.shiftl (Zpos m) e
  else
    let k := (- e)%Z in
    let q := Z.shiftr (Zpos m) k in
    let r := (Zpos m - Z.shiftl q k)%Z in
    let half := Z.shiftl 1 (k - 1) in
    if (r <? half)%Z then q
    else if (half <? r)%Z then (q + 1)%Z
    else if Z.even q then q else (q + 1)%Z.

(** Storing a number into a [Uint8ClampedArray]: NaN and numbers [<= 0]
    give 0, numbers [>= 255] give 255, others are rounded half to even. *)
Definition toUint8Clamp (f : float) : Z :=
  if PrimFloat.is_nan f then 0%Z
  else if (f <=? 0)%float then 0%Z
  else if (255 <=? f)%float then 255%Z
  else match Prim2SF f with
       | S754_finite false m e => round_half_even m e
       | _ => 0%Z
       end.

Lemma digits2_pos_bound (m : positive) : (Zpos m < 2 ^ Zpos (digits2_pos m))%Z.
Proof.
  induction m as [m IH|m IH|]; cbn [digits2_pos]; [..|reflexivity];
    rewrite Pos2Z.inj_succ, Z.pow_succ_r by lia; lia.
Qed.

(** A finite double has a mantissa below [2^53]. *)
Lemma mantissa_bound (s : bool) (m : positive) (e : Z) :
  SpecFloat.valid_binary prec emax (S754_finite s m e) = true -> (Zpos m < 2 ^ 53)%Z.
Proof.
  cbn [SpecFloat.valid_binary]. unfold bounded, canonical_mantissa, fexp.
  intros [Hc _]%andb_prop. apply Z.eqb_eq in Hc.
  assert (Hd : (Zpos (digits2_pos m) <= 53)%Z) by (change prec with 53%Z in Hc; lia).
  pose proof (digits2_pos_bound m).
  pose proof (Z.pow_le_mono_r 2 (Zpos (digits2_pos m)) 53 ltac:(lia) Hd). lia.
Qed.

Lemma round_half_even_range (m : positive) (e q : Z) :
  (e < 0)%Z -> (Zpos m / 2 ^ (- e) <= q)%Z -> (0 <= q)%Z ->
  (0 <= round_half_even m e <= q + 1)%Z.
Proof.
  intros He Hq Hq0. unfold round_half_even.
  destruct (0 <=? e)%Z eqn:E; [apply Z.leb_le in E; lia|].
  rewrite Z.shiftr_div_pow2 by lia.
  assert (0 <= Zpos m / 2 ^ (- e))%Z by (apply Z.div_pos; [lia|apply Z.pow_pos_nonneg; lia]).
  repeat match goal with |- context [if ?c then _ else _] => destruct c end; lia.
Qed.

(** Storing any number into the canvas array yields a byte. *)
Lemma toUint8Clamp_range (f : float) : (0 <= toUint8Clamp f <= 255)%Z.
Proof.
  unfold toUint8Clamp.
  destruct (PrimFloat.is_nan f) eqn:Hn; [lia|]. destruct (f <=? 0)%float; [lia|].
  destruct (255 <=? f)%float eqn:Hle; [lia|].
  pose proof (fleb_false 255 f eq_refl Hn Hle) as Hlt. apply ltb_key in Hlt as (_ & _ & Hk).
  pose proof (Prim2SF_valid f) as Hv.
  change (Prim2SF 255) with (S754_finite false 8972014882652160 (-45)) in Hk.
  destruct (Prim2SF f) as [| | |[] m e]; try lia. cbn in Hk.
  pose proof (mantissa_bound _ _ _ Hv) as Hm.
  destruct Hk as [Hk|[_ [Hk|[-> Hk]]]]; [lia| |].
  - assert (Hq : (Zpos m / 2 ^ (- e) <= 127)%Z).
    { apply Z.lt_succ_r, Z.div_lt_upper_bound; [apply Z.pow_pos_nonneg; lia|].
      assert (2 ^ 46 <= 2 ^ (- e))%Z by (apply Z.pow_le_mono_r; lia). lia. }
    pose proof (round_half_even_range m e 127 ltac:(lia) Hq ltac:(lia)). lia.
  - assert (Hq : (Zpos m / 2 ^ (- -45) <= 254)%Z).
    { apply Z.lt_succ_r, Z.div_lt_upper_bound; [apply Z.pow_pos_nonneg; lia|]. lia. }
    pose proof (round_half_even_range m (-45) 254 ltac:(lia) Hq ltac:(lia)). lia.
Qed.

(** A JavaScript loop counter as a number. *)
Definition num_of_nat (n : nat) : float := PrimFloat.of_uint63 (Uint63.of_Z (Z.of_nat n)).

(** The 256 byte values, checked by evaluation. *)
Lemma byte_roundtrip_table :
  forallb (fun n => Z.eqb (toUint8Clamp (num_of_nat n)) (Z.of_nat n)) (seq 0 256) = true.
Proof. vm_compute. reflexivity. Qed.

Lemma toUint8Clamp_of_nat (n : nat) : n <= 255 -> toUint8Clamp (num_of_nat n) = Z.of_nat n.
Proof.
  intros Hn. pose proof byte_roundtrip_table as Ht. rewrite forallb_forall in Ht.
  apply Z.eqb_eq, Ht, in_seq. lia.
Qed.

(** Bytes round-trip through the canvas store: a whole number
    [n] in [0, 255] is stored as [n], and storing again the number a
    store produced gives the same byte, so the conversion is idempotent
    on every double (NaN, infinities and fractions included). *)
Theorem toUint8Clamp_roundtrip (n : nat) (f : float) :
  n <= 255 ->
  toUint8Clamp (num_of_nat n) = Z.of_nat n /\
  toUint8Clamp (num_of_nat (Z.to_nat (toUint8Clamp f))) = toUint8Clamp f.
Proof.
  intros Hn. split; [now apply toUint8Clamp_of_nat|].
  pose proof (toUint8Clamp_range f) as Hr.
  rewrite toUint8Clamp_of_nat by lia. apply Z2Nat.id. lia.
Qed.

Lemma toUint8Clamp_roundtrip_witness :
  200 <= 255 /\
  (toUint8Clamp (num_of_nat 200) = Z.of_nat 200 /\
   toUint8Clamp (num_of_nat (Z.to_nat (toUint8Clamp 300.5%float))) = toUint8Clamp 300.5%float).
Proof. split; [lia|]. apply (toUint8Clamp_roundtrip 200 300.5%float). lia. Defined.

Module Frame.
(** The constants [render] computes before its loops. *)
Record t := mk {
  eyeVector : Vector float; right : Vector float; up : Vector float;
  halfWidth : float; halfHeight : float; pixelWidth : float; pixelHeight : float }.
End Frame.

Section Render.
Context {T : Type} `{Shape float T}.
Variable tan : float -> float.

Definition frame (scene : Scene.t T) : Frame.t :=
  let camera := Scene.camera scene in
  let basis := cameraBasis (Camera.point camera) (Camera.vector camera) in
  let eyeVector := fst (fst basis) in
  let right := snd (fst basis) in
  let up := snd basis in
  let fovRadians := (3.141592653589793 * (Camera.fieldOfView camera / 2) / 180)%float in
  let heightWidthRatio := (num_of_nat (Scene.height scene) / num_of_nat (Scene.width scene))%float in
  let halfWidth := tan fovRadians in
  let halfHeight := (heightWidthRatio * halfWidth)%float in
  let cameraWidth := (halfWidth * 2)%float in
  let cameraHeight := (halfHeight * 2)%float in
  let pixelWidth := (cameraWidth / (num_of_nat (Scene.width scene) - 1))%float in
  let pixelHeight := (cameraHeight / (num_of_nat (Scene.height scene) - 1))%float in
  Frame.mk eyeVector right up halfWidth halfHeight pixelWidth pixelHeight.

(** [ray.vector = eyeVector.add3(xcomp, ycomp).normalize()] *)
Definition pixelRay (scene : Scene.t T) (fr : Frame.t) (px py : nat) : Ray.t float :=
  let xcomp := Vector.scale (Frame.right fr)
                 (num_of_nat px * Frame.pixelWidth fr - Frame.halfWidth fr)%float in
  let ycomp := Vector.scale (Frame.up fr)
                 (num_of_nat py * Frame.pixelHeight fr - Frame.halfHeight fr)%float in
  Ray.mk (Camera.point (Scene.camera scene))
         (Vector.normalize (Vector.add3 (Frame.eyeVector fr) xcomp ycomp)).

(** [index = (x * 4) + (y * width * 4)] *)
Definition pixelIndex (width px py : nat) : nat := px * 4 + py * width * 4.

(** The four stores of one pixel. *)
Definition writePixel (data : list Z) (index : nat) (color : Vector float) : list Z :=
  <[index + 3 := 255%Z]> (<[index + 2 := toUint8Clamp (z color)]>
    (<[index + 1 := toUint8Clamp (y color)]> (<[index := toUint8Clamp (x color)]> data))).

(** The body of the inner loop; reading [color.x] of [undefined] would
    throw, which is [None]. *)
Definition renderPixel (scene : Scene.t T) (fr : Frame.t) (data : option (list Z))
    (px py : nat) : option (list Z) :=
  match data with
  | None => None
  | Some data =>
    match trace scene (pixelRay scene fr px py) 0 with
    | None => None
    | Some color => Some (writePixel data (pixelIndex (Scene.width scene) px py) color)
    end
  end.

Definition render (scene : Scene.t T) (data : list Z) : option (list Z) :=
  let fr := frame scene in
  fold_left (fun acc px =>
      fold_left (fun acc py => renderPixel scene fr acc px py) (seq 0 (Scene.height scene)) acc)
    (seq 0 (Scene.width scene)) (Some data).

End Render.

(** ** Pixel layout *)

Lemma pixelIndex_rowmajor (w px py : nat) : pixelIndex w px py = 4 * (py * w + px).
Proof. unfold pixelIndex. lia. Qed.

Lemma pixelIndex_inj (w px1 py1 c1 px2 py2 c2 : nat) :
  px1 < w -> px2 < w -> c1 < 4 -> c2 < 4 ->
  pixelIndex w px1 py1 + c1 = pixelIndex w px2 py2 + c2 ->
  px1 = px2 /\ py1 = py2 /\ c1 = c2.
Proof.
  rewrite !pixelIndex_rowmajor. intros H1 H2 H3 H4 E.
  assert (py1 * w + px1 = py2 * w + px2 /\ c1 = c2) as [Ek ->] by lia.
  assert (py1 = py2) as -> by (destruct (Nat.lt_trichotomy py1 py2) as [Hl|[Hl|Hl]]; nia).
  repeat split; lia.
Qed.

Lemma pixelIndex_bound (w h px py c : nat) :
  px < w -> py < h -> c < 4 -> pixelIndex w px py + c < w * h * 4.
Proof. rewrite pixelIndex_rowmajor. intros. nia. Qed.

(** C19: The pixel index is the row-major byte offset [4 * (y*width + x)]:
    for pixels inside the image, the four bytes of a pixel lie inside a
    buffer of [width*height*4] bytes and two different (pixel, channel)
    pairs never share a byte. *)
Theorem pixel_layout (w h px py c px' py' c' : nat) :
  px < w -> py < h -> c < 4 -> px' < w -> c' < 4 ->
  pixelIndex w px py = 4 * (py * w + px) /\
  pixelIndex w px py + c < w * h * 4 /\
  (pixelIndex w px py + c = pixelIndex w px' py' + c' -> px = px' /\ py = py' /\ c = c').
Proof.
  intros. split; [apply pixelIndex_rowmajor|]. split; [now apply pixelIndex_bound|].
  now apply pixelIndex_inj.
Qed.

Lemma pixel_layout_witness :
  (1 < 3 /\ 1 < 2 /\ 2 < 4 /\ 0 < 3 /\ 2 < 4) /\
  pixelIndex 3 1 1 = 4 * (1 * 3 + 1) /\
  pixelIndex 3 1 1 + 2 < 3 * 2 * 4 /\
  (pixelIndex 3 1 1 + 2 = pixelIndex 3 0 1 + 2 -> 1 = 0 /\ 1 = 1 /\ 2 = 2).
Proof.
  split; [lia|]. apply (pixel_layout 3 2 1 1 2 0 1 2); lia.
Defined.

(** ** The stores of one pixel *)

Definition pixelByte (color : Vector float) (c : nat) : Z :=
  match c with
  | 0 => toUint8Clamp (x color)
  | 1 => toUint8Clamp (y color)
  | 2 => toUint8Clamp (z color)
  | _ => 255%Z
  end.

Lemma pixelByte_range (color : Vector float) (c : nat) : (0 <= pixelByte color c <= 255)%Z.
Proof. destruct c as [|[|[|c]]]; cbn [pixelByte]; try apply toUint8Clamp_range; lia. Qed.

Lemma writePixel_length (data : list Z) (b : nat) (color : Vector float) :
  length (writePixel data b color) = length data.
Proof. unfold writePixel. now rewrite !length_insert. Qed.

Lemma writePixel_in (data : list Z) (b c : nat) (color : Vector float) :
  b + 3 < length data -> c < 4 ->
  writePixel data b color !! (b + c) = Some (pixelByte color c).
Proof.
  intros Hb Hc. unfold writePixel.
  destruct c as [|[|[|[|c]]]]; [..|lia]; cbn [pixelByte].
  - rewrite !list_lookup_insert_ne by lia. rewrite Nat.add_0_r.
    apply list_lookup_insert_eq. lia.
  - rewrite !list_lookup_insert_ne by lia. apply list_lookup_insert_eq.
    rewrite length_insert. lia.
  - rewrite list_lookup_insert_ne by lia. apply list_lookup_insert_eq.
    rewrite !length_insert. lia.
  - apply list_lookup_insert_eq. rewrite !length_insert. lia.
Qed.

Lemma writePixel_out (data : list Z) (b i : nat) (color : Vector float) :
  (i < b \/ b + 4 <= i) -> writePixel data b color !! i = data !! i.
Proof. intros Hi. unfold writePixel. rewrite !list_lookup_insert_ne by lia. reflexivity. Qed.

(** ** The loops *)

Lemma NoDup_list_prod {A B} (l : list A) (l' : list B) :
  NoDup l -> NoDup l' -> NoDup (list_prod l l').
Proof.
  intros Hl Hl'. induction Hl as [|a l Ha Hl IH]; cbn; [constructor|].
  apply NoDup_app; [|exact IH|].
  - apply Finite.Injective_map_NoDup; [|exact Hl']. intros b1 b2 E. now injection E.
  - intros [a' b] Hin Hin'.
    apply in_map_iff in Hin as (b' & E & _). injection E as <- <-.
    apply in_prod_iff in Hin' as [Hin' _]. contradiction.
Qed.

Section RenderSpec.
Context {T : Type} `{Shape float T}.
Variable tan : float -> float.
Variable scene : Scene.t T.

Let w := Scene.width scene.
Let h := Scene.height scene.
Let fr := frame tan scene.
Let colorAt (p : nat * nat) := trace scene (pixelRay scene fr (fst p) (snd p)) 0.
Let step := fun acc (p : nat * nat) => renderPixel scene fr acc (fst p) (snd p).

Lemma render_as_pixels (data : list Z) :
  render tan scene data = fold_left step (list_prod (seq 0 w) (seq 0 h)) (Some data).
Proof. unfold render. apply fold_left_list_prod. Qed.

(** The block of pixel [p]: bytes [index .. index + 3]. *)
Definition in_block (p : nat * nat) (i : nat) : Prop :=
  pixelIndex w (fst p) (snd p) <= i < pixelIndex w (fst p) (snd p) + 4.

Lemma blocks_disjoint (p q : nat * nat) (i : nat) :
  fst p < w -> fst q < w -> p <> q -> in_block p i -> ~ in_block q i.
Proof.
  destruct p as [px py], q as [qx qy]. unfold in_block; cbn [fst snd]. intros Hp Hq Hne Hi Hi'.
  destruct (pixelIndex_inj w px py (i - pixelIndex w px py) qx qy (i - pixelIndex w qx qy))
    as (E1 & E2 & _); try lia. apply Hne. now rewrite E1, E2.
Qed.

Lemma fold_pixels (ps : list (nat * nat)) (data : list Z) :
  Forall (fun p => fst p < w /\ snd p < h) ps -> NoDup ps -> length data = w * h * 4 ->
  exists data', fold_left step ps (Some data) = Some data' /\
    length data' = length data /\
    (forall i, (forall p, In p ps -> ~ in_block p i) -> data' !! i = data !! i) /\
    (forall p c, In p ps -> c < 4 -> exists color, colorAt p = Some color /\
       data' !! (pixelIndex w (fst p) (snd p) + c) = Some (pixelByte color c)).
Proof.
  revert data. induction ps as [|p ps IH]; intros data Hr Hnd Hlen; cbn [fold_left].
  { exists data. repeat split; auto. intros p c []. }
  inversion Hr as [|? ? [Hpx Hpy] Hr']; subst. clear Hr. rename Hr' into Hr.
  apply NoDup_cons_iff in Hnd as [Hp Hnd].
  destruct (trace_some scene (pixelRay scene fr (fst p) (snd p)) 0) as [cp Hcp]; [lia|].
  assert (Hstep : step (Some data) p = Some (writePixel data (pixelIndex w (fst p) (snd p)) cp))
    by (unfold step, renderPixel; now rewrite Hcp).
  rewrite Hstep.
  destruct (IH (writePixel data (pixelIndex w (fst p) (snd p)) cp)) as (d' & Hf & Hl & Hout & Hin);
    auto; [now rewrite writePixel_length|].
  exists d'. rewrite writePixel_length in Hl. repeat split; auto.
  - intros i Hi. rewrite Hout by (intros q Hq; apply Hi; now right).
    apply writePixel_out. specialize (Hi p (or_introl eq_refl)). unfold in_block in Hi. lia.
  - intros q c [<-|Hq] Hc; [|exact (Hin q c Hq Hc)]. exists cp. split; [exact Hcp|].
    rewrite Hout.
    + apply writePixel_in; [|exact Hc]. pose proof (pixelIndex_bound w h (fst p) (snd p) 3). lia.
    + intros q' Hq' Hb. apply Forall_forall with (x := q') in Hr as [Hq'x _]; [|exact Hq'].
      apply (blocks_disjoint p q' (pixelIndex w (fst p) (snd p) + c)); auto.
      * intros ->. contradiction.
      * unfold in_block. lia.
Qed.

Lemma fold_pixels_some (ps : list (nat * nat)) (data : list Z) :
  exists data', fold_left step ps (Some data) = Some data'.
Proof.
  revert data. induction ps as [|p ps IH]; intros data; cbn [fold_left]; [eauto|].
  destruct (trace_some scene (pixelRay scene fr (fst p) (snd p)) 0) as [cp Hcp]; [lia|].
  unfold step at 2, renderPixel. rewrite Hcp. apply IH.
Qed.

(** Every byte of a [width*height*4] buffer is in the block of a pixel
    of the image. *)
Lemma byte_in_block (i : nat) :
  i < w * h * 4 -> exists px py c, px < w /\ py < h /\ c < 4 /\ i = pixelIndex w px py + c.
Proof.
  intros Hi. assert (Hw : 0 < w) by (destruct w; lia).
  exists ((i / 4) mod w), ((i / 4) / w), (i mod 4).
  rewrite pixelIndex_rowmajor. repeat split.
  - apply Nat.mod_upper_bound. lia.
  - apply Nat.Div0.div_lt_upper_bound. apply Nat.Div0.div_lt_upper_bound. lia.
  - apply Nat.mod_upper_bound. lia.
  - pose proof (Nat.div_mod_eq i 4). pose proof (Nat.div_mod_eq (i / 4) w). lia.
Qed.

(** On a buffer of [width*height*4] bytes, [render] writes in the four
    bytes of every pixel its traced colour, converted, and alpha 255. *)
Lemma render_written (data : list Z) :
  length data = w * h * 4 ->
  exists data', render tan scene data = Some data' /\ length data' = length data /\
  forall px py c, px < w -> py < h -> c < 4 ->
  exists color, trace scene (pixelRay scene (frame tan scene) px py) 0 = Some color /\
    data' !! (pixelIndex w px py + c) = Some (pixelByte color c).
Proof.
  intros Hlen. rewrite render_as_pixels.
  destruct (fold_pixels (list_prod (seq 0 w) (seq 0 h)) data) as (d' & Hf & Hl & _ & Hin);
    auto.
  - apply Forall_forall. intros [px py] Hp. apply in_prod_iff in Hp as [Hx Hy].
    apply in_seq in Hx, Hy. cbn. lia.
  - apply NoDup_list_prod; apply seq_NoDup.
  - exists d'. repeat split; auto. intros px py c Hx Hy Hc.
    apply (Hin (px, py) c); [|exact Hc]. apply in_prod_iff. split; apply in_seq; lia.
Qed.

(** C6: [render] never throws (the colour it reads is never
    [undefined]), and on a buffer of [width*height*4] bytes it writes, in
    the four bytes of every pixel [(x, y)], the colour traced through that
    pixel at depth 0, converted to bytes, and alpha 255. *)
Theorem render_spec (data : list Z) :
  (exists data', render tan scene data = Some data') /\
  (length data = w * h * 4 ->
   exists data', render tan scene data = Some data' /\ length data' = length data /\
   forall px py c, px < w -> py < h -> c < 4 ->
   exists color, trace scene (pixelRay scene (frame tan scene) px py) 0 = Some color /\
     data' !! (pixelIndex w px py + c) = Some (pixelByte color c)).
Proof.
  split; [rewrite render_as_pixels; apply fold_pixels_some|]. apply render_written.
Qed.

(** The buffer [render] returns does not depend on what the buffer
    held before: every byte of a [width*height*4] buffer is overwritten. *)
Theorem render_overwrites (data1 data2 : list Z) :
  length data1 = w * h * 4 -> length data2 = w * h * 4 ->
  render tan scene data1 = render tan scene data2.
Proof.
  intros H1 H2.
  destruct (render_written data1 H1) as (d1 & E1 & L1 & S1).
  destruct (render_written data2 H2) as (d2 & E2 & L2 & S2).
  rewrite E1, E2. f_equal. apply list_eq. intros i.
  destruct (decide (i < w * h * 4)) as [Hi|Hi].
  - destruct (byte_in_block i Hi) as (px & py & c & Hx & Hy & Hc & ->).
    destruct (S1 px py c Hx Hy Hc) as (c1 & T1 & ->).
    destruct (S2 px py c Hx Hy Hc) as (c2 & T2 & ->). congruence.
  - rewrite !lookup_ge_None_2 by lia. reflexivity.
Qed.

End RenderSpec.
