(* ===== verification/Scenarios.v ===== *)
(** * Scenarios: the demo scene of [src/src/main.js] and the spec's tests

    [demo_scene] is the scene the [onReady] callback of [main.js] builds:
    the camera, the one light and the three spheres made by
    [new Sphere(...)], for the canvas size [width] x [height].  The other
    scenes are small inputs on which the spec states expected results;
    they are evaluated by [vm_compute] on IEEE doubles.  Spheres built
    as object literals (as [src/application.js] does) use [Sphere.mk]
    directly, which is how a sphere with a coefficient of 0 can exist. *)

From Stdlib Require Import String.
From stdpp Require Import base list.
From Stdlib Require Import List ZArith Floats.
From S2P Require Import Prelude JsNumber JsValue Vector3 Shape Sphere Scene Intersector Tracer TraceRel Render.
Import ListNotations.

Local Set Warnings "-inexact-float".
Local Open Scope float_scope.

(** The [scene] literal of [onReady]; [width] and [height] are the
    canvas size. *)
Definition demo_scene (width height : nat) : Result (Scene.t (Sphere.t float)) Sphere.error :=
  (let! s1 := Sphere.new (Some (Vector.new 0 3.5 (-3))) (Some 3) (Some (Vector.new 155 200 155))
                         (Some 0.2) (Some 0.7) (Some 0.1) in
   let! s2 := Sphere.new (Some (Vector.new (-4) 2 (-1))) (Some 0.2) (Some (Vector.new 155 155 155))
                         (Some 0.1) (Some 0.9) (Some 0.0) in
   let! s3 := Sphere.new (Some (Vector.new (-4) 3 (-1))) (Some 0.1) (Some Vector.WHITE)
                         (Some 0.2) (Some 0.7) (Some 0.1) in
   Ok (Scene.mk width height
         (Camera.mk (Vector.new 0 1.8 10) 45 (Vector.new 0 3 0))
         [Vector.new (-30) (-10) 20]
         [s1; s2; s3]))%result.

(** A sphere given as an object literal. *)
Definition ball (cx cy cz r : float) (col : Vector float) (spec lamb amb : float)
    : Sphere.t float :=
  Sphere.mk (Vector.new cx cy cz) r col spec lamb amb.

Definition camera0 : Camera.t := Camera.mk (Vector.new 0 0 10) 45 (Vector.new 0 0 0).

Definition scene_of (lights : list (Vector float)) (objects : list (Sphere.t float))
    : Scene.t (Sphere.t float) :=
  Scene.mk 2 2 camera0 lights objects.

Definition origin : Vector float := Vector.new 0 0 0.
Definition light10 : Vector float := Vector.new 0 0 10.
Definition red : Vector float := Vector.new 255 0 0.
Definition blue : Vector float := Vector.new 0 0 255.
Definition grey : Vector float := Vector.new 100 150 200.

(** The demo scene of [main.js] is built without error, and its
    second sphere, written with [ambient] 0.0, gets [ambient] 0.1: the
    constructor's [ambient || 0.1] replaces the 0. *)
Theorem demo_scene_ambient (width height : nat) :
  exists sc, demo_scene width height = Ok sc /\
    map Sphere.ambient (Scene.objects sc) = [0.1; 0.1; 0.1].
Proof. eexists. split; [vm_compute; reflexivity|]. vm_compute. reflexivity. Qed.

(** Two spheres met at the same distance resolve to the first in
    scene order. *)
Theorem tie_first_object :
  intersectScene (Ray.mk (Vector.new 0 0 10) (Vector.new 0 0 (-1)))
    (scene_of [] [ball 0 0 0 1 red 0 0 0; ball 0 0 0 1 blue 0 0 0])
  = (9, Some (ball 0 0 0 1 red 0 0 0)).
Proof. vm_compute. reflexivity. Qed.

Definition ray_axis : Ray.t float := Ray.mk (Vector.new 0 0 10) (Vector.new 0 0 (-1)).

Definition mirror_scene : Scene.t (Sphere.t float) :=
  scene_of [light10] [ball 0 0 0 1 red 1 0 0; ball 0 0 (-5) 1 blue 1 0 0].

(** A perfect mirror (specular 1, no diffuse or ambient term) hit
    head-on, with a second mirror behind it, renders black: the
    reflected ray re-enters the first sphere at every level until the
    depth limit, where the colour is 0.  The mirror direction would have
    gone back to the white background. *)
Theorem mirror_black : trace mirror_scene ray_axis 0 = Some Vector.ZERO.
Proof. vm_compute. reflexivity. Qed.

(** Math.tan(pi/8), the half width of a 45 degree field of view. *)
Definition tan45 (_ : float) : float := 0.41421356237309503.

(** The spec's render scenario: on a 2x2 image of a large sphere
    on the camera axis lit from the camera side, the four pixels get the
    same colour; on a 3x3 image of a small sphere only the centre pixel
    hits it and the eight others are white with alpha 255. *)
Theorem render_examples :
  render tan45 (Scene.mk 2 2 camera0 [Vector.new 0 0 20] [ball 0 0 0 7 Vector.WHITE 0 1 0])
    (repeat 0%Z 16) = Some (concat (repeat [233; 233; 233; 255]%Z 4)) /\
  render tan45 (Scene.mk 3 3 camera0 [Vector.new 0 0 20] [ball 0 0 0 1 grey 0 1 0])
    (repeat 0%Z 36) =
  Some (concat (repeat [255; 255; 255; 255]%Z 4 ++ [[100; 150; 200; 255]%Z] ++
                repeat [255; 255; 255; 255]%Z 4)).
Proof. split; vm_compute; reflexivity. Qed.

Definition scene_hit : Scene.t (Sphere.t float) :=
  Scene.mk 2 2 camera0 [Vector.new 0 0 20] [ball 0 0 0 1 grey 0.5 1 0.1].

Lemma render_overwrites_witness :
  length (repeat 0%Z 16) = (2 * 2 * 4)%nat /\ length (repeat 7%Z 16) = (2 * 2 * 4)%nat /\
  render tan45 scene_hit (repeat 0%Z 16) = render tan45 scene_hit (repeat 7%Z 16).
Proof.
  split; [reflexivity|]. split; [reflexivity|].
  exact (render_overwrites tan45 scene_hit (repeat 0%Z 16) (repeat 7%Z 16) eq_refl eq_refl).
Defined.

(** The mirror of [mirror_black] hit head-on: a mirror hit at distance 9
    at depth 0, three nested ones at distance 0 at depths 1 to 3, and the call at depth 4 past the limit,
    five calls in all. *)
Lemma mirror_derivation : exists r, traces mirror_scene ray_axis 0 r 5.
Proof.
  eexists. eapply (traces_mirror _ _ _ 9 (ball 0 0 0 1 red 1 0 0));
    [lia | vm_compute; reflexivity | vm_compute; reflexivity |].
  repeat (eapply (traces_mirror _ _ _ 0 (ball 0 0 0 1 red 1 0 0));
            [lia | vm_compute; reflexivity | vm_compute; reflexivity |]).
  apply traces_deep. lia.
Qed.

Lemma traces_functional_witness :
  exists r, traces mirror_scene ray_axis 0 r 5 /\ trace mirror_scene ray_axis 0 = r.
Proof.
  destruct mirror_derivation as [r Hr]. exists r.
  split; [exact Hr | exact (traces_functional mirror_scene ray_axis 0 r 5 Hr)].
Defined.

(** A host conversion that is right on the strings used. *)
Definition sample_stringToNumber (s : string) : float :=
  if String.eqb s "2" then 2 else if String.eqb s "" then 0 else PrimFloat.nan.

Lemma constructor_result_witness :
  sample_stringToNumber ""%string = 0 /\
  match Sphere.constructor sample_stringToNumber None (Str "2") None Undefined Undefined Undefined with
  | Ok s => Sphere.radius s = toNumber sample_stringToNumber (Str "2") /\
            (0 <? toNumber sample_stringToNumber (Str "2"))%float = true
  | Error Sphere.RadiusNotANumber => PrimFloat.is_nan (toNumber sample_stringToNumber (Str "2")) = true
  | Error Sphere.RadiusNotPositive =>
      PrimFloat.is_nan (toNumber sample_stringToNumber (Str "2")) = false /\
      (toNumber sample_stringToNumber (Str "2") <=? 0)%float = true
  end.
Proof.
  split; [reflexivity|].
  exact (constructor_result sample_stringToNumber None (Str "2") None Undefined Undefined Undefined
           eq_refl).
Defined.
