(* ===== verification/Page.v ===== *)
(** * Page: the bootstrap of [src/src/main.js]

    The script is an immediately invoked function: it defines [onReady]
    and calls it with a callback, [completed] here, that sizes the canvas,
    reads its image data, builds the demo scene and renders it.

    - [Document] is the host's side, from the HTML standard:
      [document.readyState] goes from "loading" to "interactive", when
      [DOMContentLoaded] fires and runs its listeners in order, to
      "complete"; a [setTimeout] callback runs at some later step.  The
      host's moves are the step relation [Document.step].
    - [onReady] is the source's function: a [setTimeout] when
      [readyState === "completed"], an [addEventListener] otherwise.  No
      [readyState] is the string "completed" (the host's value is
      "complete"), so the first branch is never taken: a script that runs
      after [DOMContentLoaded] never runs its callback.

    Theorems: a callback registered while the document is loading runs
    exactly once, and by the time the document is complete; one
    registered later never runs. *)

From Stdlib Require Import List String Lia Arith Relations.
From S2P Require Import Prelude.
Import ListNotations.

Module Document.

(** [document.readyState]. *)
Inductive ReadyState := loading | interactive | complete.

Definition readyStateString (r : ReadyState) : string :=
  match r with
  | loading => "loading"
  | interactive => "interactive"
  | complete => "complete"
  end.



(** Callbacks are told apart by a number.  The document: its state, the [DOMContentLoaded] listeners, the
    pending timers, and the callbacks run so far, in order. *)
Record t := mk {
  readyState : ReadyState;
  listeners : list nat;
  timers : list nat;
  ran : list nat }.

(** [setTimeout(callback)]: queue it. *)
Definition setTimeout (c : nat) (d : t) : t :=
  mk (readyState d) (listeners d) (timers d ++ [c]) (ran d).

(** [addEventListener("DOMContentLoaded", c, false)]: a listener already
    registered is not added twice. *)
Definition addEventListener (c : nat) (d : t) : t :=
  if existsb (Nat.eqb c) (listeners d) then d
  else mk (readyState d) (listeners d ++ [c]) (timers d) (ran d).

(** The host's moves. *)
Inductive step : t -> t -> Prop :=
| parsed d :
    readyState d = loading ->
    step d (mk interactive (listeners d) (timers d) (ran d ++ listeners d))
| loaded d :
    readyState d = interactive ->
    step d (mk complete (listeners d) (timers d) (ran d))
| timer_fires d c rest :
    timers d = c :: rest ->
    step d (mk (readyState d) (listeners d) rest (ran d ++ [c])).

Definition steps : t -> t -> Prop := clos_refl_trans_1n t step.

End Document.

Import Document.

(** [onReady(completed)] *)
Definition onReady (completed : nat) (d : Document.t) : Document.t :=
  if String.eqb (readyStateString (readyState d)) "completed" then setTimeout completed d
  else addEventListener completed d.

(** ** Facts *)

(** The [setTimeout] branch is dead. *)
Lemma onReady_listens (c : nat) (d : Document.t) : onReady c d = addEventListener c d.
Proof. unfold onReady. now destruct (readyState d). Qed.

Lemma addEventListener_fields (c : nat) (d : Document.t) :
  ~ In c (listeners d) ->
  addEventListener c d = mk (readyState d) (listeners d ++ [c]) (timers d) (ran d).
Proof.
  intros Hc. unfold addEventListener.
  destruct (existsb (Nat.eqb c) (listeners d)) eqn:E; [|reflexivity].
  apply existsb_exists in E as (c' & Hin & Heq). apply Nat.eqb_eq in Heq. subst. contradiction.
Qed.

Lemma count_occ_not_in (l : list nat) (c : nat) : ~ In c l -> count_occ Nat.eq_dec l c = 0.
Proof. apply count_occ_not_In. Qed.

Lemma in_cons_tail {A} (a c : A) (l : list A) : ~ In c (a :: l) -> a <> c /\ ~ In c l.
Proof. cbn. tauto. Qed.

#[export] Hint Resolve count_occ_not_in : raytrace.

(** What a run of the host keeps of a callback registered late. *)
Definition late_inv (c : nat) (x : Document.t) : Prop :=
  readyState x <> loading /\ ~ In c (ran x) /\ ~ In c (timers x).

Lemma late_inv_step (c : nat) (a b : Document.t) :
  Document.step a b -> late_inv c a -> late_inv c b.
Proof.
  unfold late_inv. intros Hab (Hs & Hr & Ht).
  destruct Hab as [a Hl|a Hi|a c0 rest Ht0]; cbn in *; [contradiction|split; [discriminate|tauto]|].
  rewrite Ht0 in Ht. apply in_cons_tail in Ht as [Hne Hrest].
  rewrite in_app_iff. cbn. intuition.
Qed.

(** What a run of the host keeps of a callback registered while the
    document loads: queued once among the listeners and not yet run, or
    run exactly once. *)
Definition loading_inv (c : nat) (x : Document.t) : Prop :=
  ~ In c (timers x) /\
  ((readyState x = loading /\ count_occ Nat.eq_dec (listeners x) c = 1 /\
    count_occ Nat.eq_dec (ran x) c = 0) \/
   (readyState x <> loading /\ count_occ Nat.eq_dec (ran x) c = 1)).

Lemma count_occ_single_other (c c0 : nat) : c0 <> c -> count_occ Nat.eq_dec [c0] c = 0.
Proof. intros Hne. cbn. destruct (Nat.eq_dec c0 c); [contradiction|reflexivity]. Qed.

Lemma loading_inv_step (c : nat) (a b : Document.t) :
  Document.step a b -> loading_inv c a -> loading_inv c b.
Proof.
  unfold loading_inv. intros Hab (Ht & Hc).
  destruct Hab as [a Hl|a Hi|a c0 rest Ht0]; cbn in *.
  - split; [exact Ht|]. right. split; [discriminate|].
    rewrite count_occ_app. destruct Hc as [(_ & H1 & H0)|[Hn _]]; [lia|contradiction].
  - split; [exact Ht|]. right. split; [discriminate|].
    destruct Hc as [(Hl & _)|[_ H1]]; [congruence|exact H1].
  - rewrite Ht0 in Ht. apply in_cons_tail in Ht as [Hne Hrest]. split; [exact Hrest|].
    rewrite count_occ_app, (count_occ_single_other c c0 Hne), Nat.add_0_r. exact Hc.
Qed.

(** C8: A callback the script registers after [DOMContentLoaded] (the
    document [interactive] or [complete]) never runs, whatever the host
    does next: [onReady] tests for "completed", a value [readyState]
    never has, so it always waits for an event that has already fired. *)
Theorem onReady_late_never_runs (c : nat) (d d' : Document.t) :
  readyState d <> loading -> ~ In c (ran d) -> ~ In c (timers d) ->
  Document.steps (onReady c d) d' -> ~ In c (ran d').
Proof.
  intros Hs Hr Ht Hsteps.
  enough (P : late_inv c d') by apply P.
  apply (star_invariant _ _ _ _ (late_inv_step c) Hsteps).
  rewrite onReady_listens. unfold addEventListener, late_inv.
  destruct existsb; cbn; tauto.
Qed.

(** C9: A callback registered while the document loads runs exactly
    once: the host can always reach [complete], and in every state it
    reaches once loading is over the callback has run once. *)
Theorem onReady_loading_runs_once (c : nat) (d : Document.t) :
  readyState d = loading -> ~ In c (listeners d) -> ~ In c (timers d) -> ~ In c (ran d) ->
  (exists d', Document.steps (onReady c d) d' /\ readyState d' = complete) /\
  (forall d', Document.steps (onReady c d) d' -> readyState d' <> loading ->
   count_occ Nat.eq_dec (ran d') c = 1).
Proof.
  intros Hs Hl Ht Hr. rewrite onReady_listens, (addEventListener_fields c d Hl).
  split.
  - eexists. split.
    + eapply Relation_Operators.rt1n_trans; [apply parsed; exact Hs|].
      eapply Relation_Operators.rt1n_trans; [apply loaded; reflexivity|]. apply Relation_Operators.rt1n_refl.
    + reflexivity.
  - intros d' Hsteps Hd'.
    enough (P : loading_inv c d') by (destruct P as [_ [(E & _)|(_ & P)]]; [contradiction|exact P]).
    apply (star_invariant _ _ _ _ (loading_inv_step c) Hsteps).
    unfold loading_inv; cbn. split; [exact Ht|]. left.
    split; [exact Hs|]. rewrite count_occ_app, !count_occ_not_in by assumption. cbn.
    destruct (Nat.eq_dec c c); [|contradiction]. split; [reflexivity|auto with raytrace].
Qed.

(** The script runs once the document is interactive; the host then
    finishes loading. *)
Lemma onReady_late_never_runs_witness :
  let d := Document.mk interactive [] [] [] in
  let d' := Document.mk complete [0] [] [] in
  Document.steps (onReady 0 d) d' /\ ~ In 0 (ran d').
Proof.
  intros d d'.
  assert (Hs : Document.steps (onReady 0 d) d').
  { eapply Relation_Operators.rt1n_trans; [apply loaded; reflexivity|].
    apply Relation_Operators.rt1n_refl. }
  split; [exact Hs|].
  exact (onReady_late_never_runs 0 d d' ltac:(discriminate) ltac:(cbn; tauto) ltac:(cbn; tauto) Hs).
Defined.

(** The script runs while the document loads, with nothing queued. *)
Lemma onReady_loading_runs_once_witness :
  let d := Document.mk loading [] [] [] in
  readyState d = loading /\
  ((exists d', Document.steps (onReady 0 d) d' /\ readyState d' = complete) /\
   (forall d', Document.steps (onReady 0 d) d' -> readyState d' <> loading ->
    count_occ Nat.eq_dec (ran d') 0 = 1)).
Proof.
  intros d. split; [reflexivity|].
  exact (onReady_loading_runs_once 0 d eq_refl ltac:(cbn; tauto) ltac:(cbn; tauto)
           ltac:(cbn; tauto)).
Defined.
