(* ===== verification/Canvas.v ===== *)
(** * Canvas: the callback of [onReady] in [src/src/main.js]

    The callback reads the canvas's layout size ([scrollWidth],
    [scrollHeight]), takes its image data with [getImageData], sets the
    canvas's [width] and [height] (which clears its bitmap), builds the
    demo scene, and renders into the image data; [render] ends with
    [context.putImageData(data, 0, 0)].

    [Canvas] is the host's side, from the HTML standard: a bitmap of
    [width * height] RGBA pixels, row after row; [getImageData] throws an
    [IndexSizeError] for a zero width or height and reads transparent
    black outside the bitmap; setting [width] or [height] resets the
    bitmap to transparent black; [putImageData] copies the pixels that
    fall inside the bitmap.  Pixels are stored unpremultiplied, which is
    exact here since [render] writes alpha 255 everywhere.

    Theorems: on a canvas with a non-zero layout size the callback ends
    with the canvas showing, byte for byte, the rendered demo scene at
    that size; with a zero width or height it throws [IndexSizeError]
    before drawing anything. *)

From stdpp Require Import base list.
From Stdlib Require Import ZArith Lia Arith List Floats.
From S2P Require Import Prelude JsNumber Vector3 Shape Sphere Scene Tracer Render Scenarios.

(** What the callback can throw: the canvas's [IndexSizeError], the
    [Sphere] constructor's errors, a [TypeError] from reading a colour
    of [undefined]. *)
Inductive PageError :=
| IndexSizeError
| SphereError (e : Sphere.error)
| TypeError.

Module Canvas.

Record t := mk {
  scrollWidth : nat; scrollHeight : nat;
  width : nat; height : nat;
  bitmap : list Z }.

(** Byte [i] of an image [w] pixels wide is channel [i mod 4] of pixel
    [((i / 4) mod w, (i / 4) / w)]. *)
Definition pixelX (w i : nat) : nat := (i / 4) mod w.
Definition pixelY (w i : nat) : nat := (i / 4) / w.

(** [context.getImageData(0, 0, sw, sh)] *)
Definition getImageData (c : t) (sw sh : nat) : Result (list Z) PageError :=
  if (sw =? 0) || (sh =? 0) then Error IndexSizeError
  else Ok (map (fun i =>
      let x := pixelX sw i in
      let y := pixelY sw i in
      if (x <? width c) && (y <? height c)
      then nth ((y * width c + x) * 4 + i mod 4) (bitmap c) 0%Z
      else 0%Z) (seq 0 (sw * sh * 4))).

(** [canvas.width = w] *)
Definition setWidth (c : t) (w : nat) : t :=
  mk (scrollWidth c) (scrollHeight c) w (height c) (repeat 0%Z (w * height c * 4)).

(** [canvas.height = h] *)
Definition setHeight (c : t) (h : nat) : t :=
  mk (scrollWidth c) (scrollHeight c) (width c) h (repeat 0%Z (width c * h * 4)).

(** [context.putImageData(data, 0, 0)] for image data [sw] by [sh]. *)
Definition putImageData (c : t) (data : list Z) (sw sh : nat) : t :=
  mk (scrollWidth c) (scrollHeight c) (width c) (height c)
    (imap (fun i old =>
       let x := pixelX (width c) i in
       let y := pixelY (width c) i in
       if (x <? sw) && (y <? sh) then nth ((y * sw + x) * 4 + i mod 4) data old else old)
     (bitmap c)).

End Canvas.

Section Page.
Variable tan : float -> float.

(** [render(scene)] with its last line [context.putImageData(data, 0, 0)]. *)
Definition renderCanvas (scene : Scene.t (Sphere.t float)) (context : Canvas.t) (data : list Z)
    : Result Canvas.t PageError :=
  match render tan scene data with
  | Some data => Ok (Canvas.putImageData context data (Scene.width scene) (Scene.height scene))
  | None => Error TypeError
  end.

(** The callback [onReady] is given. *)
Definition completed (canvas : Canvas.t) : Result Canvas.t PageError :=
  (let width := Canvas.scrollWidth canvas in
   let height := Canvas.scrollHeight canvas in
   let! data := Canvas.getImageData canvas width height in
   let canvas := Canvas.setHeight (Canvas.setWidth canvas width) height in
   let! scene := result_map_error SphereError (demo_scene width height) in
   renderCanvas scene canvas data)%result.

End Page.

(** ** The canvas operations *)

Lemma pixel_index_eq (w i : nat) :
  w <> 0 -> (Canvas.pixelY w i * w + Canvas.pixelX w i) * 4 + i mod 4 = i.
Proof.
  intros Hw. unfold Canvas.pixelX, Canvas.pixelY.
  rewrite (Nat.mul_comm (i / 4 / w) w), <- Nat.div_mod_eq, Nat.mul_comm.
  symmetry. apply Nat.div_mod_eq.
Qed.

Lemma pixel_in_image (w h i : nat) :
  w <> 0 -> i < w * h * 4 -> Canvas.pixelX w i < w /\ Canvas.pixelY w i < h.
Proof.
  intros Hw Hi. unfold Canvas.pixelX, Canvas.pixelY. split.
  - apply Nat.mod_upper_bound, Hw.
  - apply Nat.Div0.div_lt_upper_bound. apply Nat.Div0.div_lt_upper_bound. lia.
Qed.

(** [putImageData] of data the size of the bitmap replaces the bitmap. *)
Lemma putImageData_full (c : Canvas.t) (data : list Z) (w h : nat) :
  w <> 0 -> Canvas.width c = w ->
  length (Canvas.bitmap c) = w * h * 4 -> length data = w * h * 4 ->
  Canvas.bitmap (Canvas.putImageData c data w h) = data.
Proof.
  intros Hw Hcw Hb Hd. apply list_eq. intros i. unfold Canvas.putImageData. cbn [Canvas.bitmap]. rewrite list_lookup_imap.
  destruct (decide (i < w * h * 4)) as [Hi|Hi].
  - destruct (lookup_lt_is_Some_2 (Canvas.bitmap c) i) as [old Hold]; [lia|].
    destruct (lookup_lt_is_Some_2 data i) as [v Hv]; [lia|].
    rewrite Hold, Hv. cbn -[Canvas.pixelX Canvas.pixelY Nat.ltb]. rewrite Hcw.
    destruct (pixel_in_image w h i Hw Hi) as [Hx Hy].
    apply Nat.ltb_lt in Hx, Hy. rewrite Hx, Hy. cbn -[Canvas.pixelX Canvas.pixelY Nat.ltb].
    rewrite pixel_index_eq by exact Hw. f_equal. now apply nth_lookup_Some.
  - rewrite !lookup_ge_None_2 by lia. reflexivity.
Qed.

Lemma getImageData_ok (c : Canvas.t) (sw sh : nat) :
  sw <> 0 -> sh <> 0 ->
  exists data, Canvas.getImageData c sw sh = Ok data /\ length data = sw * sh * 4.
Proof.
  intros Hw Hh. unfold Canvas.getImageData.
  apply Nat.eqb_neq in Hw, Hh. rewrite Hw, Hh. cbn.
  eexists. split; [reflexivity|]. now rewrite length_map, length_seq.
Qed.

Lemma getImageData_zero (c : Canvas.t) (sw sh : nat) :
  sw = 0 \/ sh = 0 -> Canvas.getImageData c sw sh = Error IndexSizeError.
Proof.
  unfold Canvas.getImageData. intros [-> | ->]; [reflexivity|].
  now rewrite orb_true_r.
Qed.

(** After [canvas.width = w; canvas.height = h] the bitmap is [w] by [h]
    pixels of transparent black. *)
Lemma setSize (c : Canvas.t) (w h : nat) :
  let c' := Canvas.setHeight (Canvas.setWidth c w) h in
  Canvas.width c' = w /\ Canvas.height c' = h /\ Canvas.bitmap c' = repeat 0%Z (w * h * 4).
Proof. repeat split. Qed.

Lemma demo_scene_ok (w h : nat) :
  exists sc, demo_scene w h = Ok sc /\ Scene.width sc = w /\ Scene.height sc = h.
Proof. eexists. split; [vm_compute; reflexivity|]. split; reflexivity. Qed.

Section PageTheorems.
Variable tan : float -> float.

(** C7: On a canvas whose layout size [w] by [h] is not zero, the
    callback succeeds, and leaves the canvas [w] by [h] with every byte
    of its bitmap written by [render]: for every pixel and channel, the
    byte at [x*4 + y*w*4 + k] is the clamped channel [k] of the colour
    [trace] gives the pixel's ray in the demo scene (alpha 255).  What
    the canvas showed before does not matter. *)
Theorem completed_shows_render (c : Canvas.t) :
  Canvas.scrollWidth c <> 0 -> Canvas.scrollHeight c <> 0 ->
  let w := Canvas.scrollWidth c in
  let h := Canvas.scrollHeight c in
  exists sc c', demo_scene w h = Ok sc /\ completed tan c = Ok c' /\
    Canvas.width c' = w /\ Canvas.height c' = h /\ length (Canvas.bitmap c') = w * h * 4 /\
    forall px py k, px < w -> py < h -> k < 4 ->
      exists color, trace sc (pixelRay sc (frame tan sc) px py) 0 = Some color /\
        Canvas.bitmap c' !! (pixelIndex w px py + k) = Some (pixelByte color k).
Proof.
  intros Hw0 Hh0 w h.
  destruct (getImageData_ok c w h Hw0 Hh0) as (data & Hg & Hl).
  destruct (demo_scene_ok w h) as (sc & Hsc & Hw & Hh).
  destruct (render_written tan sc data) as (data' & Hr & Hl' & Hpix); [rewrite Hw, Hh; exact Hl|].
  rewrite Hw, Hh in Hpix.
  set (c0 := Canvas.setHeight (Canvas.setWidth c w) h).
  destruct (setSize c w h) as (Hcw & Hch & Hcb). fold c0 in Hcw, Hch, Hcb.
  assert (Hb : Canvas.bitmap (Canvas.putImageData c0 data' w h) = data')
    by (apply putImageData_full; [exact Hw0|exact Hcw|rewrite Hcb, repeat_length; reflexivity|lia]).
  exists sc, (Canvas.putImageData c0 data' w h).
  split; [exact Hsc|]. split.
  - unfold completed. cbv zeta. fold w h. rewrite Hg. cbn [result_bind]. fold c0.
    rewrite Hsc. cbn [result_map_error result_bind]. unfold renderCanvas. now rewrite Hr, Hw, Hh.
  - rewrite Hb. split; [exact Hcw|]. split; [exact Hch|]. split; [lia|exact Hpix].
Qed.

(** C10: On a canvas whose layout width or height is 0 (a hidden or
    collapsed canvas), [getImageData] throws [IndexSizeError] and the
    callback stops before drawing anything. *)
Theorem completed_zero_size (c : Canvas.t) :
  Canvas.scrollWidth c = 0 \/ Canvas.scrollHeight c = 0 ->
  completed tan c = Error IndexSizeError.
Proof.
  intros H. unfold completed. cbv zeta. now rewrite getImageData_zero by exact H.
Qed.

End PageTheorems.

(** A 2 by 2 canvas, still at the default size 300 by 150. *)
Lemma completed_shows_render_witness :
  let c := Canvas.mk 2 2 300 150 [] in
  Canvas.scrollWidth c <> 0 /\
  exists sc c', demo_scene 2 2 = Ok sc /\ completed (fun f => f) c = Ok c' /\
    Canvas.width c' = 2 /\ Canvas.height c' = 2 /\ length (Canvas.bitmap c') = 2 * 2 * 4 /\
    forall px py k, px < 2 -> py < 2 -> k < 4 ->
      exists color, trace sc (pixelRay sc (frame (fun f => f) sc) px py) 0 = Some color /\
        Canvas.bitmap c' !! (pixelIndex 2 px py + k) = Some (pixelByte color k).
Proof.
  intros c. split; [discriminate|].
  exact (completed_shows_render (fun f => f) c ltac:(discriminate) ltac:(discriminate)).
Defined.

(** A canvas laid out with no width. *)
Lemma completed_zero_size_witness :
  let c := Canvas.mk 0 150 300 150 [] in
  Canvas.scrollWidth c = 0 /\ completed (fun f => f) c = Error IndexSizeError.
Proof.
  intros c. split; [reflexivity|].
  exact (completed_zero_size (fun f => f) c (or_introl eq_refl)).
Defined.
