(* ===== verification/Legacy.v ===== *)
(** * Legacy: the single-file build [src/application.js]

    [application.js] is an older copy of the program: the same [Vector]
    class (here [Legacy.Vector'], the methods of [Vector3] at doubles),
    free functions [sphereIntersection(sphere, ray)] and
    [sphereNormal(sphere, position)] in place of the [Sphere] methods,
    scene objects written as object literals (no constructor, no
    defaults), and [intersectScene], [isLightVisible], [surface],
    [trace] and [render] whose text equals that of [src/src/main.js]
    except for the two calls.  Here the two free functions form the
    instance [literal_Shape], and the five functions are the tracer's
    definitions at that instance, as are its [onReady] and the callback
    [completed'] it is given, primed ([trace'] is the [trace] of
    [application.js]) to keep them apart from those of [main.js].

    The file holds definitions only: the tracer's theorems are stated
    for every [Shape] instance and so hold at [literal_Shape].  The demo
    scene literal keeps [ambient] 0.0 for the second sphere, which
    [new Sphere] in [main.js] turns into 0.1. *)

From Stdlib Require Import List ZArith Floats.
From S2P Require Import Prelude JsNumber Vector3 Shape Sphere Scene Intersector Tracer Render Scenarios Page Canvas.
Import ListNotations.

Local Set Warnings "-inexact-float".

Module Legacy.
Local Open Scope js_scope.

Definition sphereIntersection (sphere : Sphere.t float) (ray : Ray.t float) : option float :=
  let eyeToCenter := Vector.subtract (Sphere.point sphere) (Ray.point ray) in
  let v := Vector.dotProduct eyeToCenter (Ray.vector ray) in
  let eyeToObjectCenter := Vector.dotProduct eyeToCenter eyeToCenter in
  let discriminant := Sphere.radius sphere * Sphere.radius sphere - eyeToObjectCenter + v * v in
  if discriminant <? 0 then None else Some (v - js_sqrt discriminant).

Definition sphereNormal (sphere : Sphere.t float) (position : Vector float) : Vector float :=
  Vector.normalize (Vector.subtract position (Sphere.point sphere)).

Local Close Scope js_scope.

(** Objects are literals [{ type, point, color, specular, lambert,
    ambient, radius }] read field by field. *)
Definition literal_Shape : Shape float (Sphere.t float) := {|
  intersection := sphereIntersection;
  normal := sphereNormal;
  color := Sphere.color;
  specular := Sphere.specular;
  lambert := Sphere.lambert;
  ambient := Sphere.ambient |}.

Definition intersectScene' := @Intersector.intersectScene (Sphere.t float) literal_Shape.
Definition isLightVisible' := @Intersector.isLightVisible (Sphere.t float) literal_Shape.
Definition surface' := @Tracer.surface (Sphere.t float) literal_Shape.
Definition trace' := @Tracer.trace (Sphere.t float) literal_Shape.
Definition render' := @Render.render (Sphere.t float) literal_Shape.

Local Open Scope float_scope.

(** The [scene] literal of the legacy [onReady]. *)
Definition scene (width height : nat) : Scene.t (Sphere.t float) :=
  Scene.mk width height
    (Camera.mk (Vector.new 0 1.8 10) 45 (Vector.new 0 3 0))
    [Vector.new (-30) (-10) 20]
    [Sphere.mk (Vector.new 0 3.5 (-3)) 3 (Vector.new 155 200 155) 0.2 0.7 0.1;
     Sphere.mk (Vector.new (-4) 2 (-1)) 0.2 (Vector.new 155 155 155) 0.1 0.9 0.0;
     Sphere.mk (Vector.new (-4) 3 (-1)) 0.1 Vector.WHITE 0.2 0.7 0.1].

(** Its [onReady] is the same code as that of [main.js]. *)
Definition onReady' := onReady.

(** The callback of its [onReady]: the same steps as [Canvas.completed],
    with the literal scene (which cannot throw) and its own [render]. *)
Definition completed' (tan : float -> float) (canvas : Canvas.t) : Result Canvas.t PageError :=
  (let width := Canvas.scrollWidth canvas in
   let height := Canvas.scrollHeight canvas in
   let! data := Canvas.getImageData canvas width height in
   let canvas := Canvas.setHeight (Canvas.setWidth canvas width) height in
   let scene := scene width height in
   match render' tan scene data with
   | Some data => Ok (Canvas.putImageData canvas data width height)
   | None => Error TypeError
   end)%result.

(** Its [Vector] class, whose text is that of [src/src/vector.js]: the
    same methods at doubles. *)
Module Vector'.
Definition new := @Vector.new float float_JsNum.
Definition UP := @Vector.UP float float_JsNum.
Definition WHITE := Vector.WHITE.
Definition ZERO := @Vector.ZERO float float_JsNum.
Definition add := @Vector.add float float_JsNum.
Definition add3 := @Vector.add3 float float_JsNum.
Definition crossProduct := @Vector.crossProduct float float_JsNum.
Definition dotProduct := @Vector.dotProduct float float_JsNum.
Definition length := @Vector.length float float_JsNum.
Definition normalize := @Vector.normalize float float_JsNum.
Definition reflectThrough := @Vector.reflectThrough float float_JsNum.
Definition scale := @Vector.scale float float_JsNum.
Definition subtract := @Vector.subtract float float_JsNum.
End Vector'.

End Legacy.
