(* ===== verification/Bundle.v ===== *)
(** * Bundle: the webpack runtime of [src/dist/bundle.js]

    The bundle is a function of the module table [modules] (an object
    from module ids to factories) that keeps a module cache
    [installedModules] and defines [__webpack_require__(moduleId)]:

    - a module already in the cache returns its [exports], whether or
      not its factory has finished ([l]);
    - otherwise an entry [{ i: moduleId, l: false, exports: {} }] is put
      into the cache first, the factory runs (requiring the modules it
      imports, in order), [l] becomes [true] and the exports are returned;
    - a module id that is not in the table makes [modules[moduleId].call]
      throw a [TypeError], after its cache entry was made, and an error
      thrown while a factory runs propagates, leaving [l] [false].

    Here the cache is a [gmap] from ids to entries, a factory is the list
    of modules it requires at its top level (the only part of a factory
    the runtime sees), an [exports] object is named by its module id, and
    [executed] records the order in which factories finish.  The
    recursion of [__webpack_require__] is bounded by fuel; the theorems
    show that the number of table modules not yet cached, plus one, is
    always enough.  [bundle_modules] is the table of [bundle.js]. *)

From stdpp Require Import base gmap strings list fin_maps.
From S2P Require Import Prelude.

Module Webpack.

(** An entry of [installedModules]: [{ i, l, exports }]. *)
Record module := mk_module { i : string; l : bool }.

Record state := mk_state {
  installedModules : gmap string module;
  executed : list string }.

Section Runtime.
(** The module table, the argument of the bundle's outer function: the
    modules each factory requires, in order. *)
Variable modules : gmap string (list string).

(** [modules[moduleId].call(...)]: the factory's top-level requires, in
    order, stopping at the first that throws. *)
Fixpoint requireAll (require : string -> state -> option (state * Result string string))
    (deps : list string) (st : state) : option (state * Result unit string) :=
  match deps with
  | [] => Some (st, Ok tt)
  | d :: ds =>
    match require d st with
    | None => None
    | Some (st', Error e) => Some (st', Error e)
    | Some (st', Ok _) => requireAll require ds st'
    end
  end.

(** [__webpack_require__(moduleId)]: [Ok] with the exports (named by the
    module id) or [Error] with the id whose factory was missing; [None]
    when the fuel runs out. *)
Fixpoint webpack_require (fuel : nat) (moduleId : string) (st : state)
    : option (state * Result string string) :=
  match fuel with
  | 0 => None
  | S fuel =>
    match installedModules st !! moduleId with
    | Some _ => Some (st, Ok moduleId)
    | None =>
      let st := mk_state (<[moduleId := mk_module moduleId false]> (installedModules st))
                  (executed st) in
      match modules !! moduleId with
      | None => Some (st, Error moduleId)
      | Some deps =>
        match requireAll (webpack_require fuel) deps st with
        | None => None
        | Some (st, Error e) => Some (st, Error e)
        | Some (st, Ok _) =>
          Some (mk_state (<[moduleId := mk_module moduleId true]> (installedModules st))
                  (executed st ++ [moduleId]), Ok moduleId)
        end
      end
    end
  end.

End Runtime.

(** The table of [bundle.js]: every factory with the modules it
    requires at its top level. *)
Definition bundle_modules : gmap string (list string) :=
  list_to_map [
    ("./node_modules/css-loader/dist/cjs.js!./src/main.css",
       ["./node_modules/css-loader/dist/runtime/api.js"]);
    ("./node_modules/css-loader/dist/runtime/api.js", []);
    ("./node_modules/style-loader/lib/addStyles.js", ["./node_modules/style-loader/lib/urls.js"]);
    ("./node_modules/style-loader/lib/urls.js", []);
    ("./src/app.js", ["./src/main.js"; "./src/main.css"]);
    ("./src/main.css", ["./node_modules/css-loader/dist/cjs.js!./src/main.css";
                        "./node_modules/style-loader/lib/addStyles.js"]);
    ("./src/main.js", ["./src/vector.js"; "./src/sphere.js"]);
    ("./src/shape.js", []);
    ("./src/sphere.js", ["./src/vector.js"; "./src/shape.js"]);
    ("./src/vector.js", [])]%string.

(** [return __webpack_require__(__webpack_require__.s = "./src/app.js")]
    on the empty cache. *)
Definition bundle (fuel : nat) : option (state * Result string string) :=
  webpack_require bundle_modules fuel "./src/app.js" (mk_state ∅ []).

End Webpack.

(** ** The cache *)

Import Webpack.

(** Entries already in the cache are never changed, and factories that
    finished stay recorded: a later state extends an earlier one. *)
Definition grows (st st' : state) : Prop :=
  (forall k m, installedModules st !! k = Some m -> installedModules st' !! k = Some m) /\
  exists new, executed st' = executed st ++ new.

(** The cache is well formed: an entry is named by its id, and the
    modules whose factory finished are, once each, exactly the entries
    with [l = true]. *)
Definition wf (st : state) : Prop :=
  NoDup (executed st) /\
  (forall id, In id (executed st) <-> installedModules st !! id = Some (mk_module id true)) /\
  (forall id m, installedModules st !! id = Some m -> i m = id).

Lemma grows_refl (st : state) : grows st st.
Proof. split; [auto|]. exists []. now rewrite app_nil_r. Qed.

Lemma grows_trans (st1 st2 st3 : state) : grows st1 st2 -> grows st2 st3 -> grows st1 st3.
Proof.
  intros [H12 [n1 E1]] [H23 [n2 E2]]. split; [auto|].
  exists (n1 ++ n2). now rewrite E2, E1, app_assoc.
Qed.

#[export] Hint Resolve grows_refl grows_trans : raytrace.

(** Reduce the projections of a state built with [mk_state]. *)
Ltac proj := unfold wf, grows in *; cbn -[lookup insert app] in *.

Lemma NoDup_snoc {A} (l : list A) (x : A) : NoDup l -> ~ In x l -> NoDup (l ++ [x]).
Proof.
  intros Hn Hx. apply NoDup_app. split; [exact Hn|]. split; [|apply NoDup_singleton].
  intros y Hy ->%list_elem_of_singleton. apply Hx, list_elem_of_In, Hy.
Qed.

Section Preservation.
Variable modules : gmap string (list string).

(** What one call keeps: the state grows, and stays well formed. *)
Definition keeps (st st' : state) : Prop := grows st st' /\ (wf st -> wf st').

Lemma keeps_trans (st1 st2 st3 : state) : keeps st1 st2 -> keeps st2 st3 -> keeps st1 st3.
Proof. intros [G1 W1] [G2 W2]. split; [eauto with raytrace|tauto]. Qed.

Lemma requireAll_keeps (req : string -> state -> option (state * Result string string)) :
  (forall d st st' r, req d st = Some (st', r) -> keeps st st') ->
  forall deps st st' r, requireAll req deps st = Some (st', r) -> keeps st st'.
Proof.
  intros Hreq deps. induction deps as [|d ds IH]; intros st st' r E; cbn in E.
  - injection E as <- _. split; [apply grows_refl|auto].
  - destruct (req d st) as [[st1 [x|e]]|] eqn:Ed; try discriminate.
    + eapply keeps_trans; [eapply Hreq, Ed|]. eapply IH, E.
    + injection E as <- _. eapply Hreq, Ed.
Qed.

(** Putting the fresh entry [{ i: moduleId, l: false }] into the cache. *)
Lemma insert_fresh_keeps (st : state) (id : string) :
  installedModules st !! id = None ->
  keeps st (mk_state (<[id := mk_module id false]> (installedModules st)) (executed st)).
Proof.
  intros Hnone. split.
  - split; [|exists []; now rewrite app_nil_r].
    intros k m Hk. proj. rewrite lookup_insert_ne; [exact Hk|congruence].
  - intros (Hnd & Hex & Hi). proj. split; [exact Hnd|]. split.
    + intros k. destruct (decide (id = k)) as [<-|Hne].
      * rewrite lookup_insert_eq. split; [|discriminate].
        intros Hin. apply Hex in Hin. congruence.
      * rewrite lookup_insert_ne by exact Hne. apply Hex.
    + intros k m. destruct (decide (id = k)) as [<-|Hne].
      * rewrite lookup_insert_eq. now intros [= <-].
      * rewrite lookup_insert_ne by exact Hne. apply Hi.
Qed.

(** Marking [moduleId] loaded when its entry, made fresh at the start
    of the call, is still [l = false]. *)
Lemma finish_keeps (st0 st : state) (id : string) :
  installedModules st0 !! id = None ->
  installedModules st !! id = Some (mk_module id false) -> keeps st0 st ->
  keeps st0 (mk_state (<[id := mk_module id true]> (installedModules st)) (executed st ++ [id])).
Proof.
  intros Hnone Hfalse [[Hg [n En]] Hw]. split.
  - split; [|exists (n ++ [id]);  proj; now rewrite En, app_assoc].
    intros k m Hk. proj. rewrite lookup_insert_ne; [now apply Hg|congruence].
  - intros Hw0. destruct (Hw Hw0) as (Hnd & Hex & Hi). proj.
    assert (Hnin : ~ In id (executed st)) by (intros Hin; apply Hex in Hin; congruence).
    split; [now apply NoDup_snoc|].
    split.
    + intros k. rewrite in_app_iff. destruct (decide (id = k)) as [<-|Hne].
      * rewrite lookup_insert_eq. split; [auto|]. intros _. right. now left.
      * rewrite lookup_insert_ne by exact Hne. proj. rewrite (Hex k). intuition congruence.
    + intros k m. destruct (decide (id = k)) as [<-|Hne].
      * rewrite lookup_insert_eq. now intros [= <-].
      * rewrite lookup_insert_ne by exact Hne. apply Hi.
Qed.

Lemma require_keeps (fuel : nat) :
  forall id st st' r, webpack_require modules fuel id st = Some (st', r) -> keeps st st'.
Proof.
  induction fuel as [|fuel IH]; intros id st st' r E; cbn in E; [discriminate|].
  destruct (installedModules st !! id) eqn:Hc.
  - injection E as <- _. split; [apply grows_refl|auto].
  - pose proof (insert_fresh_keeps st id Hc) as K1.
    destruct (modules !! id) as [deps|].
    + destruct (requireAll (webpack_require modules fuel) deps _) as [[st2 [x|e]]|] eqn:Ea;
        try discriminate.
      * injection E as <- _. pose proof (requireAll_keeps _ IH deps _ _ _ Ea) as K2.
        apply finish_keeps; [exact Hc| |eapply keeps_trans; eauto].
        destruct K2 as [[Hg _] _]. apply Hg. proj. apply lookup_insert_eq.
      * injection E as <- _. eapply keeps_trans; [exact K1|eapply requireAll_keeps; eauto].
    + injection E as <- _. exact K1.
Qed.

End Preservation.

(** ** Termination *)

(** The table modules not yet in the cache. *)
Definition pending (modules : gmap string (list string)) (st : state) : nat :=
  size (dom modules ∖ dom (installedModules st)).

Lemma grows_pending (modules : gmap string (list string)) (st st' : state) :
  grows st st' -> pending modules st' <= pending modules st.
Proof.
  intros [Hg _]. unfold pending. apply subseteq_size.
  assert (dom (installedModules st) ⊆ dom (installedModules st')).
  { intros k [m Hk]%elem_of_dom. apply elem_of_dom. exists m. now apply Hg. }
  set_solver.
Qed.

(** Caching a table module that was not cached lowers [pending]. *)
Lemma pending_insert (modules : gmap string (list string)) (st : state) (id : string) (m : module)
    (deps : list string) :
  modules !! id = Some deps -> installedModules st !! id = None ->
  pending modules (mk_state (<[id := m]> (installedModules st)) (executed st)) <
  pending modules st.
Proof.
  intros Hm Hc. unfold pending. cbn [installedModules]. rewrite dom_insert_L.
  apply subset_size.
  assert (id ∈ dom modules) by (apply elem_of_dom; eauto).
  assert (id ∉ dom (installedModules st)) by (apply not_elem_of_dom; exact Hc).
  split; [set_solver|]. intros Hsub. specialize (Hsub id). set_solver.
Qed.

Lemma requireAll_total (modules : gmap string (list string))
    (req : string -> state -> option (state * Result string string)) (f : nat) :
  (forall d st, pending modules st < f -> req d st <> None) ->
  (forall d st st' r, req d st = Some (st', r) -> grows st st') ->
  forall deps st, pending modules st < f -> requireAll req deps st <> None.
Proof.
  intros Htot Hg deps. induction deps as [|d ds IH]; intros st Hp; cbn; [discriminate|].
  destruct (req d st) as [[st1 [x|e]]|] eqn:Ed; [|discriminate|now apply Htot in Ed].
  apply IH. pose proof (grows_pending modules _ _ (Hg _ _ _ _ Ed)). lia.
Qed.

(** C12: [__webpack_require__] terminates: with more fuel than there are
    table modules not yet in the cache, it returns or throws, whatever
    the table (cycles included, since a module is cached before its
    factory runs). *)
Theorem require_total (modules : gmap string (list string)) (fuel : nat) :
  forall id st, pending modules st < fuel -> webpack_require modules fuel id st <> None.
Proof.
  induction fuel as [|f IH]; intros id st Hp; [lia|]. cbn -[lookup insert].
  destruct (installedModules st !! id) eqn:Hc; [discriminate|].
  destruct (modules !! id) as [deps|] eqn:Hm; [|discriminate].
  pose proof (pending_insert modules st id (mk_module id false) deps Hm Hc) as Hlt.
  assert (Hall : requireAll (webpack_require modules f) deps
                   (mk_state (<[id := mk_module id false]> (installedModules st)) (executed st))
                 <> None).
  { apply (requireAll_total modules _ f); [exact IH| |lia].
    intros d st0 st0' r E. exact (proj1 (require_keeps modules f d st0 st0' r E)). }
  destruct (requireAll _ deps _) as [[st2 [x|e]]|]; [discriminate|discriminate|contradiction].
Qed.

(** ** The cache invariant and errors *)

(** C11: Each call of [__webpack_require__] keeps the cache well formed
    and only extends it: entries already cached are never changed, the
    factories that finished are exactly the entries with [l = true], and
    each of them finished once. *)
Theorem require_wf (modules : gmap string (list string)) (fuel : nat) (id : string)
    (st st' : state) (r : Result string string) :
  wf st -> webpack_require modules fuel id st = Some (st', r) -> wf st' /\ grows st st'.
Proof. intros Hw E. destruct (require_keeps modules fuel id st st' r E) as [G W]. auto. Qed.

Lemma require_caches (modules : gmap string (list string)) (fuel : nat) (id : string)
    (st st' : state) (r : Result string string) :
  webpack_require modules fuel id st = Some (st', r) -> is_Some (installedModules st' !! id).
Proof.
  destruct fuel as [|f]; cbn -[lookup insert]; [discriminate|].
  destruct (installedModules st !! id) eqn:Hc; [intros [= <- _]; eauto|].
  intros E. pose proof (insert_fresh_keeps st id Hc) as [[Hg _] _].
  destruct (modules !! id) as [deps|].
  - destruct (requireAll _ deps _) as [[st2 [x|e]]|] eqn:Ea; try discriminate.
    + injection E as <- _. cbn -[lookup insert]. rewrite lookup_insert_eq. eauto.
    + injection E as <- _.
      destruct (requireAll_keeps _ (require_keeps modules f) deps _ _ _ Ea) as [[Hg2 _] _].
      eexists. apply Hg2. cbn -[lookup insert]. apply lookup_insert_eq.
  - injection E as <- _. cbn -[lookup insert]. rewrite lookup_insert_eq. eauto.
Qed.

(** C13: A require that throws (a missing factory, or one missing among
    the modules it imports) leaves its module in the cache with its
    factory unfinished; every later require of that module then returns
    its exports at once, without an error and without running anything:
    the failure is reported once, and the half-initialised module is
    handed out afterwards. *)
Theorem require_throws_once (modules : gmap string (list string)) (fuel g : nat) (id e : string)
    (st st' : state) :
  webpack_require modules fuel id st = Some (st', Error e) ->
  webpack_require modules (S g) id st' = Some (st', Ok id).
Proof.
  intros E. destruct (require_caches modules fuel id st st' _ E) as [m Hm].
  cbn -[lookup insert]. now rewrite Hm.
Qed.

Lemma wf_empty : wf (mk_state ∅ []).
Proof.
  proj. split; [constructor|]. split.
  - intros id. rewrite lookup_empty. split; [intros []|discriminate].
  - intros id m. rewrite lookup_empty. discriminate.
Qed.

(** A table of one module without imports. *)
Definition single_module : gmap string (list string) := {["a" := []]}%string.

Lemma require_wf_witness :
  wf (mk_state ∅ []) /\
  webpack_require single_module 2 "a" (mk_state ∅ []) =
    Some (mk_state {["a" := mk_module "a" true]} ["a"], Ok "a")%string /\
  (wf (mk_state {["a" := mk_module "a" true]} ["a"]%string) /\
   grows (mk_state ∅ []) (mk_state {["a" := mk_module "a" true]} ["a"]%string)).
Proof.
  assert (E : webpack_require single_module 2 "a" (mk_state ∅ []) =
                Some (mk_state {["a" := mk_module "a" true]} ["a"], Ok "a")%string)
    by (vm_compute; reflexivity).
  split; [exact wf_empty|]. split; [exact E|].
  exact (require_wf single_module 2 "a" _ _ _ wf_empty E).
Defined.

Lemma require_total_witness :
  pending bundle_modules (mk_state ∅ []) < 11 /\
  webpack_require bundle_modules 11 "./src/app.js" (mk_state ∅ []) <> None.
Proof.
  assert (Hp : pending bundle_modules (mk_state ∅ []) < 11) by (vm_compute; lia).
  split; [exact Hp|]. exact (require_total bundle_modules 11 "./src/app.js" _ Hp).
Defined.

(** [app.js] importing a module the table lacks: the first require
    throws, the second returns [app.js]'s exports. *)
Definition broken_modules : gmap string (list string) :=
  {["./src/app.js" := ["./src/missing.js"]]}%string.

Lemma require_throws_once_witness :
  let st1 := mk_state {["./src/missing.js" := mk_module "./src/missing.js" false;
                        "./src/app.js" := mk_module "./src/app.js" false]} [] in
  webpack_require broken_modules 3 "./src/app.js" (mk_state ∅ []) =
    Some (st1, Error "./src/missing.js")%string /\
  webpack_require broken_modules 1 "./src/app.js" st1 = Some (st1, Ok "./src/app.js")%string.
Proof.
  intros st1.
  assert (E : webpack_require broken_modules 3 "./src/app.js" (mk_state ∅ []) =
                Some (st1, Error "./src/missing.js")%string) by (vm_compute; reflexivity).
  split; [exact E|]. exact (require_throws_once broken_modules 3 0 _ _ _ _ E).
Defined.
