(* ===== verification/Harmony.v ===== *)
(** * Harmony: the interop helpers of the webpack runtime

    Besides [__webpack_require__] (file [Bundle]), the runtime of
    [src/dist/bundle.js] gives the compiled modules helpers that work on
    their [exports] objects:
    - [.o(object, property)]: [hasOwnProperty];
    - [.d(exports, name, getter)]: an enumerable getter for a harmony
      export, unless the property is already own;
    - [.r(exports)]: marks an ES module ([__esModule] and, when the host
      has symbols, [Symbol.toStringTag] = "Module");
    - [.n(module)]: the default import of a module, an ES module or a
      CommonJS one, as a getter function whose property [a] reads it;
    - [.t(value, mode)]: a namespace object, by the bits of [mode].
    Every ES module of the bundle calls [.r] first, and [src/app.js]
    imports the CommonJS module of [main.css] through [.n].

    These read and write JavaScript objects, so the file has a heap:
    locations to objects, an object being its own properties (data or
    accessor, enumerable or not) and, for a function, what a call does.
    The functions the helpers create are the three closures of the
    source ([getDefault], [getModuleExports], the getter [.t] binds to a
    key).  A property read [get] follows the own properties only: the
    prototypes involved ([Object.prototype], [Function.prototype]) have
    none of the keys the helpers read, and a read of a property of a
    primitive other than [undefined] and [null] (whose read throws) is
    [undefined]; a getter can call a getter, so a read takes fuel.
    [Object.defineProperty] is an insertion: the runtime calls it on
    fresh objects or on keys it has checked are absent.  The order in
    which [for (var key in value)] visits keys is not modelled, and no
    theorem depends on it. *)

From stdpp Require Import base gmap strings list fin_maps countable.
From Stdlib Require Import ZArith.
From S2P Require Import Prelude JsNumber JsValue.

Module Harmony.

Local Open Scope result_scope.

Definition loc := positive.

(** Property keys: strings and the one symbol the runtime uses. *)
Inductive key := Named (s : string) | toStringTag.

#[export] Instance key_eq_dec : EqDecision key.
Proof. solve_decision. Defined.

#[export] Instance key_countable : Countable key.
Proof.
  refine (inj_countable' (λ k, match k with Named s => Some s | toStringTag => None end)
            (λ o, match o with Some s => Named s | None => toStringTag end) _).
  by intros [].
Defined.

(** JavaScript values: a primitive, or a reference to an object. *)
Inductive val := Prim (v : value) | Ref (l : loc).

(** The closures the helpers create: [function getDefault() { return
    module['default']; }], [function getModuleExports() { return module;
    }], and [function(key) { return value[key]; }.bind(null, key)]. *)
Inductive fn :=
| getDefault (module : val)
| getModuleExports (module : val)
| boundGetter (value : val) (k : string).

Inductive prop :=
| Data (enumerable : bool) (v : val)
| Accessor (enumerable : bool) (getter : val).

Record obj := mk_obj { props : gmap key prop; call : option fn }.

Abbreviation heap := (gmap loc obj).

Inductive error := OutOfFuel | TypeError.

(** ** The language's operations *)

Definition truthy_val (v : val) : bool :=
  match v with Prim p => truthy_value p | Ref _ => true end.

Definition typeof (h : heap) (v : val) : string :=
  match v with
  | Prim Undefined => "undefined"
  | Prim Null => "object"
  | Prim (Bool _) => "boolean"
  | Prim (Num _) => "number"
  | Prim (Str _) => "string"
  | Ref l =>
      match h !! l with
      | Some (mk_obj _ (Some _)) => "function"
      | _ => "object"
      end
  end.

(** [v[k]]: an accessor calls its getter. *)
Fixpoint get (fuel : nat) (h : heap) (v : val) (k : key) : Result val error :=
  match fuel with
  | 0 => Error OutOfFuel
  | S fuel =>
      match v with
      | Prim Undefined | Prim Null => Error TypeError
      | Prim _ => Ok (Prim Undefined)
      | Ref l =>
          match h !! l with
          | None => Error TypeError
          | Some ob =>
              match props ob !! k with
              | None => Ok (Prim Undefined)
              | Some (Data _ x) => Ok x
              | Some (Accessor _ (Ref g)) =>
                  match h !! g with
                  | Some (mk_obj _ (Some (getDefault m))) => get fuel h m (Named "default")
                  | Some (mk_obj _ (Some (getModuleExports m))) => Ok m
                  | Some (mk_obj _ (Some (boundGetter x k'))) => get fuel h x (Named k')
                  | _ => Error TypeError
                  end
              | Some (Accessor _ (Prim _)) => Error TypeError
              end
          end
      end
  end.

(** A new object at a location not in use. *)
Definition alloc (ob : obj) (h : heap) : loc * heap :=
  let l := fresh (dom h) in (l, <[l := ob]> h).

Definition defineProperty (h : heap) (l : loc) (k : key) (p : prop) : heap :=
  match h !! l with
  | Some ob => <[l := mk_obj (<[k := p]> (props ob)) (call ob)]> h
  | None => h
  end.

(** The keys [for (var key in value)] visits: the enumerable string
    keys of the object. *)
Definition enumerableKeys (h : heap) (v : val) : list string :=
  match v with
  | Ref l =>
      match h !! l with
      | Some ob =>
          omap (λ kp : key * prop,
                  match kp with
                  | (Named s, Data true _) | (Named s, Accessor true _) => Some s
                  | _ => None
                  end) (map_to_list (props ob))
      | None => []
      end
  | Prim _ => []
  end.

(** ** The helpers *)

(** [__webpack_require__.o] *)
Definition o (h : heap) (object : loc) (property : key) : bool :=
  match h !! object with
  | Some ob => bool_decide (is_Some (props ob !! property))
  | None => false
  end.

(** [__webpack_require__.d] *)
Definition d (h : heap) (exports : loc) (name : string) (getter : val) : heap :=
  if o h exports (Named name) then h
  else defineProperty h exports (Named name) (Accessor true getter).

Section Host.
(** [typeof Symbol !== 'undefined' && Symbol.toStringTag] *)
Variable hasSymbol : bool.

(** [__webpack_require__.r] *)
Definition r (h : heap) (exports : loc) : heap :=
  let h := if hasSymbol
           then defineProperty h exports toStringTag (Data false (Prim (Str "Module")))
           else h in
  defineProperty h exports (Named "__esModule") (Data false (Prim (Bool true))).

(** [module && module.__esModule], as a condition. *)
Definition isESModule (fuel : nat) (h : heap) (module : val) : Result bool error :=
  if truthy_val module then
    let! e := get fuel h module (Named "__esModule") in Ok (truthy_val e)
  else Ok false.

(** [__webpack_require__.n] *)
Definition n (fuel : nat) (h : heap) (module : val) : Result (heap * val) error :=
  let! esm := isESModule fuel h module in
  let f := if esm then getDefault module else getModuleExports module in
  let (getter, h) := alloc (mk_obj ∅ (Some f)) h in
  Ok (d h getter "a" (Ref getter), Ref getter).

(** [mode & b], as a condition. *)
Definition bit (mode b : Z) : bool := negb (Z.land mode b =? 0)%Z.

Section Namespace.
(** [__webpack_require__] itself, on the heap. *)
Variable require : val -> heap -> Result (heap * val) error.

(** [(mode & 4) && typeof value === 'object' && value && value.__esModule],
    as a condition. *)
Definition returnsValue (fuel : nat) (h : heap) (value : val) (mode : Z) : Result bool error :=
  if bit mode 4 && bool_decide (typeof h value = "object") && truthy_val value then
    let! e := get fuel h value (Named "__esModule") in Ok (truthy_val e)
  else Ok false.

(** [for(var key in value) __webpack_require__.d(ns, key, function(key)
    { return value[key]; }.bind(null, key))]: the bound function is
    created before [.d] looks at [ns]. *)
Definition defineGetters (value : val) (ns : loc) (keys : list string) (h : heap) : heap :=
  fold_left (λ h key,
      let (g, h) := alloc (mk_obj ∅ (Some (boundGetter value key))) h in
      d h ns key (Ref g)) keys h.

(** [__webpack_require__.t] *)
Definition t (fuel : nat) (h : heap) (value : val) (mode : Z) : Result (heap * val) error :=
  let! hv := (if bit mode 1 then require value h else Ok (h, value)) in
  let (h, value) := hv in
  if bit mode 8 then Ok (h, value) else
  let! isNs := returnsValue fuel h value mode in
  if isNs then Ok (h, value) else
  let (ns, h) := alloc (mk_obj ∅ None) h in
  let h := r h ns in
  let h := defineProperty h ns (Named "default") (Data true value) in
  let h := if bit mode 2 && negb (bool_decide (typeof h value = "string"))
           then defineGetters value ns (enumerableKeys h value) h else h in
  Ok (h, Ref ns).

End Namespace.

End Host.

End Harmony.

Import Harmony.

(** ** Reads, definitions and allocation *)

(** What a call of one of the closures returns. *)
Definition invoke (fuel : nat) (h : heap) (f : fn) : Result val error :=
  match f with
  | getDefault m => get fuel h m (Named "default")
  | getModuleExports m => Ok m
  | boundGetter x k => get fuel h x (Named k)
  end.

Lemma alloc_fresh (h : heap) : h !! fresh (dom h) = None.
Proof. apply (not_elem_of_dom (D := gset loc)), is_fresh. Qed.

Lemma alloc_subseteq (h : heap) (ob : obj) : h ⊆ <[fresh (dom h) := ob]> h.
Proof. apply insert_subseteq, alloc_fresh. Qed.

Lemma get_data (fuel : nat) (h : heap) (l : loc) (ob : obj) (k : key) (e : bool) (x : val) :
  h !! l = Some ob -> props ob !! k = Some (Data e x) -> get (S fuel) h (Ref l) k = Ok x.
Proof. intros Hl Hk. cbn. by rewrite Hl, Hk. Qed.

Lemma get_accessor (fuel : nat) (h : heap) (l g : loc) (ob : obj) (k : key) (e : bool)
    (ps : gmap key prop) (f : fn) :
  h !! l = Some ob -> props ob !! k = Some (Accessor e (Ref g)) ->
  h !! g = Some (mk_obj ps (Some f)) -> get (S fuel) h (Ref l) k = invoke fuel h f.
Proof. intros Hl Hk Hg. cbn. rewrite Hl, Hk, Hg. by destruct f. Qed.

Lemma defineProperty_eq (h : heap) (l : loc) (ob : obj) (k : key) (p : prop) :
  h !! l = Some ob ->
  defineProperty h l k p = <[l := mk_obj (<[k := p]> (props ob)) (call ob)]> h.
Proof. intros Hl. unfold defineProperty. by rewrite Hl. Qed.

Lemma defineProperty_ne (h : heap) (l l' : loc) (k : key) (p : prop) :
  l' ≠ l -> defineProperty h l k p !! l' = h !! l'.
Proof.
  intros Hne. unfold defineProperty. destruct (h !! l); [by rewrite lookup_insert_ne|done].
Qed.

Lemma d_absent (h : heap) (l : loc) (ob : obj) (name : string) (g : val) :
  h !! l = Some ob -> props ob !! Named name = None ->
  d h l name g = <[l := mk_obj (<[Named name := Accessor true g]> (props ob)) (call ob)]> h.
Proof.
  intros Hl Hn. unfold d, o. rewrite Hl, Hn, bool_decide_eq_false_2 by apply is_Some_None.
  by apply defineProperty_eq.
Qed.

Lemma d_own (h : heap) (l : loc) (ob : obj) (name : string) (g : val) :
  h !! l = Some ob -> is_Some (props ob !! Named name) -> d h l name g = h.
Proof. intros Hl Hn. unfold d, o. by rewrite Hl, bool_decide_eq_true_2. Qed.

Lemma d_missing (h : heap) (l : loc) (name : string) (g : val) :
  h !! l = None -> d h l name g = h.
Proof. intros Hl. unfold d, o, defineProperty. by rewrite Hl. Qed.

(** The getter [.n] returns, with its property [a]. *)
Definition default_getter (esm : bool) (m : val) (g : loc) : obj :=
  mk_obj {[Named "a" := Accessor true (Ref g)]}
         (Some (if esm then getDefault m else getModuleExports m)).

Lemma n_ok (fuel : nat) (h : heap) (m : val) (esm : bool) :
  isESModule fuel h m = Ok esm ->
  n fuel h m = Ok (<[fresh (dom h) := default_getter esm m (fresh (dom h))]> h,
                   Ref (fresh (dom h))).
Proof.
  intros E. unfold n. rewrite E. cbn [result_bind]. unfold alloc.
  rewrite (d_absent _ _ (mk_obj ∅ (Some (if esm then getDefault m else getModuleExports m))))
    by (rewrite ?lookup_insert_eq; done).
  cbn [props call]. by rewrite insert_insert_eq, insert_empty.
Qed.

(** Reading [a] calls the getter, on any heap that keeps it. *)
Lemma default_getter_reads (h : heap) (g : loc) (esm : bool) (m : val) (fuel : nat) :
  h !! g = Some (default_getter esm m g) ->
  get (S fuel) h (Ref g) (Named "a") =
  if esm then get fuel h m (Named "default") else Ok m.
Proof.
  intros Hg. unfold default_getter in Hg.
  erewrite (get_accessor fuel h g g); [|exact Hg|apply lookup_singleton_eq|exact Hg].
  by destruct esm.
Qed.

(** [.r] adds [__esModule] (and the tag) to the object, and changes no
    other string key of it and no other object. *)
Lemma r_eq (hs : bool) (h : heap) (l : loc) (ob : obj) :
  h !! l = Some ob ->
  exists ps, r hs h l = <[l := mk_obj ps (call ob)]> h /\
    ps !! Named "__esModule" = Some (Data false (Prim (Bool true))) /\
    (forall s, s ≠ "__esModule" -> ps !! Named s = props ob !! Named s).
Proof.
  intros Hl. unfold r. destruct hs; cbv beta iota zeta;
    rewrite (defineProperty_eq h l ob) by exact Hl.
  - rewrite (defineProperty_eq _ l (mk_obj (<[toStringTag := Data false (Prim (Str "Module"))]>
                                             (props ob)) (call ob)))
      by apply lookup_insert_eq.
    rewrite insert_insert_eq. cbn [props call]. eexists. split; [reflexivity|].
    split; [apply lookup_insert_eq|]. intros s Hs. by rewrite !lookup_insert_ne by congruence.
  - eexists. split; [reflexivity|]. cbn [props].
    split; [apply lookup_insert_eq|]. intros s Hs. by rewrite !lookup_insert_ne by congruence.
Qed.

Lemma isESModule_r (hs : bool) (fuel : nat) (h : heap) (l : loc) (ob : obj) :
  h !! l = Some ob -> isESModule (S fuel) (r hs h l) (Ref l) = Ok true.
Proof.
  intros Hl. destruct (r_eq hs h l ob Hl) as (ps & -> & Hes & _). unfold isESModule. cbn [truthy_val].
  by rewrite (get_data fuel _ l (mk_obj ps (call ob)) _ false (Prim (Bool true)))
    by (rewrite ?lookup_insert_eq; done).
Qed.

(** ** What the helpers promise *)

(** C14: [.n(module)] evaluates [module && module.__esModule]: when that
    throws, [.n] throws the same; otherwise it returns a new function
    whose property [a] reads, on the heap at the time of the read, the
    [default] export of an ES module and the module itself otherwise.
    The heap is only extended. *)
Theorem n_default_import (fuel : nat) (h : heap) (m : val) :
  match isESModule fuel h m with
  | Error e => n fuel h m = Error e
  | Ok esm =>
      exists h' g, n fuel h m = Ok (h', Ref g) /\ h ⊆ h' /\
        forall h'' fuel', h' ⊆ h'' ->
          get (S fuel') h'' (Ref g) (Named "a") =
          if esm then get fuel' h'' m (Named "default") else Ok m
  end.
Proof.
  destruct (isESModule fuel h m) as [esm|e] eqn:E.
  - eexists _, _. split; [exact (n_ok fuel h m esm E)|]. split; [apply alloc_subseteq|].
    intros h'' fuel' Hsub. apply default_getter_reads.
    eapply lookup_weaken; [apply lookup_insert_eq|exact Hsub].
  - unfold n. by rewrite E.
Qed.

(** The default import of a module marked by [.r] reads its
    [default] export, whenever it is read: the [a] of the getter [.n]
    returns is a live binding. *)
Theorem esModule_default_import (hs : bool) (fuel : nat) (h : heap) (l : loc) (ob : obj) :
  h !! l = Some ob ->
  exists h' g, n (S fuel) (r hs h l) (Ref l) = Ok (h', Ref g) /\
    forall h'' fuel', h' ⊆ h'' ->
      get (S fuel') h'' (Ref g) (Named "a") = get fuel' h'' (Ref l) (Named "default").
Proof.
  intros Hl. eexists _, _. split; [exact (n_ok _ _ _ true (isESModule_r hs fuel h l ob Hl))|].
  intros h'' fuel' Hsub. apply (default_getter_reads _ _ true).
  eapply lookup_weaken; [apply lookup_insert_eq|exact Hsub].
Qed.

(** [.d] defines a harmony export once: a second definition of the
    same name on the same object changes nothing. *)
Theorem d_first_wins (h : heap) (l : loc) (name : string) (g1 g2 : val) :
  d (d h l name g1) l name g2 = d h l name g1.
Proof.
  destruct (h !! l) as [ob|] eqn:Hl.
  - destruct (props ob !! Named name) eqn:E.
    + by rewrite !(d_own h l ob) by (first [exact Hl | rewrite E; by eexists]).
    + rewrite (d_absent h l ob) by done. eapply d_own; [apply lookup_insert_eq|].
      cbn. by rewrite lookup_insert_eq.
  - by rewrite (d_missing h l name g1 Hl), (d_missing h l name g2 Hl).
Qed.

(** ** The namespace of [.t] *)

Lemma defineGetters_cons (value : val) (ns : loc) (k0 : string) (ks : list string) (h : heap) :
  defineGetters value ns (k0 :: ks) h =
  defineGetters value ns ks
    (d (<[fresh (dom h) := mk_obj ∅ (Some (boundGetter value k0))]> h) ns k0 (Ref (fresh (dom h)))).
Proof. reflexivity. Qed.

Lemma lookup_fresh_ne (h : heap) (l : loc) (ob : obj) : h !! l = Some ob -> fresh (dom h) ≠ l.
Proof. intros Hl E. rewrite <- E, alloc_fresh in Hl. discriminate. Qed.

(** The loop of [.t]: every key it visits that [ns] did not own gets a
    getter bound to that key; what [ns] owned, and every other object of
    the heap, is kept. *)
Lemma defineGetters_spec (value : val) (ns : loc) (ks : list string) (h : heap) (ob : obj) :
  h !! ns = Some ob ->
  let h' := defineGetters value ns ks h in
  exists ob', h' !! ns = Some ob' /\
    (forall k p, props ob !! k = Some p -> props ob' !! k = Some p) /\
    (forall l ob0, l ≠ ns -> h !! l = Some ob0 -> h' !! l = Some ob0) /\
    (forall k, k ∈ ks -> props ob !! Named k = None ->
       exists g ps, props ob' !! Named k = Some (Accessor true (Ref g)) /\
         h' !! g = Some (mk_obj ps (Some (boundGetter value k)))).
Proof.
  revert h ob. induction ks as [|k0 ks IH]; intros h ob Hns h'.
  { exists ob. split_and!; auto. intros k Hk. by apply not_elem_of_nil in Hk. }
  subst h'. rewrite defineGetters_cons.
  pose proof (lookup_fresh_ne h ns ob Hns) as Hg.
  assert (Hns1 : <[fresh (dom h) := mk_obj ∅ (Some (boundGetter value k0))]> h !! ns = Some ob)
    by by rewrite lookup_insert_ne.
  assert (Hkeep : forall l ob0, h !! l = Some ob0 ->
            <[fresh (dom h) := mk_obj ∅ (Some (boundGetter value k0))]> h !! l = Some ob0)
    by (intros l ob0 Hl; rewrite lookup_insert_ne; [exact Hl|exact (lookup_fresh_ne h l ob0 Hl)]).
  destruct (props ob !! Named k0) as [p0|] eqn:E.
  - rewrite (d_own _ ns ob) by (rewrite ?E; eauto).
    destruct (IH _ ob Hns1) as (ob' & Hob' & Hprops & Hother & Hnew).
    exists ob'. split_and!; [exact Hob'|exact Hprops|intros l ob0 Hl Hl0; apply Hother; auto|].
    intros k Hk Hnone. apply Hnew; [|exact Hnone].
    apply elem_of_cons in Hk as [->|Hk]; [congruence|exact Hk].
  - rewrite (d_absent _ ns ob) by done.
    match goal with |- context [defineGetters _ _ _ ?h2] =>
      destruct (IH h2 _ (lookup_insert_eq _ ns _)) as (ob' & Hob' & Hprops & Hother & Hnew) end.
    cbn [props call] in *. exists ob'. split_and!; [exact Hob'| | |].
    + intros k p Hk. apply Hprops. rewrite lookup_insert_ne; [exact Hk|congruence].
    + intros l ob0 Hl Hl0. apply Hother; [exact Hl|]. rewrite lookup_insert_ne by congruence. auto.
    + intros k Hk Hnone. destruct (decide (k = k0)) as [->|Hne].
      * exists (fresh (dom h)), ∅. split; [apply Hprops, lookup_insert_eq|].
        apply Hother; [exact Hg|]. by rewrite lookup_insert_ne, lookup_insert_eq.
      * apply Hnew; [by apply elem_of_cons in Hk as [->|]|].
        rewrite lookup_insert_ne; [exact Hnone|congruence].
Qed.

Lemma enumerableKeys_ref (h : heap) (v : val) (k : string) :
  k ∈ enumerableKeys h v -> exists l ob, v = Ref l /\ h !! l = Some ob.
Proof.
  destruct v as [p|l]; cbn [enumerableKeys]; [intros Hk; by apply not_elem_of_nil in Hk|].
  destruct (h !! l) as [ob|] eqn:Hl; [by eauto|intros Hk; by apply not_elem_of_nil in Hk].
Qed.

(** The namespace object before the loop: [.r] and [default]. *)
Lemma namespace_init (hs : bool) (h : heap) (value : val) :
  let ns := fresh (dom h) in
  exists ps,
    defineProperty (r hs (<[ns := mk_obj ∅ None]> h) ns) ns (Named "default") (Data true value) =
    <[ns := mk_obj ps None]> h /\
    ps !! Named "__esModule" = Some (Data false (Prim (Bool true))) /\
    ps !! Named "default" = Some (Data true value) /\
    (forall s, s ≠ "__esModule" -> s ≠ "default" -> ps !! Named s = None).
Proof.
  intros ns. destruct (r_eq hs (<[ns := mk_obj ∅ None]> h) ns (mk_obj ∅ None) (lookup_insert_eq _ _ _))
    as (ps & -> & Hes & Hother).
  rewrite (defineProperty_eq _ ns (mk_obj ps None)) by apply lookup_insert_eq.
  cbn [props call]. rewrite !insert_insert_eq. eexists. split; [reflexivity|].
  split_and!; [by rewrite lookup_insert_ne|apply lookup_insert_eq|].
  intros s Hs Hd. rewrite lookup_insert_ne by congruence. by rewrite Hother.
Qed.

(** [.t(value, mode)] without the bit 8 and when the bit 4 test
    does not return [value]: it returns a new object marked as an ES
    module whose [default] is [value] (after the [require] the bit 1
    asks for) and, with the bit 2, a getter for every enumerable key of
    [value] but [default] and [__esModule], which reads that key of
    [value] when it is read. *)
Theorem t_namespace (hs : bool) (require : val -> heap -> Result (heap * val) error)
    (fuel : nat) (h h1 : heap) (value v1 : val) (mode : Z) :
  (if bit mode 1 then require value h else Ok (h, value)) = Ok (h1, v1) ->
  bit mode 8 = false -> returnsValue fuel h1 v1 mode = Ok false ->
  exists h' ns, t hs require fuel h value mode = Ok (h', Ref ns) /\ h1 !! ns = None /\
    forall fuel', isESModule (S fuel') h' (Ref ns) = Ok true /\
      get (S fuel') h' (Ref ns) (Named "default") = Ok v1 /\
      (bit mode 2 = true -> forall k, k ∈ enumerableKeys h1 v1 -> k ≠ "default" ->
         k ≠ "__esModule" -> get (S fuel') h' (Ref ns) (Named k) = get fuel' h' v1 (Named k)).
Proof.
  intros Hreq H8 Hret. unfold t. rewrite Hreq. cbn [result_bind]. rewrite H8, Hret.
  cbn [result_bind]. unfold alloc.
  destruct (namespace_init hs h1 v1) as (ps & -> & Hes & Hdef & Hnone).
  set (ns := fresh (dom h1)). set (h4 := <[ns := mk_obj ps None]> h1).
  assert (Hsame : forall l, l ≠ ns -> h4 !! l = h1 !! l) by (intros l Hl; by apply lookup_insert_ne).
  set (ks := if bit mode 2 && negb (bool_decide (typeof h4 v1 = "string"))
             then enumerableKeys h4 v1 else []).
  assert (Hh' : (if bit mode 2 && negb (bool_decide (typeof h4 v1 = "string"))
                 then defineGetters v1 ns (enumerableKeys h4 v1) h4 else h4) =
                defineGetters v1 ns ks h4) by (subst ks; by destruct (_ && _)).
  rewrite Hh'. eexists _, ns. split; [reflexivity|]. split; [apply alloc_fresh|].
  destruct (defineGetters_spec v1 ns ks h4 _ (lookup_insert_eq _ _ _))
    as (ob' & Hob' & Hprops & _ & Hnew); cbn [props] in *.
  intros fuel'. split_and!.
  - unfold isESModule. by erewrite get_data by eauto.
  - by erewrite get_data by eauto.
  - intros H2 k Hk Hkd Hke.
    destruct (enumerableKeys_ref h1 v1 k Hk) as (l & obv & -> & Hl).
    assert (Hl4 : h4 !! l = h1 !! l) by (apply Hsame, not_eq_sym, (lookup_fresh_ne h1 l obv Hl)).
    assert (Hks : ks = enumerableKeys h1 (Ref l))
      by (subst ks; cbn [typeof enumerableKeys]; rewrite H2, Hl4, Hl; by destruct obv as [? []]).
    destruct (Hnew k) as (g & psg & Hg & Hgl); [by rewrite Hks|by apply Hnone|].
    by erewrite get_accessor by eauto.
Qed.

(** ** Witnesses *)

(** The [exports] of an ES module of the bundle are an empty object
    when [.r] marks them. *)
Lemma esModule_default_import_witness :
  let h : heap := {[1%positive := mk_obj ∅ None]} in
  h !! 1%positive = Some (mk_obj ∅ None) /\
  exists h' g, n 1 (r true h 1%positive) (Ref 1%positive) = Ok (h', Ref g) /\
    forall h'' fuel', h' ⊆ h'' ->
      get (S fuel') h'' (Ref g) (Named "a") = get fuel' h'' (Ref 1%positive) (Named "default").
Proof.
  intros h. split; [reflexivity|].
  exact (esModule_default_import true 0 h 1%positive (mk_obj ∅ None) eq_refl).
Defined.

(** [.t(exports, 2)] on the exports [{x: true}] of a CommonJS module. *)
Lemma t_namespace_witness :
  let h : heap := {[1%positive := mk_obj {[Named "x" := Data true (Prim (Bool true))]} None]} in
  let require (v : val) (h : heap) : Result (heap * val) error := Ok (h, v) in
  (if bit 2 1 then require (Ref 1%positive) h else Ok (h, Ref 1%positive)) = Ok (h, Ref 1%positive) /\
  bit 2 8 = false /\ returnsValue 0 h (Ref 1%positive) 2 = Ok false /\
  exists h' ns, t true require 0 h (Ref 1%positive) 2 = Ok (h', Ref ns) /\ h !! ns = None /\
    forall fuel', isESModule (S fuel') h' (Ref ns) = Ok true /\
      get (S fuel') h' (Ref ns) (Named "default") = Ok (Ref 1%positive) /\
      (bit 2 2 = true -> forall k, k ∈ enumerableKeys h (Ref 1%positive) -> k ≠ "default" ->
         k ≠ "__esModule" ->
         get (S fuel') h' (Ref ns) (Named k) = get fuel' h' (Ref 1%positive) (Named k)).
Proof.
  intros h require. split_and!; [reflexivity..|].
  exact (t_namespace true require 0 h h (Ref 1%positive) (Ref 1%positive) 2
           eq_refl eq_refl eq_refl).
Defined.
