(* ===== verification/Styles.v ===== *)
(** * Styles: the stylesheet modules of the bundle

    [src/dist/bundle.js] loads [src/main.css] through two loaders, whose
    runtime code is in the bundle:
    - the css-loader ([./node_modules/css-loader/dist/runtime/api.js],
      line 108): a CSS module exports a list of items [[id, css, media,
      sourceMap]] with [toString] (the whole stylesheet, media queries
      wrapped in [@media]) and [i] (import another module's items, skipping
      ids the list already has); the module of [main.css] (line 96) is
      such a list with one item [[module.i, css, ""]];
    - the style-loader ([./node_modules/style-loader/lib/addStyles.js],
      line 119): [module.exports(list, options)] groups the items by id
      ([listToStyles]), adds one [<style>] element per part to the
      document's head, records them in the registry [stylesInDom] with a
      reference count ([addStylesToDom]), and returns [update]: called
      with a new list it replaces the styles, called with nothing it
      releases them; a registry entry whose count falls to 0 is deleted
      and its elements removed.  The module of [src/main.css] (line 153)
      calls it once with the css-loader's list.

    [CssLoader] models the list functions, [StyleLoader] the registry:
    the state is [stylesInDom] (a [gmap] from ids to entries [{id, refs,
    parts}]), the [<style>] elements of the head in document order, and
    the counter that names new elements.  A part of an entry is the
    closure [updateStyle] of the source: its element and the item it
    last applied, which the closure updates in place; the model returns
    the new closure state and writes it back into the entry.

    Paths of the style-loader that this bundle does not take are not
    modelled: the single [<style>] tag of old Internet Explorer
    ([options.singleton] is [isOldIE()], false on current browsers), the
    [<link>] elements used when an item has a source map and the host
    has [Blob] and [URL], the [transform] option (undefined here), and
    [insertAt] other than "bottom" and [insertInto] other than the
    document's [head], which is assumed to exist.  Ids are module paths:
    the keys [{}] inherits from [Object.prototype] ([constructor],
    [toString], ...) are not modelled as ids.  The attributes every
    element gets ([type="text/css"]) are not recorded. *)

From stdpp Require Import base gmap strings list.
From Stdlib Require Import ZArith.
From S2P Require Import Prelude.

Module CssLoader.

(** An item [[id, css, media, sourceMap]]: the id is [null] for the
    items of a string import, a missing media query is "". *)
Record item := mk_item {
  iid : option string;
  icss : string;
  imedia : string;
  isourceMap : option string }.

(** What [i] imports: a string of CSS, or another module's list. *)
Inductive modules := CssString (s : string) | CssList (l : list item).

Section Api.
(** [useSourceMap && typeof btoa === 'function'], and the text the
    source-map branch of [cssWithMappingToString] builds. *)
Variable useSourceMap : bool.
Variable withSourceMap : string -> string -> string.

Definition cssWithMappingToString (it : item) : string :=
  match isourceMap it with
  | None => icss it
  | Some m => if useSourceMap then withSourceMap (icss it) m else icss it
  end.

(** [list.toString()] *)
Definition toString (lst : list item) : string :=
  String.concat ""
    (map (λ it,
          let content := cssWithMappingToString it in
          if bool_decide (imedia it = "") then content
          else ("@media " ++ imedia it ++ "{" ++ content ++ "}")%string) lst).
End Api.

(** The media query [i] gives an imported item. *)
Definition withMedia (mediaQuery : string) (it : item) : item :=
  if bool_decide (mediaQuery = "") then it
  else if bool_decide (imedia it = "")
  then mk_item (iid it) (icss it) mediaQuery (isourceMap it)
  else mk_item (iid it) (icss it) ("(" ++ imedia it ++ ") and (" ++ mediaQuery ++ ")")%string
               (isourceMap it).

(** [item[0] == null || !alreadyImportedModules[item[0]]] *)
Definition notImported (already : list string) (it : item) : bool :=
  match iid it with
  | None => true
  | Some id => bool_decide (id ∉ already)
  end.

(** [list.i(modules, mediaQuery)]: [alreadyImportedModules] is built
    from the list before the loop and not updated by it. *)
Definition i (lst : list item) (ms : modules) (mediaQuery : string) : list item :=
  let ms := match ms with CssString s => [mk_item None s "" None] | CssList l => l end in
  let already := omap iid lst in
  fold_left (λ acc it, if notImported already it then acc ++ [withMedia mediaQuery it] else acc)
    ms lst.

(** The css-loader module of [main.css]: [exports = module.exports =
    api(false); exports.push([module.i, css, ""])]. *)
Definition cssModule (moduleId css : string) : list item := [mk_item (Some moduleId) css "" None].

End CssLoader.

Module StyleLoader.
Import CssLoader.

(** [{css, media, sourceMap}] *)
Record part := mk_part { css : string; media : string; sourceMap : option string }.

(** An entry of [listToStyles]' result: [{id, parts}]. *)
Record style := mk_style { sid : string; sparts : list part }.

(** A [<style>] element: its [media] attribute and its text. *)
Record element := mk_el { eid : nat; emedia : option string; etext : string }.

(** The closure [updateStyle]: its element and the item it applied. *)
Record handle := mk_handle { hel : nat; hobj : part }.

(** A registry entry [{id, refs, parts}]. *)
Record domStyle := mk_domStyle { did : string; refs : Z; parts : list handle }.

Record state := mk_state {
  stylesInDom : gmap string domStyle;
  head : list element;
  nextId : nat }.

Inductive error := TypeError.

(** [options.base ? item[0] + options.base : item[0]], as the key of an
    object ([null] reads as "null"). *)
Definition styleId (base : string) (it : item) : string :=
  let id := match iid it with Some s => s | None => "null" end in
  if bool_decide (base = "") then id else (id ++ base)%string.

(** [newStyles[id].parts.push(part)]: [newStyles[id]] is the entry of
    [styles] with that id. *)
Definition pushPart (id : string) (p : part) (styles : list style) : list style :=
  map (λ s, if bool_decide (sid s = id) then mk_style (sid s) (sparts s ++ [p]) else s) styles.

Definition listToStyles (base : string) (lst : list item) : list style :=
  fold_left (λ styles it,
      let id := styleId base it in
      let p := mk_part (icss it) (imedia it) (isourceMap it) in
      if bool_decide (id ∈ map sid styles) then pushPart id p styles
      else styles ++ [mk_style id [p]]) lst [].

(** Changes to the element named [e]. *)
Definition setElement (e : nat) (f : element -> element) (h : list element) : list element :=
  map (λ el, if decide (eid el = e) then f el else el) h.

Definition withHead (st : state) (h : list element) : state :=
  mk_state (stylesInDom st) h (nextId st).

Definition withStyles (st : state) (m : gmap string domStyle) : state :=
  mk_state m (head st) (nextId st).

(** [createStyleElement] with [insertAt] "bottom": appended to the head. *)
Definition createStyleElement (st : state) : nat * state :=
  (nextId st, mk_state (stylesInDom st) (head st ++ [mk_el (nextId st) None ""]) (S (nextId st))).

(** [applyToTag]: the [media] attribute is set only for a non-empty
    media query; the children are replaced by the text of the css. *)
Definition applyToTag (e : nat) (obj : part) (st : state) : state :=
  withHead st (setElement e (λ el, mk_el (eid el)
                 (if bool_decide (media obj = "") then emedia el else Some (media obj))
                 (css obj)) (head st)).

(** [removeStyleElement]: nothing when the element is already out. *)
Definition removeStyleElement (e : nat) (st : state) : state :=
  withHead st (filter (λ el, eid el ≠ e) (head st)).

(** [addStyle(obj, options)] *)
Definition addStyle (obj : part) (st : state) : handle * state :=
  let (e, st) := createStyleElement st in (mk_handle e obj, applyToTag e obj st).

(** [updateStyle(newObj)] *)
Definition updateStyle (h : handle) (newObj : option part) (st : state) : handle * state :=
  match newObj with
  | Some n =>
      if bool_decide (css n = css (hobj h) /\ media n = media (hobj h) /\
                      sourceMap n = sourceMap (hobj h))
      then (h, st) else (mk_handle (hel h) n, applyToTag (hel h) n st)
  | None => (h, removeStyleElement (hel h) st)
  end.

(** [for (j = 0; j < domStyle.parts.length; j++) domStyle.parts[j](item.parts[j])] *)
Fixpoint updateParts (hs : list handle) (ps : list part) (st : state) : list handle * state :=
  match hs with
  | [] => ([], st)
  | h :: hs =>
      let (h', st) := updateStyle h (ps !! 0) st in
      let (hs', st) := updateParts hs (tail ps) st in (h' :: hs', st)
  end.

(** [parts.push(addStyle(item.parts[j], options))], for each part. *)
Fixpoint addParts (ps : list part) (st : state) : list handle * state :=
  match ps with
  | [] => ([], st)
  | p :: ps =>
      let (h, st) := addStyle p st in
      let (hs, st) := addParts ps st in (h :: hs, st)
  end.

(** One entry of [addStylesToDom]. *)
Definition addStyleToDom (st : state) (item : style) : state :=
  match stylesInDom st !! sid item with
  | Some ds =>
      let (hs, st) := updateParts (parts ds) (sparts item) st in
      let (hs', st) := addParts (drop (length (parts ds)) (sparts item)) st in
      withStyles st (<[sid item := mk_domStyle (did ds) (refs ds + 1) (hs ++ hs')]> (stylesInDom st))
  | None =>
      let (hs, st) := addParts (sparts item) st in
      withStyles st (<[sid item := mk_domStyle (sid item) 1 hs]> (stylesInDom st))
  end.

Definition addStylesToDom (styles : list style) (st : state) : state :=
  fold_left addStyleToDom styles st.

(** [module.exports(list, options)]: the styles, and the state; the
    function it returns is [update] on these styles. *)
Definition addStyles (base : string) (lst : list item) (st : state) : list style * state :=
  let styles := listToStyles base lst in (styles, addStylesToDom styles st).

(** [domStyle.refs--; mayRemove.push(domStyle)]: an id missing from the
    registry is [undefined.refs], a [TypeError]. *)
Definition release (r : Result state error) (item : style) : Result state error :=
  match r with
  | Error e => Error e
  | Ok st =>
      match stylesInDom st !! sid item with
      | None => Error TypeError
      | Some ds =>
          Ok (withStyles st (<[sid item := mk_domStyle (did ds) (refs ds - 1) (parts ds)]>
                               (stylesInDom st)))
      end
  end.

(** [for (j ...) domStyle.parts[j]()]: each closure removes its element. *)
Definition removeParts (hs : list handle) (st : state) : state :=
  fold_left (λ st h, removeStyleElement (hel h) st) hs st.

(** [if (domStyle.refs === 0) { ...; delete stylesInDom[domStyle.id]; }].
    [mayRemove] holds the entries of [styles]; an entry already deleted
    by this loop is not looked up again, which changes nothing: its
    elements are out and deleting it again does nothing. *)
Definition dispose (st : state) (item : style) : state :=
  match stylesInDom st !! sid item with
  | Some ds =>
      if (refs ds =? 0)%Z
      then withStyles (removeParts (parts ds) st) (delete (did ds) (stylesInDom st))
      else st
  | None => st
  end.

(** The [update] function [module.exports] returns, for its [styles]. *)
Definition update (base : string) (styles : list style) (newList : option (list item))
    (st : state) : Result state error :=
  match fold_left release styles (Ok st) with
  | Error e => Error e
  | Ok st =>
      let st := match newList with
                | Some l => addStylesToDom (listToStyles base l) st
                | None => st
                end in
      Ok (fold_left dispose styles st)
  end.

(** The module of [src/main.css]: [addStyles(content, options)] on the
    css-loader's list, without a [base]. *)
Definition loadMainCss (moduleId css : string) (st : state) : list style * state :=
  addStyles "" (cssModule moduleId css) st.

End StyleLoader.

Import CssLoader StyleLoader.

(** ** Elements *)

(** Every element of the head is named below the counter. *)
Definition bounded (st : state) : Prop := Forall (λ el, eid el < nextId st) (head st).

(** The element [addStyle] leaves for a part. *)
Definition newEl (e : nat) (p : part) : element :=
  mk_el e (if bool_decide (media p = "") then None else Some (media p)) (css p).

Lemma filter_all {A} (P : A -> Prop) `{!∀ x, Decision (P x)} (l : list A) :
  Forall P l -> filter P l = l.
Proof. induction 1; [done|]. rewrite filter_cons_True by done. by f_equal. Qed.

Lemma filter_none {A} (P : A -> Prop) `{!∀ x, Decision (P x)} (l : list A) :
  Forall (λ x, ¬ P x) l -> filter P l = [].
Proof. induction 1; [done|]. by rewrite filter_cons_False. Qed.

Lemma setElement_fresh (e : nat) (f : element -> element) (h : list element) :
  Forall (λ el, eid el ≠ e) h -> setElement e f h = h.
Proof.
  induction 1 as [|el h Hel _ IH]; [done|]. unfold setElement in *. cbn.
  rewrite decide_False by done. by f_equal.
Qed.

Lemma setElement_app (e : nat) (f : element -> element) (h1 h2 : list element) :
  setElement e f (h1 ++ h2) = setElement e f h1 ++ setElement e f h2.
Proof. apply map_app. Qed.

Lemma addStyle_eq (p : part) (st : state) :
  bounded st ->
  addStyle p st = (mk_handle (nextId st) p,
                   mk_state (stylesInDom st) (head st ++ [newEl (nextId st) p]) (S (nextId st))).
Proof.
  intros Hb. unfold addStyle, createStyleElement, applyToTag, withHead. cbn -[setElement].
  rewrite setElement_app, setElement_fresh by (eapply Forall_impl; [exact Hb|cbn; lia]).
  cbn. rewrite decide_True by done. reflexivity.
Qed.

Lemma bounded_snoc (st : state) (p : part) :
  bounded st ->
  bounded (mk_state (stylesInDom st) (head st ++ [newEl (nextId st) p]) (S (nextId st))).
Proof.
  intros Hb. unfold bounded. cbn. apply Forall_app. split; [|constructor; cbn; [lia|done]].
  eapply Forall_impl; [exact Hb|cbn; lia].
Qed.

(** [addParts] appends one new element per part, named in order from
    the counter. *)
Lemma addParts_eq (ps : list part) (st : state) :
  bounded st ->
  addParts ps st =
  (zip_with mk_handle (seq (nextId st) (length ps)) ps,
   mk_state (stylesInDom st) (head st ++ zip_with newEl (seq (nextId st) (length ps)) ps)
            (nextId st + length ps)).
Proof.
  revert st. induction ps as [|p ps IH]; intros st Hb; cbn -[addStyle].
  - destruct st. cbn. by rewrite app_nil_r, Nat.add_0_r.
  - rewrite addStyle_eq by exact Hb. rewrite IH by (apply bounded_snoc, Hb). cbn.
    by rewrite <- app_assoc, Nat.add_succ_r.
Qed.

Lemma bounded_addParts (ps : list part) (st : state) :
  bounded st -> bounded (snd (addParts ps st)).
Proof.
  revert st. induction ps as [|p ps IH]; intros st Hb; cbn -[addStyle]; [exact Hb|].
  rewrite addStyle_eq by exact Hb. destruct (addParts ps _) as [hs st'] eqn:E.
  cbn. change st' with (snd (hs, st')). rewrite <- E. apply IH, bounded_snoc, Hb.
Qed.

(** [removeParts] removes the elements of the closures. *)
Lemma removeParts_eq (hs : list handle) (st : state) :
  removeParts hs st = withHead st (filter (λ el, eid el ∉ map hel hs) (head st)).
Proof.
  revert st. induction hs as [|h hs IH]; intros st; cbn.
  - destruct st. unfold withHead. cbn. by rewrite filter_all by (apply Forall_forall; set_solver).
  - unfold removeParts in *. rewrite IH. unfold removeStyleElement, withHead. cbn.
    rewrite list_filter_filter. f_equal. apply list_filter_iff. intros el.
    rewrite not_elem_of_cons. tauto.
Qed.

(** ** Grouping by id *)

Lemma pushPart_ids (id : string) (p : part) (styles : list style) :
  map sid (pushPart id p styles) = map sid styles.
Proof.
  unfold pushPart. rewrite map_map. apply map_ext. intros s. by case_bool_decide.
Qed.

(** [listToStyles] gives each id one entry. *)
Lemma listToStyles_NoDup (base : string) (lst : list item) : NoDup (map sid (listToStyles base lst)).
Proof.
  unfold listToStyles. apply fold_left_invariant with (P := λ styles, NoDup (map sid styles));
    [constructor|].
  intros styles it _ Hnd. case_bool_decide as Hin; [by rewrite pushPart_ids|].
  rewrite map_app. apply NoDup_app. split_and!; [exact Hnd| |by apply NoDup_singleton].
  cbn. intros x Hx ->%list_elem_of_singleton. contradiction.
Qed.

(** ** Adding and releasing styles that are not registered *)

(** The elements of the closures of an entry. *)
Definition hels (m : gmap string domStyle) (id : string) : list nat :=
  match m !! id with Some ds => map hel (parts ds) | None => [] end.

Lemma addStyleToDom_fresh (st : state) (s : style) :
  bounded st -> stylesInDom st !! sid s = None ->
  let hs := zip_with mk_handle (seq (nextId st) (length (sparts s))) (sparts s) in
  addStyleToDom st s =
  mk_state (<[sid s := mk_domStyle (sid s) 1 hs]> (stylesInDom st))
           (head st ++ zip_with newEl (seq (nextId st) (length (sparts s))) (sparts s))
           (nextId st + length (sparts s)).
Proof. intros Hb Hn hs. unfold addStyleToDom. rewrite Hn, addParts_eq by exact Hb. reflexivity. Qed.

Lemma zip_with_hel (n : nat) (ps : list part) :
  map hel (zip_with mk_handle (seq n (length ps)) ps) = seq n (length ps).
Proof. revert n. induction ps as [|p ps IH]; intros n; cbn; [done|]. by rewrite IH. Qed.

Lemma zip_with_eid (n : nat) (ps : list part) :
  map eid (zip_with newEl (seq n (length ps)) ps) = seq n (length ps).
Proof. revert n. induction ps as [|p ps IH]; intros n; cbn; [done|]. by rewrite IH. Qed.

(** What adding styles with new, distinct ids leaves: the other entries
    as they were, one entry with one reference per style whose closures
    name new elements, and the head extended by exactly those elements. *)
Definition added (st0 : state) (styles : list style) (st : state) : Prop :=
  (forall id, id ∉ map sid styles -> stylesInDom st !! id = stylesInDom st0 !! id) /\
  (forall s, s ∈ styles -> exists hs, stylesInDom st !! sid s = Some (mk_domStyle (sid s) 1 hs) /\
     Forall (λ e, nextId st0 <= e < nextId st) (map hel hs)) /\
  (exists E, head st = head st0 ++ E /\
     Forall (λ el, exists s, s ∈ styles /\ eid el ∈ hels (stylesInDom st) (sid s)) E) /\
  nextId st0 <= nextId st /\ bounded st.

Lemma added_nil (st : state) : bounded st -> added st [] st.
Proof.
  intros Hb. split_and!; [done|by intros ? ?%not_elem_of_nil| |lia|exact Hb].
  exists []. by rewrite app_nil_r.
Qed.

Lemma elem_of_map {A B} (f : A -> B) (l : list A) (y : B) :
  y ∈ map f l <-> exists x, y = f x /\ x ∈ l.
Proof.
  rewrite list_elem_of_In, in_map_iff. setoid_rewrite list_elem_of_In. firstorder.
Qed.

Lemma hels_insert_ne (m : gmap string domStyle) (k id : string) (ds : domStyle) :
  k ≠ id -> hels (<[k := ds]> m) id = hels m id.
Proof. intros Hne. unfold hels. by rewrite lookup_insert_ne. Qed.

Lemma added_snoc (st0 : state) (done : list style) (st : state) (s : style) :
  added st0 done st -> sid s ∉ map sid done -> stylesInDom st0 !! sid s = None ->
  added st0 (done ++ [s]) (addStyleToDom st s).
Proof.
  intros (Hother & Hdone & (E & Hhead & HE) & Hle & Hb) Hfresh Hnone.
  rewrite addStyleToDom_fresh by (rewrite ?Hother; auto). unfold added, bounded. cbn [stylesInDom head nextId].
  assert (Hne : forall s', s' ∈ done -> sid s' ≠ sid s)
    by (intros s' Hs' Heq; apply Hfresh, elem_of_map; eauto).
  split_and!.
  - intros id Hid. rewrite map_app in Hid. cbn in Hid. rewrite not_elem_of_app, not_elem_of_cons in Hid.
    rewrite lookup_insert_ne by naive_solver. apply Hother. tauto.
  - intros s' [Hs'|Hs']%elem_of_app; [|apply list_elem_of_singleton in Hs'; subst s'].
    + destruct (Hdone s' Hs') as (hs & Hl & Hf). exists hs.
      rewrite lookup_insert_ne by (apply not_eq_sym, Hne, Hs'). split; [exact Hl|].
      eapply Forall_impl; [exact Hf|]. cbn. lia.
    + eexists. rewrite lookup_insert_eq. split; [reflexivity|].
      rewrite zip_with_hel. apply Forall_seq. lia.
  - exists (E ++ zip_with newEl (seq (nextId st) (length (sparts s))) (sparts s)).
    rewrite Hhead, app_assoc.
    split; [reflexivity|]. apply Forall_app. split.
    + eapply Forall_impl; [exact HE|]. intros el (s' & Hs' & Hel). exists s'.
      split; [set_solver|]. by rewrite hels_insert_ne by (apply not_eq_sym, Hne, Hs').
    + apply Forall_forall. intros el Hel. exists s. split; [set_solver|].
      unfold hels. rewrite lookup_insert_eq. cbn. rewrite zip_with_hel, <- zip_with_eid.
      apply elem_of_map. eauto.
  - lia.
  - unfold bounded. cbn. apply Forall_app. split.
    + eapply Forall_impl; [exact Hb|]. cbn. lia.
    + apply Forall_forall. intros el Hel.
      assert (Hin : eid el ∈ seq (nextId st) (length (sparts s)))
        by (rewrite <- zip_with_eid; apply elem_of_map; eauto).
      apply elem_of_seq in Hin. lia.
Qed.

(** Adding styles with new, distinct ids. *)
Lemma addStylesToDom_fresh (st : state) (styles : list style) :
  bounded st -> NoDup (map sid styles) ->
  (forall s, s ∈ styles -> stylesInDom st !! sid s = None) ->
  added st styles (addStylesToDom styles st).
Proof.
  intros Hb Hnd Hfresh. unfold addStylesToDom.
  cut (forall done rest st', done ++ rest = styles -> added st done st' ->
         added st styles (fold_left addStyleToDom rest st')).
  { intros H. apply (H [] styles st); [done|by apply added_nil]. }
  intros done rest. revert done. induction rest as [|s rest IH]; intros done st' Heq Hadd.
  - cbn. by rewrite app_nil_r in Heq; subst.
  - cbn. apply (IH (done ++ [s])); [by rewrite <- app_assoc|].
    subst styles. apply added_snoc; [exact Hadd| |apply Hfresh; set_solver].
    rewrite map_app in Hnd. cbn in Hnd. apply NoDup_app in Hnd as (_ & Hd & _).
    intros Hin. apply (Hd (sid s)); [exact Hin|set_solver].
Qed.

(** [refs - 1] *)
Definition decr (ds : domStyle) : domStyle := mk_domStyle (did ds) (refs ds - 1) (parts ds).

Lemma release_error (styles : list style) (e : error) :
  fold_left release styles (Error e) = Error e.
Proof. induction styles; cbn; auto. Qed.

(** The release loop of [update] on registered, distinct ids: one
    reference less for each, nothing else changed. *)
Lemma release_fold (styles : list style) (st : state) :
  NoDup (map sid styles) -> (forall s, s ∈ styles -> is_Some (stylesInDom st !! sid s)) ->
  exists st', fold_left release styles (Ok st) = Ok st' /\ head st' = head st /\
    nextId st' = nextId st /\
    forall id, stylesInDom st' !! id =
      if bool_decide (id ∈ map sid styles) then decr <$> stylesInDom st !! id
      else stylesInDom st !! id.
Proof.
  revert st. induction styles as [|s styles IH]; intros st Hnd Hex.
  { exists st. split_and!; [done..|]. intros id. by rewrite bool_decide_eq_false_2 by set_solver. }
  cbn in Hnd. apply NoDup_cons in Hnd as [Hs Hnd]. cbn [fold_left].
  destruct (Hex s ltac:(set_solver)) as [ds Hds].
  unfold release at 2. cbv beta iota. rewrite Hds. fold (decr ds).
  destruct (IH (withStyles st (<[sid s := decr ds]> (stylesInDom st))) Hnd) as (st' & -> & Hh & Hn & Hm).
  { intros s' Hs'. cbn. destruct (decide (sid s = sid s')) as [<-|Hne];
      [by rewrite lookup_insert_eq|rewrite lookup_insert_ne by done; apply Hex; set_solver]. }
  exists st'. split_and!; [done|exact Hh|exact Hn|]. intros id. rewrite Hm. cbn.
  destruct (decide (id = sid s)) as [->|Hne].
  - rewrite bool_decide_eq_false_2 by done. rewrite bool_decide_eq_true_2 by set_solver.
    by rewrite lookup_insert_eq, Hds.
  - rewrite lookup_insert_ne by congruence. repeat case_bool_decide; set_solver.
Qed.

Lemma hels_delete_ne (m : gmap string domStyle) (k id : string) :
  k ≠ id -> hels (delete k m) id = hels m id.
Proof. intros Hne. unfold hels. by rewrite lookup_delete_ne. Qed.

Lemma dispose_zero (st : state) (s : style) (hs : list handle) :
  stylesInDom st !! sid s = Some (mk_domStyle (sid s) 0 hs) ->
  dispose st s = withStyles (removeParts hs st) (delete (sid s) (stylesInDom st)).
Proof. intros Hs. unfold dispose. rewrite Hs. reflexivity. Qed.

(** The removal loop of [update] when every released entry has no
    reference left: the entries are deleted and their elements removed. *)
Lemma dispose_fold (styles : list style) (st : state) :
  NoDup (map sid styles) ->
  (forall s, s ∈ styles -> exists hs, stylesInDom st !! sid s = Some (mk_domStyle (sid s) 0 hs)) ->
  exists m, fold_left dispose styles st =
    mk_state m (filter (λ el, eid el ∉ concat (map (λ s, hels (stylesInDom st) (sid s)) styles))
                  (head st)) (nextId st) /\
    forall id, m !! id = if bool_decide (id ∈ map sid styles) then None else stylesInDom st !! id.
Proof.
  revert st. induction styles as [|s styles IH]; intros st Hnd Hz.
  { exists (stylesInDom st). destruct st. cbn.
    rewrite filter_all by (apply Forall_forall; set_solver). split; [done|]. intros id.
    by rewrite bool_decide_eq_false_2 by set_solver. }
  cbn in Hnd. apply NoDup_cons in Hnd as [Hs Hnd].
  destruct (Hz s ltac:(set_solver)) as [hs Hhs]. cbn [fold_left].
  rewrite (dispose_zero _ _ _ Hhs), removeParts_eq.
  assert (Hne : forall s', s' ∈ styles -> sid s ≠ sid s')
    by (intros s' Hs' Heq; apply Hs, elem_of_map; eauto).
  destruct (IH (withStyles (withHead st (filter (λ el, eid el ∉ map hel hs) (head st)))
                 (delete (sid s) (stylesInDom st))) Hnd) as (m & -> & Hm).
  { intros s' Hs'. cbn. rewrite lookup_delete_ne by (apply Hne, Hs'). apply Hz. set_solver. }
  exists m. cbn. split.
  - f_equal. rewrite list_filter_filter. apply list_filter_iff. intros el.
    rewrite not_elem_of_app.
    replace (hels (stylesInDom st) (sid s)) with (map hel hs) by (unfold hels; by rewrite Hhs).
    rewrite (map_ext_in _ (λ s', hels (stylesInDom st) (sid s'))); [tauto|].
    intros s' Hs'%list_elem_of_In. by apply hels_delete_ne, Hne.
  - intros id. rewrite Hm. cbn. destruct (decide (id = sid s)) as [->|Hid].
    + rewrite bool_decide_eq_false_2 by done. rewrite bool_decide_eq_true_2 by set_solver.
      apply lookup_delete_eq.
    + rewrite lookup_delete_ne by congruence. repeat case_bool_decide; set_solver.
Qed.

Lemma elem_of_concat_map {A B} (f : A -> list B) (l : list A) (x : B) :
  x ∈ concat (map f l) <-> exists y, y ∈ l /\ x ∈ f y.
Proof.
  rewrite list_elem_of_In, in_concat. setoid_rewrite in_map_iff.
  setoid_rewrite <- list_elem_of_In. firstorder congruence.
Qed.

Lemma hels_decr (m1 m2 : gmap string domStyle) (id : string) :
  m2 !! id = decr <$> m1 !! id -> hels m2 id = hels m1 id.
Proof. intros H. unfold hels. rewrite H. by destruct (m1 !! id). Qed.

(** Loading a list whose ids are not registered, then calling the
    [update] it returned with nothing: the registry and the head are
    back as they were. *)
Lemma add_dispose (base : string) (lst : list item) (st : state) :
  bounded st -> (forall s, s ∈ listToStyles base lst -> stylesInDom st !! sid s = None) ->
  let styles := listToStyles base lst in
  let st1 := addStylesToDom styles st in
  update base styles None st1 = Ok (mk_state (stylesInDom st) (head st) (nextId st1)).
Proof.
  intros Hb Hfresh styles st1.
  pose proof (listToStyles_NoDup base lst) as Hnd. fold styles in Hnd.
  destruct (addStylesToDom_fresh st styles Hb Hnd Hfresh)
    as (Hother & Hnew & (E & Hhead & HE) & Hle & Hb1). fold st1 in Hother, Hnew, Hhead, HE, Hle.
  destruct (release_fold styles st1 Hnd) as (st2 & Hrel & Hh2 & Hn2 & Hm2).
  { intros s Hs. destruct (Hnew s Hs) as (hs & -> & _). done. }
  assert (Hhels : forall s, s ∈ styles -> hels (stylesInDom st2) (sid s) = hels (stylesInDom st1) (sid s)).
  { intros s Hs. apply hels_decr. rewrite Hm2, bool_decide_eq_true_2; [done|].
    apply elem_of_map. eauto. }
  unfold update. rewrite Hrel.
  destruct (dispose_fold styles st2 Hnd) as (m & -> & Hm).
  { intros s Hs. destruct (Hnew s Hs) as (hs & Hl & _). exists hs.
    rewrite Hm2, bool_decide_eq_true_2 by (apply elem_of_map; eauto). by rewrite Hl. }
  rewrite Hn2. f_equal. f_equal.
  - apply map_eq. intros id. rewrite Hm. case_bool_decide as Hid.
    + apply elem_of_map in Hid as (s & -> & Hs). symmetry. by apply Hfresh.
    + rewrite Hm2, bool_decide_eq_false_2 by exact Hid. by apply Hother.
  - rewrite Hh2, Hhead, filter_app, filter_all, filter_none, app_nil_r; [done|..].
    + eapply Forall_impl; [exact HE|]. intros el (s & Hs & Hel) Hnot. apply Hnot.
      apply elem_of_concat_map. exists s. by rewrite Hhels.
    + apply Forall_forall. intros el Hel (s & Hs & Hin)%elem_of_concat_map.
      rewrite Hhels in Hin by exact Hs. destruct (Hnew s Hs) as (hs & Hl & Hf).
      unfold hels in Hin. rewrite Hl in Hin. cbn in Hin.
      rewrite Forall_forall in Hf. specialize (Hf _ Hin).
      unfold bounded in Hb. rewrite Forall_forall in Hb. specialize (Hb el Hel). lia.
Qed.

(** ** The registry invariant *)

(** The registry is well formed: an entry is named by its key, holds at
    least one reference, and its closures name elements below the
    counter; the elements of the head are named once each, below the
    counter. *)
Definition wf (st : state) : Prop :=
  (forall id ds, stylesInDom st !! id = Some ds ->
     did ds = id /\ (1 <= refs ds)%Z /\ Forall (λ h, hel h < nextId st) (parts ds)) /\
  NoDup (map eid (head st)) /\ bounded st.

(** The head is well formed. *)
Definition headOk (st : state) : Prop := NoDup (map eid (head st)) /\ bounded st.

Lemma headOk_filter (P : element -> Prop) `{!∀ x, Decision (P x)} (st : state) :
  headOk st -> headOk (withHead st (filter P (head st))).
Proof.
  unfold headOk, bounded, withHead. cbn. destruct st as [m h n]. cbn.
  induction h as [|el h IH]; intros [Hnd Hb]; [done|]. cbn in Hnd.
  apply NoDup_cons in Hnd as [Hel Hnd]. apply Forall_cons in Hb as [Hel' Hb].
  destruct (IH (conj Hnd Hb)) as [IH1 IH2]. rewrite filter_cons. case_decide; [|done].
  split; [|by constructor]. cbn. apply NoDup_cons. split; [|exact IH1].
  intros Hin. apply Hel. apply elem_of_map in Hin as (el' & -> & Hin'). apply elem_of_map.
  exists el'. split; [done|]. by apply list_elem_of_filter in Hin' as [_ ?].
Qed.

Lemma applyToTag_eids (e : nat) (obj : part) (st : state) :
  map eid (head (applyToTag e obj st)) = map eid (head st) /\
  (bounded st -> bounded (applyToTag e obj st)).
Proof.
  unfold applyToTag, withHead, setElement, bounded. cbn. split.
  - rewrite map_map. apply map_ext. intros el. by case_decide.
  - intros Hb. apply Forall_forall. intros el (el' & -> & Hin)%elem_of_map.
    rewrite Forall_forall in Hb. specialize (Hb el' Hin). by case_decide.
Qed.

Lemma headOk_applyToTag (e : nat) (obj : part) (st : state) :
  headOk st -> headOk (applyToTag e obj st).
Proof.
  intros [Hnd Hb]. destruct (applyToTag_eids e obj st) as [He Hb']. split; [by rewrite He|auto].
Qed.

(** [updateStyle] and [updateParts] keep the registry, the counter, the
    elements the closures name, and a well formed head. *)
Lemma updateStyle_spec (h : handle) (o : option part) (st : state) :
  let '(h', st') := updateStyle h o st in
  stylesInDom st' = stylesInDom st /\ nextId st' = nextId st /\ hel h' = hel h /\
  (headOk st -> headOk st').
Proof.
  unfold updateStyle. destruct o as [n|].
  - case_bool_decide; [done|]. split_and!; [done..|apply headOk_applyToTag].
  - split_and!; [done..|]. apply headOk_filter.
Qed.

Lemma updateParts_spec (hs : list handle) (ps : list part) (st : state) :
  let '(hs', st') := updateParts hs ps st in
  stylesInDom st' = stylesInDom st /\ nextId st' = nextId st /\ map hel hs' = map hel hs /\
  (headOk st -> headOk st').
Proof.
  revert ps st. induction hs as [|h hs IH]; intros ps st; cbn -[updateStyle]; [done|].
  pose proof (updateStyle_spec h (ps !! 0) st) as Hh.
  destruct (updateStyle h (ps !! 0) st) as [h' st1].
  specialize (IH (tail ps) st1). destruct (updateParts hs (tail ps) st1) as [hs' st2].
  destruct Hh as (Hm1 & Hn1 & He1 & Hk1), IH as (Hm2 & Hn2 & He2 & Hk2).
  split_and!; [congruence|congruence|cbn; congruence|auto].
Qed.

Lemma Forall_map_hel (P : nat -> Prop) (hs : list handle) :
  Forall (λ h, P (hel h)) hs <-> Forall P (map hel hs).
Proof. symmetry. apply Forall_map. Qed.

Lemma headOk_addParts (ps : list part) (st : state) :
  headOk st ->
  let '(hs, st') := addParts ps st in
  headOk st' /\ stylesInDom st' = stylesInDom st /\ nextId st' = nextId st + length ps /\
  Forall (λ h, nextId st <= hel h < nextId st + length ps) hs.
Proof.
  intros [Hnd Hb]. pose proof (bounded_addParts ps st Hb) as Hb'.
  rewrite addParts_eq in Hb' |- * by exact Hb. unfold headOk.
  cbn [head stylesInDom nextId snd] in *. split_and!.
  - rewrite map_app, zip_with_eid. apply NoDup_app. split_and!; [exact Hnd| |apply NoDup_seq].
    intros x (el & -> & Hel)%elem_of_map Hx%elem_of_seq.
    unfold bounded in Hb. rewrite Forall_forall in Hb. specialize (Hb el Hel). lia.
  - exact Hb'.
  - done.
  - done.
  - apply (Forall_map_hel (λ x, nextId st <= x < nextId st + length ps)).
    rewrite zip_with_hel. apply Forall_seq. lia.
Qed.

(** The invariant while [update] runs: entries may hold no reference,
    but only those of the ids [ids] it still has to look at. *)
Definition pwf (ids : list string) (st : state) : Prop :=
  (forall id ds, stylesInDom st !! id = Some ds ->
     did ds = id /\ (0 <= refs ds)%Z /\ (refs ds = 0%Z -> id ∈ ids) /\
     Forall (λ h, hel h < nextId st) (parts ds)) /\
  headOk st.

Lemma wf_pwf (ids : list string) (st : state) : wf st -> pwf ids st.
Proof.
  intros (Hm & Hnd & Hb). split; [|done]. intros id ds Hl.
  destruct (Hm id ds Hl) as (? & ? & ?). split_and!; [done|lia|lia|done].
Qed.

Lemma pwf_wf (st : state) : pwf [] st -> wf st.
Proof.
  intros (Hm & Hnd & Hb). split; [|done]. intros id ds Hl.
  destruct (Hm id ds Hl) as (? & ? & Hz & ?). split_and!; [done| |done].
  destruct (decide (refs ds = 0%Z)) as [E|]; [by apply Hz, not_elem_of_nil in E|lia].
Qed.

Lemma Forall_hel_mono (hs : list handle) (n m : nat) :
  n <= m -> Forall (λ h, hel h < n) hs -> Forall (λ h, hel h < m) hs.
Proof. intros Hle H. eapply Forall_impl; [exact H|]. intros h; cbn; lia. Qed.

#[export] Hint Resolve Forall_hel_mono : raytrace.

Lemma addStyleToDom_pwf (ids : list string) (st : state) (s : style) :
  pwf ids st -> pwf ids (addStyleToDom st s).
Proof.
  intros [Hm Hk]. unfold addStyleToDom. destruct (stylesInDom st !! sid s) as [ds|] eqn:Hds.
  - pose proof (updateParts_spec (parts ds) (sparts s) st) as Hu.
    destruct (updateParts (parts ds) (sparts s) st) as [hs1 st1].
    destruct Hu as (Hm1 & Hn1 & He1 & Hk1).
    pose proof (headOk_addParts (drop (length (parts ds)) (sparts s)) st1 (Hk1 Hk)) as Ha.
    destruct (addParts _ st1) as [hs2 st2]. destruct Ha as (Hk2 & Hm2 & Hn2 & Hf2).
    destruct (Hm _ _ Hds) as (Hid & Hr & _ & Hf). split; [|exact Hk2].
    intros id ds'. cbn. rewrite Hm2, Hm1. destruct (decide (id = sid s)) as [->|Hne].
    + rewrite lookup_insert_eq. intros [= <-]. cbn. split_and!; [done|lia|lia|].
      apply Forall_app. split.
      * apply (Forall_map_hel (λ x, x < _)). rewrite He1.
        apply (Forall_map_hel (λ x, x < _)). eapply Forall_hel_mono; [|exact Hf]. lia.
      * eapply Forall_impl; [exact Hf2|]. cbn. lia.
    + rewrite lookup_insert_ne by congruence. intros Hl.
      destruct (Hm _ _ Hl) as (? & ? & ? & ?). split_and!; [done..|].
      eapply Forall_hel_mono; [|eassumption]. lia.
  - pose proof (headOk_addParts (sparts s) st Hk) as Ha.
    destruct (addParts (sparts s) st) as [hs st2]. destruct Ha as (Hk2 & Hm2 & Hn2 & Hf2).
    split; [|exact Hk2]. intros id ds'. cbn. rewrite Hm2.
    destruct (decide (id = sid s)) as [->|Hne].
    + rewrite lookup_insert_eq. intros [= <-]. cbn. split_and!; [done|lia|lia|].
      eapply Forall_impl; [exact Hf2|]. cbn. lia.
    + rewrite lookup_insert_ne by congruence. intros Hl.
      destruct (Hm _ _ Hl) as (? & ? & ? & ?). split_and!; [done..|].
      eapply Forall_hel_mono; [|eassumption]. lia.
Qed.

Lemma addStylesToDom_pwf (ids : list string) (styles : list style) (st : state) :
  pwf ids st -> pwf ids (addStylesToDom styles st).
Proof.
  intros H. unfold addStylesToDom. apply fold_left_invariant; [exact H|].
  intros st' s _. apply addStyleToDom_pwf.
Qed.

(** The release loop succeeds only when every id is registered. *)
Lemma release_ok_exists (styles : list style) (st st' : state) :
  fold_left release styles (Ok st) = Ok st' ->
  forall s, s ∈ styles -> is_Some (stylesInDom st !! sid s).
Proof.
  revert st. induction styles as [|s styles IH]; intros st Hok s' Hs'; [set_solver|].
  cbn [fold_left] in Hok. unfold release at 2 in Hok. cbv beta iota in Hok.
  destruct (stylesInDom st !! sid s) as [ds|] eqn:Hds; [|by rewrite release_error in Hok].
  apply elem_of_cons in Hs' as [->|Hs']; [by rewrite Hds|].
  specialize (IH _ Hok s' Hs'). cbn in IH. destruct (decide (sid s = sid s')) as [<-|Hne].
  - by rewrite Hds.
  - by rewrite lookup_insert_ne in IH.
Qed.

Lemma release_pwf (styles : list style) (st st' : state) :
  wf st -> NoDup (map sid styles) -> fold_left release styles (Ok st) = Ok st' ->
  pwf (map sid styles) st'.
Proof.
  intros (Hm & Hnd & Hb) Hd Hok.
  destruct (release_fold styles st Hd (release_ok_exists styles st st' Hok))
    as (st'' & Hok' & Hh & Hn & Hl). rewrite Hok in Hok'. injection Hok' as <-.
  split; [|unfold headOk, bounded; rewrite Hh, Hn; done].
  intros id ds Hds. rewrite Hl in Hds. rewrite Hn.
  case_bool_decide as Hid.
  - destruct (stylesInDom st !! id) as [ds0|] eqn:E; [|done]. injection Hds as <-.
    destruct (Hm _ _ E) as (? & ? & ?). cbn. split_and!; [done|lia|done|done].
  - destruct (Hm _ _ Hds) as (? & ? & ?). split_and!; [done|lia|lia|done].
Qed.

Lemma dispose_pwf (s : style) (rest : list string) (st : state) :
  pwf (sid s :: rest) st -> pwf rest (dispose st s).
Proof.
  intros [Hm Hk].
  assert (Hother : forall id ds, id ≠ sid s -> stylesInDom st !! id = Some ds ->
            did ds = id /\ (0 <= refs ds)%Z /\ (refs ds = 0%Z -> id ∈ rest) /\
            Forall (λ h, hel h < nextId st) (parts ds)).
  { intros id ds Hne Hl. destruct (Hm _ _ Hl) as (? & ? & Hz & ?). split_and!; [done|done| |done].
    intros Hr. apply Hz in Hr. set_solver. }
  unfold dispose. destruct (stylesInDom st !! sid s) as [ds|] eqn:Hds.
  - destruct (Hm _ _ Hds) as (Hid & _ & _ & _). destruct (Z.eqb_spec (refs ds) 0) as [Hz|Hz].
    + rewrite removeParts_eq. split; [|by apply headOk_filter]. cbn. rewrite Hid.
      intros id ds' Hl. destruct (decide (id = sid s)) as [->|Hne];
        [by rewrite lookup_delete_eq in Hl|rewrite lookup_delete_ne in Hl by congruence; auto].
    + split; [|exact Hk]. intros id ds' Hl. destruct (decide (id = sid s)) as [->|Hne]; [|auto].
      rewrite Hds in Hl. injection Hl as <-. destruct (Hm _ _ Hds) as (? & ? & _ & ?).
      split_and!; [done|done|lia|done].
  - split; [|exact Hk]. intros id ds' Hl. destruct (decide (id = sid s)) as [->|Hne]; [|auto].
    congruence.
Qed.

Lemma dispose_fold_pwf (styles : list style) (st : state) :
  pwf (map sid styles) st -> pwf [] (fold_left dispose styles st).
Proof.
  revert st. induction styles as [|s styles IH]; intros st H; [exact H|].
  cbn. apply IH, dispose_pwf, H.
Qed.

(** [update] on the styles of a list keeps the registry well formed. *)
Lemma update_wf (base : string) (lst : list item) (newList : option (list item)) (st st' : state) :
  wf st -> update base (listToStyles base lst) newList st = Ok st' -> wf st'.
Proof.
  intros Hwf. unfold update.
  destruct (fold_left release _ (Ok st)) as [st1|e] eqn:Hrel; [|discriminate].
  intros [= <-]. apply pwf_wf, dispose_fold_pwf.
  assert (H1 : pwf (map sid (listToStyles base lst)) st1)
    by exact (release_pwf _ st st1 Hwf (listToStyles_NoDup base lst) Hrel).
  destruct newList; [by apply addStylesToDom_pwf|exact H1].
Qed.

Lemma addStyles_wf (base : string) (lst : list item) (st : state) :
  wf st -> wf (snd (addStyles base lst st)).
Proof. intros H. apply pwf_wf, addStylesToDom_pwf, wf_pwf, H. Qed.

(** ** The css-loader's import *)

Lemma fold_push_filter {A B} (p : A -> bool) (f : A -> B) (l : list A) (acc : list B) :
  fold_left (λ acc x, if p x then acc ++ [f x] else acc) l acc =
  acc ++ map f (filter (λ x, p x = true) l).
Proof.
  revert acc. induction l as [|x l IH]; intros acc; cbn [fold_left].
  { rewrite filter_nil. cbn. by rewrite app_nil_r. }
  rewrite IH, filter_cons. destruct (p x).
  - rewrite decide_True by done. cbn [map]. by rewrite <- app_assoc.
  - by rewrite decide_False.
Qed.

Lemma listToStyles_nonempty (base : string) (lst : list item) :
  lst ≠ [] -> exists s rest, listToStyles base lst = s :: rest.
Proof.
  destruct lst as [|it l]; [done|]. intros _. unfold listToStyles. cbn [fold_left].
  rewrite bool_decide_eq_false_2 by (cbn; apply not_elem_of_nil). cbn [app].
  cut (forall styles, styles ≠ [] ->
         fold_left (λ styles it,
           if bool_decide (styleId base it ∈ map sid styles)
           then pushPart (styleId base it) (mk_part (icss it) (imedia it) (isourceMap it)) styles
           else styles ++ [mk_style (styleId base it) [mk_part (icss it) (imedia it) (isourceMap it)]])
           l styles ≠ []).
  { intros H. destruct (fold_left _ l _) as [|s rest] eqn:E; [|by eauto]. by apply H in E. }
  intros styles Hne. apply fold_left_invariant with (P := λ styles, styles ≠ []); [exact Hne|].
  intros acc it' _ Hacc. case_bool_decide.
  - unfold pushPart. destruct acc; [done|discriminate].
  - destruct acc; discriminate.
Qed.

Lemma notImported_spec (lst : list item) (it : item) :
  notImported (omap iid lst) it = true <-> iid it = None \/ iid it ∉ map iid lst.
Proof.
  unfold notImported. destruct (iid it) as [id|] eqn:E; [|tauto].
  rewrite bool_decide_eq_true. split.
  - intros Hn. right. intros (it' & Heq & Hin)%elem_of_map. apply Hn.
    apply list_elem_of_omap. exists it'. split; [exact Hin|congruence].
  - intros [Hn|Hn]; [discriminate|]. intros (it' & Hin & Heq)%list_elem_of_omap.
    apply Hn, elem_of_map. exists it'. split; [congruence|exact Hin].
Qed.

(** ** What the loaders promise *)

(** C15: Loading a stylesheet list whose ids are not registered and then
    releasing it, by calling with no list the [update] function the
    style-loader returned (what a module's dispose does), gives back the
    registry [stylesInDom] and the [<style>] elements of the head exactly:
    every element the load added is removed, nothing else is. *)
Theorem addStyles_update_roundtrip (base : string) (lst : list item) (st : state) :
  bounded st -> (forall s, s ∈ listToStyles base lst -> stylesInDom st !! sid s = None) ->
  exists n, update base (fst (addStyles base lst st)) None (snd (addStyles base lst st)) =
            Ok (mk_state (stylesInDom st) (head st) n).
Proof. intros Hb Hf. eexists. exact (add_dispose base lst st Hb Hf). Qed.

(** C17: Releasing the same styles twice throws: the first release
    deletes the entries, and the second reads [refs] of an entry that is
    no longer there ([undefined.refs], a [TypeError]). *)
Theorem update_twice_throws (base : string) (lst : list item) (st : state) :
  bounded st -> (forall s, s ∈ listToStyles base lst -> stylesInDom st !! sid s = None) ->
  lst ≠ [] ->
  exists st2, update base (fst (addStyles base lst st)) None (snd (addStyles base lst st)) = Ok st2 /\
    update base (fst (addStyles base lst st)) None st2 = Error TypeError.
Proof.
  intros Hb Hf Hne. eexists. split; [exact (add_dispose base lst st Hb Hf)|]. cbn [fst].
  destruct (listToStyles_nonempty base lst Hne) as (s & rest & Hl).
  unfold update, addStyles. cbn [fst]. rewrite Hl. cbn [fold_left release stylesInDom].
  rewrite Hf by (rewrite Hl; set_solver). by rewrite release_error.
Qed.

(** C16: The registry stays well formed: loading a list, and calling
    [update] (with a new list or without) on the styles of a list, keep
    every entry named by its id with at least one reference, its
    closures naming elements that exist below the counter, and the
    elements of the head named once each. *)
Theorem styles_wf (base : string) (lst : list item) (newList : option (list item)) (st st' : state) :
  wf st ->
  wf (snd (addStyles base lst st)) /\
  (update base (listToStyles base lst) newList st = Ok st' -> wf st').
Proof. intros H. split; [by apply addStyles_wf|by apply update_wf]. Qed.

(** C18: [list.i(modules, mediaQuery)] appends to the list, in their
    order, exactly the imported items whose id is null or not the id of
    an item the list had before the call, each with its media query
    combined with [mediaQuery] ([mediaQuery] when it had none, [(m) and
    (mediaQuery)] otherwise, unchanged when [mediaQuery] is empty).  The
    ids the call itself appends are not checked: two imported items with
    the same new id are both appended. *)
Theorem i_spec (lst : list item) (ms : modules) (mediaQuery : string) :
  i lst ms mediaQuery =
  lst ++ map (λ it, mk_item (iid it) (icss it)
                       (if bool_decide (mediaQuery = "") then imedia it
                        else if bool_decide (imedia it = "") then mediaQuery
                        else ("(" ++ imedia it ++ ") and (" ++ mediaQuery ++ ")")%string)
                       (isourceMap it))
    (filter (λ it, iid it = None \/ iid it ∉ map iid lst)
       (match ms with CssString s => [mk_item None s "" None] | CssList l => l end)).
Proof.
  unfold i. rewrite fold_push_filter. f_equal. rewrite (list_filter_iff _ (λ it, iid it = None \/ iid it ∉ map iid lst)).
  - apply map_ext. intros [id c m sm]. unfold withMedia. cbn. by repeat case_bool_decide.
  - intros it. apply notImported_spec.
Qed.

(** ** Witnesses *)

Definition mainCssId : string := "./node_modules/css-loader/dist/cjs.js!./src/main.css".

Definition emptyPage : state := mk_state ∅ [] 0.

(** The module of [main.css] on a page without styles. *)
Lemma addStyles_update_roundtrip_witness :
  bounded emptyPage /\
  (forall s, s ∈ listToStyles "" (cssModule mainCssId "body{}") -> stylesInDom emptyPage !! sid s = None) /\
  exists n, update "" (fst (addStyles "" (cssModule mainCssId "body{}") emptyPage)) None
                 (snd (addStyles "" (cssModule mainCssId "body{}") emptyPage)) =
            Ok (mk_state (stylesInDom emptyPage) (head emptyPage) n).
Proof.
  assert (Hb : bounded emptyPage) by constructor.
  assert (Hf : forall s, s ∈ listToStyles "" (cssModule mainCssId "body{}") ->
                 stylesInDom emptyPage !! sid s = None) by (intros; apply lookup_empty).
  split_and!; [exact Hb|exact Hf|exact (addStyles_update_roundtrip "" _ emptyPage Hb Hf)].
Defined.

Lemma update_twice_throws_witness :
  bounded emptyPage /\
  (forall s, s ∈ listToStyles "" (cssModule mainCssId "body{}") -> stylesInDom emptyPage !! sid s = None) /\
  cssModule mainCssId "body{}" ≠ [] /\
  exists st2, update "" (fst (addStyles "" (cssModule mainCssId "body{}") emptyPage)) None
                (snd (addStyles "" (cssModule mainCssId "body{}") emptyPage)) = Ok st2 /\
    update "" (fst (addStyles "" (cssModule mainCssId "body{}") emptyPage)) None st2 = Error TypeError.
Proof.
  assert (Hb : bounded emptyPage) by constructor.
  assert (Hf : forall s, s ∈ listToStyles "" (cssModule mainCssId "body{}") ->
                 stylesInDom emptyPage !! sid s = None) by (intros; apply lookup_empty).
  assert (Hne : cssModule mainCssId "body{}" ≠ []) by discriminate.
  split_and!; [exact Hb|exact Hf|exact Hne|exact (update_twice_throws "" _ emptyPage Hb Hf Hne)].
Defined.

Lemma styles_wf_witness :
  wf emptyPage /\
  wf (snd (addStyles "" (cssModule mainCssId "body{}") emptyPage)) /\
  (update "" (listToStyles "" (cssModule mainCssId "body{}")) None emptyPage = Ok emptyPage ->
   wf emptyPage).
Proof.
  assert (Hw : wf emptyPage).
  { split_and!; [intros id ds Hl; unfold emptyPage in Hl; cbn [stylesInDom] in Hl; by rewrite lookup_empty in Hl|constructor|constructor]. }
  split; [exact Hw|exact (styles_wf "" _ None emptyPage emptyPage Hw)].
Defined.
